(* ===================================================================== *)
(* forge: ingestion / search core (internal/services/ingest.go)          *)
(*                                                                       *)
(* A shallow embedding of IngestFile, Search, chunkText and              *)
(* CreateDocDirect, with the vector store they talk to modelled as an    *)
(* explicit world that is threaded through every call.                   *)
(* ===================================================================== *)

From Stdlib Require Import ZArith Lia Ascii String.
From stdpp Require Import gmap strings list fin_maps.

Local Open Scope string_scope.
Local Open Scope list_scope.
Local Open Scope Z_scope.

(* --------------------------------------------------------------------- *)
(* Go strings                                                            *)
(* --------------------------------------------------------------------- *)
(* A Go string is a sequence of bytes; [string] (a list of 8-bit         *)
(* characters) is exactly that.  [string(content)] on a byte slice is    *)
(* the identity in this representation.                                  *)

Module GoStrings.

Definition nl_byte : ascii := "010"%char.

(* the one-byte string "\n" *)
Definition nl : string := String nl_byte EmptyString.

(* strings.Split(s, "\n"): always at least one element, also for "" *)
Fixpoint Split (s : string) : list string :=
  match s with
  | EmptyString => [EmptyString]
  | String c rest =>
      if Ascii.eqb c nl_byte then EmptyString :: Split rest
      else match Split rest with
           | h :: t => String c h :: t
           | [] => [String c EmptyString]
           end
  end.

(* unicode.IsSpace on the rune that starts at the head of [s], read as   *)
(* UTF-8: the width in bytes of that rune when it is white space, 0      *)
(* otherwise.  The white-space runes are U+0009..U+000D, U+0020, U+0085, *)
(* U+00A0, U+1680, U+2000..U+200A, U+2028, U+2029, U+202F, U+205F and    *)
(* U+3000; each has one valid encoding, listed here by its bytes.        *)
Definition spaceWidth (s : string) : nat :=
  match s with
  | EmptyString => 0%nat
  | String c0 r0 =>
      let b0 := N_of_ascii c0 in
      if ((9 <=? b0) && (b0 <=? 13))%N || (b0 =? 32)%N then 1%nat
      else match r0 with
           | EmptyString => 0%nat
           | String c1 r1 =>
               let b1 := N_of_ascii c1 in
               if (b0 =? 194)%N then
                 (if (b1 =? 133)%N || (b1 =? 160)%N then 2%nat else 0%nat)
               else match r1 with
                    | EmptyString => 0%nat
                    | String c2 _ =>
                        let b2 := N_of_ascii c2 in
                        if (b0 =? 225)%N && (b1 =? 154)%N && (b2 =? 128)%N
                        then 3%nat
                        else if (b0 =? 226)%N && (b1 =? 128)%N &&
                                (((128 <=? b2) && (b2 <=? 138))%N
                                 || (b2 =? 168)%N || (b2 =? 169)%N
                                 || (b2 =? 175)%N)
                        then 3%nat
                        else if (b0 =? 226)%N && (b1 =? 129)%N && (b2 =? 159)%N
                        then 3%nat
                        else if (b0 =? 227)%N && (b1 =? 128)%N && (b2 =? 128)%N
                        then 3%nat
                        else 0%nat
                    end
           end
  end.

(* The scan of strings.Fields: [skip] bytes still belong to a white-space *)
(* rune already recognised, [inField] tells whether the previous rune was *)
(* part of a field.  Returns the number of fields that start in [s].      *)
Fixpoint scanFields (s : string) (skip : nat) (inField : bool) : nat :=
  match s with
  | EmptyString => 0%nat
  | String _ rest =>
      match skip with
      | S k => scanFields rest k false
      | O =>
          match spaceWidth s with
          | O => ((if inField then 0 else 1) + scanFields rest 0 true)%nat
          | S k => scanFields rest k false
          end
      end
  end.

(* len(strings.Fields(s)) *)
Definition lenFields (s : string) : Z := Z.of_nat (scanFields s 0 false).

(* strings.Join(l, "") *)
Definition concat (l : list string) : string :=
  foldr String.app EmptyString l.

(* fmt.Sprintf("%d", i) for i >= 0 *)
Definition digit (n : nat) : ascii := ascii_of_nat (48 + n).

Fixpoint itoa_fuel (fuel : nat) (n : nat) (acc : string) : string :=
  match fuel with
  | O => acc
  | S f =>
      let acc' := String (digit (n mod 10)) acc in
      if (n <? 10)%nat then acc' else itoa_fuel f (n / 10) acc'
  end.

Definition itoa (n : nat) : string := itoa_fuel (S n) n EmptyString.

(* fmt.Sprintf("%x", b) on a byte array: two lower-case digits per byte *)
Definition hexDigit (n : N) : ascii :=
  if (n <? 10)%N then ascii_of_N (48 + n) else ascii_of_N (87 + n).

Fixpoint hex (b : string) : string :=
  match b with
  | EmptyString => EmptyString
  | String c rest =>
      String (hexDigit (N_of_ascii c / 16))
        (String (hexDigit (N_of_ascii c mod 16)) (hex rest))
  end.

End GoStrings.

Import GoStrings.

(* --------------------------------------------------------------------- *)
(* chunkText                                                             *)
(* --------------------------------------------------------------------- *)

(* The body of [for _, line := range lines]: the loop state is the slice  *)
(* of finished chunks, the builder [currentChunk] and [tokenCount].       *)
(* [tokenCount + lineTokens] cannot leave the range of Go's int: both are *)
(* bounded by the byte length of the text.  [tokens] is the counter       *)
(* len(strings.Fields(line)).                                             *)
Fixpoint chunkLoop (tokens : string → Z) (maxTokens : Z) (lines : list string)
    (chunks : list string) (currentChunk : string) (tokenCount : Z)
  : list string * string :=
  match lines with
  | [] => (chunks, currentChunk)
  | line :: rest =>
      let lineTokens := tokens line in
      let '(chunks1, current1, count1) :=
        if (maxTokens <? tokenCount + lineTokens)
           && (0 <? String.length currentChunk)%nat
        then (chunks ++ [currentChunk], EmptyString, 0)
        else (chunks, currentChunk, tokenCount) in
      chunkLoop tokens maxTokens rest chunks1
        (current1 +:+ (line +:+ nl)) (count1 + lineTokens)
  end.

Definition chunkText (text : string) (maxTokens : Z) : list string :=
  let lines := Split text in
  let '(chunks, currentChunk) :=
    chunkLoop lenFields maxTokens lines [] EmptyString 0 in
  if (0 <? String.length currentChunk)%nat
  then chunks ++ [currentChunk]
  else chunks.

(* --------------------------------------------------------------------- *)
(* Values, errors, metadata                                              *)
(* --------------------------------------------------------------------- *)

(* IEEE-754 numbers, carried as their bit patterns *)
Inductive float64 := F64 (bits : Z).
Inductive float32 := F32 (bits : Z).

(* Go's [error]: errors.New / fmt.Errorf without %w, and fmt.Errorf with *)
(* a %w verb around a cause.                                             *)
Inductive error :=
| ErrNew (msg : string)
| ErrWrap (msg : string) (cause : error).

(* errors.Is along the Unwrap chain *)
Fixpoint errorsIs (err target : error) : Prop :=
  err = target ∨
  match err with
  | ErrWrap _ cause => errorsIs cause target
  | ErrNew _ => False
  end.

(* What a Go call leaves behind: a value, an error, or a run-time panic  *)
(* (index out of range).                                                 *)
Inductive outcome (A : Type) :=
| Ok (a : A)
| Err (e : error)
| Panic.
Arguments Ok {A} a.
Arguments Err {A} e.
Arguments Panic {A}.

Definition errOf {A} (r : outcome A) : option error :=
  match r with Err e => Some e | _ => None end.

(* chroma's Document: a text document and its ContentString() *)
Record Document := TextDocument { ContentString : string }.

(* The dynamic types an [interface{}] holds in this program *)
Inductive any :=
| AString (s : string)
| AInt (n : Z)
| AInt64 (n : Z)
| AFloat64 (f : float64)
| ABool (b : bool)
| ANil
| ADocument (d : Document)
| ADistance (d : float32)
| AOther (typeName : string).

(* The value of a chroma MetaAttribute: NewStringAttribute,              *)
(* NewIntAttribute (int64), NewFloatAttribute (float64)                  *)
Inductive MetaValue :=
| MString (s : string)
| MInt (n : Z)
| MFloat (f : float64).

(* chroma.DocumentMetadata is a map from attribute key to value *)
Abbreviation DocumentMetadata := (gmap string MetaValue).

Inductive WhereFilter :=
| EqString (key : string) (value : string)
| EqInt (key : string) (value : Z)
| EqFloat (key : string) (value : float32).

Record StoredRecord := mkRecord {
  rec_id : string;
  rec_doc : Document;
  rec_meta : DocumentMetadata
}.

Record GetResult := mkGetResult {
  GetIDs : list string;
  GetDocuments : list Document;
  GetMetadatas : list DocumentMetadata
}.

(* One group of parallel arrays per query text *)
Record QueryResult := mkQueryResult {
  GetIDGroups : list (list string);
  GetDocumentsGroups : list (list Document);
  GetMetadatasGroups : list (list (option DocumentMetadata));
  GetDistancesGroups : list (list float32)
}.

Record CollectionQueryOp := mkQueryOp {
  QueryTexts : list string;
  NResults : Z;
  Where : option WhereFilter
}.

Inductive CollectionQueryOption :=
| WithQueryTexts (q : string)
| WithNResults (n : Z)
| WithWhereQuery (w : option WhereFilter).

Inductive CollectionGetOption :=
| WithWhereGet (w : WhereFilter)
| WithIDsGet (ids : list string).

Record IngestResult := mkIngestResult {
  Status : string;
  File : string;
  Chunks : Z
}.

(* [Document_] is the field Document (a string); [Distance] has the type *)
(* of the store's distances, float32, so float32(distances[i]) changes   *)
(* nothing.                                                              *)
Record SearchResult := mkSearchResult {
  ID : string;
  Document_ : string;
  Metadata : gmap string any;
  Distance : float32
}.

(* What the program takes from outside its own source: the two digests  *)
(* of the Go library (md5.Sum, sha256.Sum256, as the bytes of the        *)
(* digest), the conversion float32(x) of a float64, and of the vector    *)
(* store its comparison of a stored float with a filter value and its    *)
(* similarity engine (embedding, index and metric are the store's own).  *)
Record Externals := mkExternals {
  md5_Sum : string → string;
  sha256_Sum256 : string → string;
  to_float32 : float64 → float32;
  float_equal : float64 → float32 → bool;
  similarity : list StoredRecord → CollectionQueryOp → outcome QueryResult
}.

(* --------------------------------------------------------------------- *)
(* The world: vector store, its failures, the clock                      *)
(* --------------------------------------------------------------------- *)
(* The store is the chroma server behind the client library; the program *)
(* uses five of its operations: get-or-create a collection, get a        *)
(* collection by name (an error when absent), get records by an equality *)
(* predicate or by ids, add records, and the similarity query.  Here it  *)
(* is a map from collection name to records: Get selects, Add appends   *)
(* one record per id, Query hands the records and the query to the       *)
(* engine.  Logging and the context argument leave no trace in the       *)
(* results and are left out; a cancelled context shows as a failed call. *)

Inductive StoreCall :=
| CallGetOrCreateCollection (name : string)
| CallGetCollection (name : string)
| CallGet (collection : string) (opt : CollectionGetOption)
| CallAdd (collection : string) (ids : list string)
| CallQuery (collection : string) (op : CollectionQueryOp).

(* [collections]: the records of every collection, in insertion order.   *)
(* [faults]: what the store will do wrong; each store call consumes one  *)
(* entry, [Some e] makes that call fail with [e] and change nothing, an  *)
(* exhausted plan means no failure.                                      *)
(* [calls]: every store call made so far with the error it returned.     *)
(* [now], [ticks]: the reading of time.Now().Unix() and, per reading,    *)
(* the seconds that pass before the next one.                            *)
Record World := mkWorld {
  collections : gmap string (list StoredRecord);
  faults : list (option error);
  calls : list (StoreCall * option error);
  now : Z;
  ticks : list Z
}.

Definition setCollections (c : gmap string (list StoredRecord)) (w : World) : World :=
  mkWorld c (faults w) (calls w) (now w) (ticks w).

Definition logCall (c : StoreCall) (e : option error) (w : World) : World :=
  mkWorld (collections w) (faults w) (calls w ++ [(c, e)]) (now w) (ticks w).

Definition popFault (w : World) : World :=
  mkWorld (collections w) (tail (faults w)) (calls w) (now w) (ticks w).

(* the store calls made between two worlds *)
Definition callsSince (w w' : World) : list (StoreCall * option error) :=
  drop (length (calls w)) (calls w').

(* State passing: a Go function that talks to the store or the clock *)
Definition M (A : Type) : Type := World → A * World.

#[global] Instance M_ret : MRet M := λ A a w, (a, w).
#[global] Instance M_bind : MBind M :=
  λ A B f m w, let '(a, w') := m w in f a w'.

(* time.Now().Unix() *)
Definition timeNowUnix : M Z := λ w,
  (now w,
   mkWorld (collections w) (faults w) (calls w)
     (now w + hd 0 (ticks w)) (tail (ticks w))).

(* A store call: fails as planned, or runs [body]; logged either way *)
Definition storeCall {A} (c : StoreCall) (body : World → outcome A * World)
  : M (outcome A) := λ w,
  match faults w with
  | Some e :: _ => (Err e, logCall c (Some e) (popFault w))
  | _ => let '(r, w') := body (popFault w) in (r, logCall c (errOf r) w')
  end.

Definition asGetResult (rs : list StoredRecord) : GetResult :=
  mkGetResult (map rec_id rs) (map rec_doc rs) (map rec_meta rs).

Definition notFound : error := ErrNew "collection does not exist".

Definition applyQueryOption (op : CollectionQueryOp) (o : CollectionQueryOption)
  : CollectionQueryOp :=
  match o with
  | WithQueryTexts q => mkQueryOp [q] (NResults op) (Where op)
  | WithNResults n => mkQueryOp (QueryTexts op) n (Where op)
  | WithWhereQuery f => mkQueryOp (QueryTexts op) (NResults op) f
  end.

Definition queryOpOf (opts : list CollectionQueryOption) : CollectionQueryOp :=
  foldl applyQueryOption (mkQueryOp [] 10 None) opts.

Fixpoint zipRecords (ids : list string) (texts : list string)
    (metas : list DocumentMetadata) : list StoredRecord :=
  match ids, texts, metas with
  | i :: ids', t :: texts', m :: metas' =>
      mkRecord i (TextDocument t) m :: zipRecords ids' texts' metas'
  | _, _, _ => []
  end.

Section Store.
Context (X : Externals).

(* Does a record's metadata satisfy an equality predicate *)
Definition matchesWhere (f : WhereFilter) (m : DocumentMetadata) : bool :=
  match f with
  | EqString k v =>
      match m !! k with Some (MString s) => String.eqb s v | _ => false end
  | EqInt k v =>
      match m !! k with Some (MInt n) => Z.eqb n v | _ => false end
  | EqFloat k v =>
      match m !! k with Some (MFloat x) => float_equal X x v | _ => false end
  end.

Definition selects (opt : CollectionGetOption) (r : StoredRecord) : bool :=
  match opt with
  | WithWhereGet f => matchesWhere f (rec_meta r)
  | WithIDsGet ids => existsb (String.eqb (rec_id r)) ids
  end.

(* client.GetOrCreateCollection: the handle of a collection is its name *)
Definition GetOrCreateCollection (name : string) : M (outcome string) :=
  storeCall (CallGetOrCreateCollection name) (λ w,
    match collections w !! name with
    | Some _ => (Ok name, w)
    | None => (Ok name, setCollections (<[name := []]> (collections w)) w)
    end).

(* client.GetCollection: fails when there is no such collection *)
Definition GetCollection (name : string) : M (outcome string) :=
  storeCall (CallGetCollection name) (λ w,
    match collections w !! name with
    | Some _ => (Ok name, w)
    | None => (Err notFound, w)
    end).

(* collection.Get with one option *)
Definition collectionGet (c : string) (opt : CollectionGetOption)
  : M (outcome GetResult) :=
  storeCall (CallGet c opt) (λ w,
    match collections w !! c with
    | Some rs => (Ok (asGetResult (filter (λ r, selects opt r = true) rs)), w)
    | None => (Err notFound, w)
    end).

(* collection.Add(WithIDs, WithTexts, WithMetadatas) *)
Definition collectionAdd (c : string) (ids texts : list string)
    (metas : list DocumentMetadata) : M (outcome unit) :=
  storeCall (CallAdd c ids) (λ w,
    match collections w !! c with
    | Some rs =>
        (Ok tt,
         setCollections (<[c := rs ++ zipRecords ids texts metas]> (collections w)) w)
    | None => (Err notFound, w)
    end).

(* collection.Query: the options build the query, the engine answers *)
Definition collectionQuery (c : string) (opts : list CollectionQueryOption)
  : M (outcome QueryResult) :=
  storeCall (CallQuery c (queryOpOf opts)) (λ w,
    match collections w !! c with
    | Some rs => (similarity X rs (queryOpOf opts), w)
    | None => (Err notFound, w)
    end).

End Store.

(* --------------------------------------------------------------------- *)
(* internal/services/ingest.go                                           *)
(* --------------------------------------------------------------------- *)

(* hash[:8] *)
Definition first8 (digest : string) : string := substring 0 8 digest.

(* The type switch of IngestFile (string, int64, float64): an attribute  *)
(* is appended for these dynamic types, nothing for any other.           *)
Definition ingestAttribute (v : any) : option MetaValue :=
  match v with
  | AString val => Some (MString val)
  | AInt64 val => Some (MInt val)
  | AFloat64 val => Some (MFloat val)
  | _ => None
  end.

(* The type switch of CreateDocDirect (string, int, int64, float64) *)
Definition directAttribute (v : any) : option MetaValue :=
  match v with
  | AString val => Some (MString val)
  | AInt val => Some (MInt val)
  | AInt64 val => Some (MInt val)
  | AFloat64 val => Some (MFloat val)
  | _ => None
  end.

(* [for k, v := range m] collecting attributes, then                     *)
(* NewDocumentMetadata(attributes...): the keys of a map are distinct,   *)
(* so the record holds the attribute of each key that yields one.        *)
Definition toDocumentMetadata (attr : any → option MetaValue)
    (m : gmap string any) : DocumentMetadata :=
  omap attr m.

(* One chunk's metadata map (ingest.go, lines 70-83): the four system    *)
(* keys, then every user key under the "user_" prefix.  [i] has type     *)
(* int, time.Now().Unix() has type int64.                                *)
Definition systemMetadata (md5Hash filePath : string) (timestamp : Z) (i : nat)
  : gmap string any :=
  <["chunk_index" := AInt (Z.of_nat i)]>
    (<["timestamp" := AInt64 timestamp]>
      (<["file_name" := AString filePath]>
        (<["file_md5" := AString md5Hash]> ∅))).

Definition mergeUser (userMetadata : gmap string any) (metadata : gmap string any)
  : gmap string any :=
  map_fold (λ key value m, <["user_" +:+ key := value]> m) metadata userMetadata.

Section Service.
Context (X : Externals).

(* The loop of lines 65-86 from index [i] on: ids and metadata maps *)
Fixpoint idsAndMetadatas (filePath md5Hash : string)
    (userMetadata : gmap string any) (i : nat) (chunks : list string)
  : M (list string * list (gmap string any)) :=
  match chunks with
  | [] => mret ([], [])
  | chunk :: rest =>
      let hash := sha256_Sum256 X (filePath +:+ (chunk +:+ itoa i)) in
      let id := hex (first8 hash) in
      timestamp ← timeNowUnix;
      let metadata :=
        mergeUser userMetadata (systemMetadata md5Hash filePath timestamp i) in
      '(ids, metadatas) ← idsAndMetadatas filePath md5Hash userMetadata (S i) rest;
      mret (id :: ids, metadata :: metadatas)
  end.

Definition IngestFile (collectionName filePath content : string)
    (userMetadata : gmap string any) : M (outcome IngestResult) :=
  r ← GetOrCreateCollection collectionName;
  match r with
  | Err err => mret (Err (ErrWrap "failed to get/create collection" err))
  | Panic => mret Panic
  | Ok collection =>
      let md5Hash := hex (md5_Sum X content) in
      r ← collectionGet X collection (WithWhereGet (EqString "file_md5" md5Hash));
      match r with
      | Err err => mret (Err err)
      | Panic => mret Panic
      | Ok results =>
          let docs := GetDocuments results in
          if (0 <? length docs)%nat
          then mret (Ok (mkIngestResult "skipped" filePath 0))
          else
            let text := content in
            let chunks := chunkText text 512 in
            '(ids, metadatas) ←
              idsAndMetadatas filePath md5Hash userMetadata 0 chunks;
            let chromaMetadatas :=
              map (toDocumentMetadata ingestAttribute) metadatas in
            r ← collectionAdd collection ids chunks chromaMetadatas;
            match r with
            | Err err => mret (Err err)
            | Panic => mret Panic
            | Ok _ =>
                mret (Ok (mkIngestResult "ingested" filePath
                            (Z.of_nat (length chunks))))
            end
      end
  end.

(* The filter loop of Search (lines 149-159) over the entries of the     *)
(* filter map in the order the range statement yields them.              *)
Definition whereStep (whereClause : option WhereFilter) (kv : string * any)
  : option WhereFilter :=
  match kv.2 with
  | AString val => Some (EqString kv.1 val)
  | AInt val => Some (EqInt kv.1 val)
  | AFloat64 val => Some (EqFloat kv.1 (to_float32 X val))
  | _ => whereClause
  end.

Definition filterClause (filter : list (string * any)) : option WhereFilter :=
  foldl whereStep None filter.

Definition searchQueryOptions (query : string) (k : Z)
    (filter : list (string * any)) : list CollectionQueryOption :=
  let queryOptions := [WithQueryTexts query; WithNResults k] in
  if (0 <? length filter)%nat
  then queryOptions ++ [WithWhereQuery (filterClause filter)]
  else queryOptions.

(* One iteration of [for i, doc := range docs] (lines 183-203); [None]   *)
(* is the index-out-of-range panic of ids[i] or distances[i].            *)
Definition searchResultAt (ids : list string)
    (metadatas : list (option DocumentMetadata)) (distances : list float32)
    (i : nat) (doc : Document) : option SearchResult :=
  metadataMap ←
    match metadatas !! i with
    | Some (Some _) =>
        id ← ids !! i;
        let m : gmap string any :=
          <["document" := ADocument doc]> (<["id" := AString id]> ∅) in
        Some (match distances !! i with
              | Some d => <["distance" := ADistance d]> m
              | None => m
              end)
    | _ => Some ∅
    end;
  id ← ids !! i;
  d ← distances !! i;
  Some (mkSearchResult id (ContentString doc) metadataMap d).

Fixpoint searchLoop (ids : list string)
    (metadatas : list (option DocumentMetadata)) (distances : list float32)
    (i : nat) (docs : list Document) (searchResults : list SearchResult)
  : option (list SearchResult) :=
  match docs with
  | [] => Some searchResults
  | doc :: rest =>
      r ← searchResultAt ids metadatas distances i doc;
      searchLoop ids metadatas distances (S i) rest (searchResults ++ [r])
  end.

(* Lines 169-206: the first group of each parallel array *)
Definition flattenResults (results : QueryResult) : option (list SearchResult) :=
  let docsGroups := GetDocumentsGroups results in
  let idsGroups := GetIDGroups results in
  let metadatasGroups := GetMetadatasGroups results in
  let distancesGroups := GetDistancesGroups results in
  match docsGroups with
  | docs :: _ =>
      if (0 <? length docs)%nat then
        ids ← idsGroups !! 0%nat;
        metadatas ← metadatasGroups !! 0%nat;
        distances ← distancesGroups !! 0%nat;
        searchLoop ids metadatas distances 0 docs []
      else Some []
  | [] => Some []
  end.

Definition Search (collectionName query : string) (k : Z)
    (filter : list (string * any)) : M (outcome (list SearchResult)) :=
  r ← GetCollection collectionName;
  match r with
  | Err err =>
      mret (Err (ErrWrap ("failed to get collection '" +:+ (collectionName +:+ "'")) err))
  | Panic => mret Panic
  | Ok collection =>
      let queryOptions := searchQueryOptions query k filter in
      r ← collectionQuery X collection queryOptions;
      match r with
      | Err err => mret (Err err)
      | Panic => mret Panic
      | Ok results =>
          mret (match flattenResults results with
                | Some searchResults => Ok searchResults
                | None => Panic
                end)
      end
  end.

Definition CreateDocDirect (collectionName id text : string)
    (metadata : gmap string any) : M (outcome string) :=
  if String.eqb text "" then mret (Err (ErrNew "text is required"))
  else
    r ← GetOrCreateCollection collectionName;
    match r with
    | Err err => mret (Err (ErrWrap "get/create collection" err))
    | Panic => mret Panic
    | Ok collection =>
        let docID :=
          if String.eqb id "" then hex (first8 (sha256_Sum256 X text)) else id in
        conflict ←
          (if negb (String.eqb id "") then
             got ← collectionGet X collection (WithIDsGet [id]);
             mret (match got with
                   | Ok g => (0 <? length (GetIDs g))%nat
                   | _ => false
                   end)
           else mret false);
        if conflict : bool then mret (Err (ErrNew "conflict: id already exists"))
        else
          let md := toDocumentMetadata directAttribute metadata in
          r ← collectionAdd collection [docID] [text] [md];
          match r with
          | Err err => mret (Err (ErrWrap "add document" err))
          | Panic => mret Panic
          | Ok _ => mret (Ok docID)
          end
    end.

End Service.

(* --------------------------------------------------------------------- *)
(* Vocabulary of the statements                                          *)
(* --------------------------------------------------------------------- *)

(* the failure the next store call will meet, if any *)
Definition nextFault (w : World) : option error :=
  match faults w with
  | Some e :: _ => Some e
  | _ => None
  end.

(* the store answers the next [n] calls without a planned failure *)
Fixpoint responsive (n : nat) (fs : list (option error)) : bool :=
  match n with
  | O => true
  | S n' =>
      match fs with
      | Some _ :: _ => false
      | None :: fs' => responsive n' fs'
      | [] => true
      end
  end.

(* the records of a collection; none when it does not exist *)
Definition recordsOf (name : string) (w : World) : list StoredRecord :=
  default [] (collections w !! name).

(* the records a collection gained between two worlds *)
Definition addedRecords (name : string) (w w' : World) : list StoredRecord :=
  drop (length (recordsOf name w)) (recordsOf name w').

(* the filter values Search turns into a predicate *)
Definition supportedFilterValue (v : any) : bool :=
  match v with
  | AString _ | AInt _ | AFloat64 _ => true
  | _ => false
  end.

(* the first group of a response, as four parallel arrays of one length *)
Definition firstGroup (results : QueryResult) (docs : list Document)
    (ids : list string) (metadatas : list (option DocumentMetadata))
    (distances : list float32) : Prop :=
  GetDocumentsGroups results !! 0%nat = Some docs ∧
  GetIDGroups results !! 0%nat = Some ids ∧
  GetMetadatasGroups results !! 0%nat = Some metadatas ∧
  GetDistancesGroups results !! 0%nat = Some distances ∧
  length ids = length docs ∧
  length metadatas = length docs ∧
  length distances = length docs.

(* the store holds the collection and answers Search's query with [results] *)
Definition storeAnswers (X : Externals) (w : World) (name query : string)
    (k : Z) (filter : list (string * any)) (results : QueryResult) : Prop :=
  responsive 2 (faults w) = true ∧
  ∃ rs, collections w !! name = Some rs ∧
        similarity X rs (queryOpOf (searchQueryOptions X query k filter))
          = Ok results.

(* the metadata map Search attaches to the result at index [i] *)
Definition synthesizedMetadata (id : string) (doc : Document) (d : float32)
  : gmap string any :=
  <["distance" := ADistance d]>
    (<["document" := ADocument doc]> (<["id" := AString id]> ∅)).

(* the dedupe query of IngestFile would find a record of this content *)
Definition holdsContent (X : Externals) (name content : string) (w : World)
  : bool :=
  existsb (selects X (WithWhereGet (EqString "file_md5" (hex (md5_Sum X content)))))
    (recordsOf name w).

(* the world in which the loop of IngestFile starts on a fresh content *)
Definition atLoop (name : string) (h : string) (w : World) : World :=
  logCall (CallGet name (WithWhereGet (EqString "file_md5" h))) None
    (popFault
       (logCall (CallGetOrCreateCollection name) None
          (setCollections (<[name := recordsOf name w]> (collections w))
             (popFault w)))).

(* all records of [rs] hold the same thing under [key] *)
Definition shareKey (key : string) (rs : list StoredRecord) : Prop :=
  ∀ r1 r2, r1 ∈ rs → r2 ∈ rs → rec_meta r1 !! key = rec_meta r2 !! key.

(* what IngestFile leaves in the store under the four system keys *)
Definition storedSystemKeys (md5Hash filePath : string) (r : StoredRecord)
  : Prop :=
  rec_meta r !! "file_md5" = Some (MString md5Hash) ∧
  rec_meta r !! "file_name" = Some (MString filePath) ∧
  (∃ t, rec_meta r !! "timestamp" = Some (MInt t)) ∧
  rec_meta r !! "chunk_index" = None.

(* no second passes between the next [n] readings of the clock *)
Definition clockStill (n : nat) (w : World) : bool :=
  forallb (Z.eqb 0) (take n (ticks w)).

(* what the four system keys of a composed metadata map hold *)
Definition systemKeys (md5Hash filePath : string) (m : gmap string any) : Prop :=
  m !! "file_md5" = Some (AString md5Hash) ∧
  m !! "file_name" = Some (AString filePath) ∧
  (∃ t, m !! "timestamp" = Some (AInt64 t)) ∧
  (∃ i, m !! "chunk_index" = Some (AInt i)).

(* a stored attribute as the dynamic value it would be in a Go map *)
Definition anyOfMeta (v : MetaValue) : any :=
  match v with
  | MString s => AString s
  | MInt n => AInt64 n
  | MFloat f => AFloat64 f
  end.

(* the metadata map of a result holds every attribute of the record *)
Definition carriesRecord (r : SearchResult) (m : DocumentMetadata) : Prop :=
  ∀ key v, m !! key = Some v → Metadata r !! key = Some (anyOfMeta v).

(* the collection holds a record under this id *)
Definition holdsId (X : Externals) (name id : string) (w : World) : bool :=
  existsb (selects X (WithIDsGet [id])) (recordsOf name w).

(* the metadata map Search builds at index [i] *)
Definition metadataAt (metadatas : list (option DocumentMetadata)) (i : nat)
    (r : SearchResult) (doc : Document) : gmap string any :=
  match metadatas !! i with
  | Some (Some _) => synthesizedMetadata (ID r) doc (Distance r)
  | _ => ∅
  end.

(* the operation ended in an error that is, or wraps, the store's [e] *)
Definition propagated {A} (r : outcome A) (e : error) : Prop :=
  ∃ err, r = Err err ∧ errorsIs err e.

(* A small instance of the outside world, to run the model on *)
Module Demo.

Definition listAll (rs : list StoredRecord) (op : CollectionQueryOp)
  : outcome QueryResult :=
  Ok (mkQueryResult [map rec_id rs] [map rec_doc rs]
        [map (λ r, Some (rec_meta r)) rs] [map (λ _, F32 0) rs]).

Definition X : Externals :=
  mkExternals (λ b, b) (λ b, b) (λ f, match f with F64 b => F32 b end)
    (λ x v, match x, v with F64 a, F32 b => Z.eqb a b end) listAll.

Definition boom : error := ErrNew "connection refused".

Definition empty : World := mkWorld ∅ [] [] 1700000000 [].

(* the clock moves on by a second after its first reading *)
Definition ticking : World := mkWorld ∅ [] [] 1700000000 [1].

Definition withDoc1 : World :=
  mkWorld {[ "docs" := [mkRecord "doc-1" (TextDocument "first") ∅] ]}
    [] [] 1700000000 [].

(* the store after "hello world" was ingested as a.txt *)
Definition withHello : World :=
  (IngestFile X "docs" "a.txt" "hello world" ∅ empty).2.

(* the id lookup of the next direct insert fails *)
Definition lookupFails : World :=
  mkWorld {[ "docs" := [mkRecord "doc-1" (TextDocument "first") ∅] ]}
    [None; Some boom] [] 1700000000 [].

(* 513 one-word lines: one more than a chunk of 512 tokens takes *)
Definition manyLines : string :=
  concat (replicate 513 ("a" +:+ nl)).

End Demo.

(* --------------------------------------------------------------------- *)
(* The rest of the store's interface                                     *)
(* --------------------------------------------------------------------- *)
(* The operations below use four more calls of the store: list the      *)
(* collections, delete a collection (an error when absent), get all the *)
(* records of a collection, delete records by id (ids that are not      *)
(* there are passed over).  They fail as planned like the other calls;  *)
(* [calls] stays the log of the calls that IngestFile, Search and        *)
(* CreateDocDirect make.                                                 *)

Definition storeOp {A} (body : World → outcome A * World) : M (outcome A) :=
  λ w,
  match faults w with
  | Some e :: _ => (Err e, popFault w)
  | _ => body (popFault w)
  end.

(* client.ListCollections: the handles of all collections *)
Definition clientListCollections : M (outcome (list string)) :=
  storeOp (λ w, (Ok (map fst (map_to_list (collections w))), w)).

(* client.DeleteCollection *)
Definition clientDeleteCollection (name : string) : M (outcome unit) :=
  storeOp (λ w,
    match collections w !! name with
    | Some _ => (Ok tt, setCollections (delete name (collections w)) w)
    | None => (Err notFound, w)
    end).

(* collection.Get(ctx) without options: every record *)
Definition collectionGetAll (c : string) : M (outcome GetResult) :=
  storeOp (λ w,
    match collections w !! c with
    | Some rs => (Ok (asGetResult rs), w)
    | None => (Err notFound, w)
    end).

Definition hasId (ids : list string) (r : StoredRecord) : bool :=
  existsb (String.eqb (rec_id r)) ids.

(* collection.Delete(WithIDsDelete(ids...)) *)
Definition collectionDelete (c : string) (ids : list string) : M (outcome unit) :=
  storeOp (λ w,
    match collections w !! c with
    | Some rs =>
        (Ok tt,
         setCollections
           (<[c := filter (λ r, hasId ids r = false) rs]> (collections w)) w)
    | None => (Err notFound, w)
    end).

(* --------------------------------------------------------------------- *)
(* internal/services/ingest.go, the other operations                     *)
(* --------------------------------------------------------------------- *)

(* services.Document *)
Record ServiceDocument := mkServiceDocument {
  doc_ID : string;
  doc_Content : string;
  doc_Metadata : gmap string any;
  doc_FilePath : string;
  doc_CreatedAt : string
}.

(* One iteration of the loop of GetCollectionDocuments (lines 364-381);  *)
(* [None] is the panic of ids[i].                                        *)
Definition documentAt (ids : list string)
    (metadatas : list (option DocumentMetadata)) (i : nat) (doc : Document)
  : option ServiceDocument :=
  id ← ids !! i;
  let metadata : gmap string any := <["id" := AString id]> ∅ in
  let metadata :=
    match metadatas !! i with
    | Some (Some _) => <["document" := AString (ContentString doc)]> metadata
    | _ => metadata
    end in
  Some (mkServiceDocument id (ContentString doc) metadata "" "").

Fixpoint documentsLoop (ids : list string)
    (metadatas : list (option DocumentMetadata)) (i : nat)
    (docs : list Document) (documents : list ServiceDocument)
  : option (list ServiceDocument) :=
  match docs with
  | [] => Some documents
  | doc :: rest =>
      d ← documentAt ids metadatas i doc;
      documentsLoop ids metadatas (S i) rest (documents ++ [d])
  end.

Section MoreService.
Context (X : Externals).
(* collection.ID(): the identifier the store gave to the collection *)
Context (collectionID : string → string).

Definition ListCollections : M (outcome (list string)) :=
  r ← clientListCollections;
  match r with
  | Err err => mret (Err (ErrWrap "failed to list collections" err))
  | Panic => mret Panic
  | Ok collections => mret (Ok collections)
  end.

Definition CreateCollection (name description : string)
  : M (outcome (gmap string any)) :=
  r ← GetOrCreateCollection name;
  match r with
  | Err err => mret (Err (ErrWrap "failed to create collection" err))
  | Panic => mret Panic
  | Ok collection =>
      mret (Ok (<["description" := AString description]>
                  (<["name" := AString collection]>
                     (<["id" := AString (collectionID collection)]> ∅))))
  end.

Definition DeleteDoc (collectionName id : string) : M (outcome unit) :=
  r ← GetCollection collectionName;
  match r with
  | Err err =>
      mret (Err (ErrWrap ("err getting collection "
                            +:+ (collectionName +:+ " to delete")) err))
  | Panic => mret Panic
  | Ok collection => collectionDelete collection [id]
  end.

Definition DeleteCollection (name : string) : M (outcome unit) :=
  clientDeleteCollection name.

Definition GetCollectionDocuments (collectionName : string)
  : M (outcome (list ServiceDocument)) :=
  r ← GetCollection collectionName;
  match r with
  | Err err => mret (Err (ErrWrap "failed to get collection" err))
  | Panic => mret Panic
  | Ok collection =>
      r ← collectionGetAll collection;
      match r with
      | Err err => mret (Err (ErrWrap "failed to get documents" err))
      | Panic => mret Panic
      | Ok results =>
          let docs := GetDocuments results in
          let ids := GetIDs results in
          let metadatas := map Some (GetMetadatas results) in
          mret (match documentsLoop ids metadatas 0 docs [] with
                | Some documents => Ok documents
                | None => Panic
                end)
      end
  end.

End MoreService.

(* --------------------------------------------------------------------- *)
(* err.Error() and strings.Contains                                      *)
(* --------------------------------------------------------------------- *)

(* Every fmt.Errorf of the program has the shape "<text>: %w" *)
Fixpoint errorString (e : error) : string :=
  match e with
  | ErrNew msg => msg
  | ErrWrap msg cause => msg +:+ (": " +:+ errorString cause)
  end.

Fixpoint Contains (s substr : string) : bool :=
  String.prefix substr s ||
  match s with
  | EmptyString => false
  | String _ rest => Contains rest substr
  end.

(* --------------------------------------------------------------------- *)
(* internal/db: the query options of ChromaDB.Search                     *)
(* --------------------------------------------------------------------- *)

Module DB.
Section DB.
Context (X : Externals).

(* The same loop as in services.Search; WithNResults only for k > 0 and  *)
(* WithWhereQuery only for a clause that is not nil.                     *)
Definition searchOptions (query : string) (k : Z)
    (filter : list (string * any)) : list CollectionQueryOption :=
  let opts := [WithQueryTexts query] in
  let opts := if 0 <? k then opts ++ [WithNResults k] else opts in
  if (0 <? length filter)%nat then
    match foldl (whereStep X) None filter with
    | Some clause => opts ++ [WithWhereQuery (Some clause)]
    | None => opts
    end
  else opts.

End DB.
End DB.

(* --------------------------------------------------------------------- *)
(* internal/handlers: the HTTP handlers                                  *)
(* --------------------------------------------------------------------- *)
(* A handler is modelled from the point where gin has done its part: it  *)
(* takes what c.MultipartForm(), c.ShouldBindJSON(&req) or c.Param gave  *)
(* (a value or an error) and returns the status and the body it writes   *)
(* with c.JSON; [None] is a panic that leaves the handler.               *)

Module Handlers.

Inductive Body :=
| ErrorBody (msg : string)
| ResultsBody (results : list IngestResult)
| IdBody (id : string)
| SearchBody (results : list SearchResult)
| CollectionsBody (names : list string)
| CollectionBody (collection : gmap string any)
| DocumentsBody (documents : list ServiceDocument)
| NoBody.

Record Response := mkResponse { code : Z; body : Body }.

Definition StatusOK : Z := 200.
Definition StatusCreated : Z := 201.
Definition StatusNoContent : Z := 204.
Definition StatusBadRequest : Z := 400.
Definition StatusConflict : Z := 409.
Definition StatusInternalServerError : Z := 500.

(* One uploaded file: its name and what fileHeader.Open() followed by    *)
(* io.ReadAll gives, the bytes or an error                               *)
Record FileHeader := mkFileHeader {
  Filename : string;
  contents : outcome string
}.

(* form.File["files"], c.PostForm("collection_id"), c.PostForm("metadata") *)
Record MultipartForm := mkForm {
  files : list FileHeader;
  collection_id : string;
  metadata : string
}.

Record DirectRequest := mkDirectRequest {
  dr_Collection : string;
  dr_ID : string;
  dr_Text : string;
  dr_Metadata : gmap string any
}.

Record SearchRequest := mkSearchRequest {
  sr_Query : string;
  sr_CollectionId : string;
  sr_K : Z;
  sr_Filter : list (string * any)
}.

Record CreateCollectionRequest := mkCreateCollectionRequest {
  cr_Name : string;
  cr_Description : string
}.

Definition errorResult (fileHeader : FileHeader) : IngestResult :=
  mkIngestResult "error" (Filename fileHeader) 0.

Section Handlers.
Context (X : Externals).
Context (collectionID : string → string).
(* json.Unmarshal of the metadata field into a map[string]interface{} *)
Context (jsonUnmarshal : string → outcome (gmap string any)).

(* The loop of handleFileUpload (lines 96-117) *)
Fixpoint ingestFiles (collectionName : string) (userMetadata : gmap string any)
    (fileHeaders : list FileHeader) (results : list IngestResult)
  : M (option (list IngestResult)) :=
  match fileHeaders with
  | [] => mret (Some results)
  | fileHeader :: rest =>
      match contents fileHeader with
      | Ok buf =>
          r ← IngestFile X collectionName (Filename fileHeader) buf userMetadata;
          match r with
          | Ok result =>
              ingestFiles collectionName userMetadata rest (results ++ [result])
          | Err _ =>
              ingestFiles collectionName userMetadata rest
                (results ++ [errorResult fileHeader])
          | Panic => mret None
          end
      | _ =>
          ingestFiles collectionName userMetadata rest
            (results ++ [errorResult fileHeader])
      end
  end.

Definition handleFileUpload (form : outcome MultipartForm)
  : M (option Response) :=
  match form with
  | Err err =>
      mret (Some (mkResponse StatusBadRequest (ErrorBody (errorString err))))
  | Panic => mret None
  | Ok form =>
      if (length (files form) =? 0)%nat then
        mret (Some (mkResponse StatusBadRequest (ErrorBody "no files provided")))
      else if String.eqb (collection_id form) "" then
        mret (Some (mkResponse StatusBadRequest
                      (ErrorBody "collection_id is required")))
      else
        match (if negb (String.eqb (metadata form) "")
               then jsonUnmarshal (metadata form) else Ok ∅) with
        | Ok userMetadata =>
            results ← ingestFiles (collection_id form) userMetadata
                        (files form) [];
            mret (match results with
                  | Some results =>
                      Some (mkResponse StatusOK (ResultsBody results))
                  | None => None
                  end)
        | _ =>
            mret (Some (mkResponse StatusBadRequest
                          (ErrorBody "invalid metadata JSON")))
        end
  end.

Definition handleDirectText (req : outcome DirectRequest)
  : M (option Response) :=
  match req with
  | Err err =>
      mret (Some (mkResponse StatusBadRequest (ErrorBody (errorString err))))
  | Panic => mret None
  | Ok req =>
      r ← CreateDocDirect X (dr_Collection req) (dr_ID req) (dr_Text req)
            (dr_Metadata req);
      mret (match r with
            | Err err =>
                if Contains (errorString err) "conflict"
                then Some (mkResponse StatusConflict
                             (ErrorBody (errorString err)))
                else Some (mkResponse StatusInternalServerError
                             (ErrorBody (errorString err)))
            | Panic => None
            | Ok id => Some (mkResponse StatusCreated (IdBody id))
            end)
  end.

(* Ingest: by the Content-Type header *)
Definition Ingest (contentType : string) (form : outcome MultipartForm)
    (req : outcome DirectRequest) : M (option Response) :=
  if Contains contentType "multipart/form-data"
  then handleFileUpload form
  else handleDirectText req.

Definition Search (req : outcome SearchRequest) : M (option Response) :=
  match req with
  | Err err =>
      mret (Some (mkResponse StatusBadRequest (ErrorBody (errorString err))))
  | Panic => mret None
  | Ok req =>
      let K := if sr_K req =? 0 then 5 else sr_K req in
      r ← Search X (sr_CollectionId req) (sr_Query req) K
            (sr_Filter req);
      mret (match r with
            | Err err =>
                Some (mkResponse StatusInternalServerError
                        (ErrorBody (errorString err)))
            | Panic => None
            | Ok results => Some (mkResponse StatusOK (SearchBody results))
            end)
  end.

Definition ListCollections : M (option Response) :=
  r ← ListCollections;
  mret (match r with
        | Err err =>
            Some (mkResponse StatusInternalServerError
                    (ErrorBody (errorString err)))
        | Panic => None
        | Ok collections =>
            Some (mkResponse StatusOK (CollectionsBody collections))
        end).

Definition CreateCollection (req : outcome CreateCollectionRequest)
  : M (option Response) :=
  match req with
  | Err err =>
      mret (Some (mkResponse StatusBadRequest (ErrorBody (errorString err))))
  | Panic => mret None
  | Ok req =>
      r ← CreateCollection collectionID (cr_Name req) (cr_Description req);
      mret (match r with
            | Err err =>
                Some (mkResponse StatusInternalServerError
                        (ErrorBody (errorString err)))
            | Panic => None
            | Ok collection =>
                Some (mkResponse StatusOK (CollectionBody collection))
            end)
  end.

(* GetCollectionDocuments and ListDocs differ in their messages only *)
Definition documentsResponse (missing : string) (collection : string)
  : M (option Response) :=
  if String.eqb collection "" then
    mret (Some (mkResponse StatusBadRequest (ErrorBody missing)))
  else
    r ← GetCollectionDocuments collection;
    mret (match r with
          | Err err =>
              Some (mkResponse StatusInternalServerError
                      (ErrorBody (errorString err)))
          | Panic => None
          | Ok documents =>
              Some (mkResponse StatusOK (DocumentsBody documents))
          end).

Definition GetCollectionDocuments (collectionId : string)
  : M (option Response) :=
  documentsResponse "collection ID is required" collectionId.

Definition ListDocs (collection : string) : M (option Response) :=
  documentsResponse "collection is required" collection.

Definition DeleteCollection (name : string) : M (option Response) :=
  if String.eqb name "" then
    mret (Some (mkResponse StatusBadRequest
                  (ErrorBody "collection name is required")))
  else
    r ← DeleteCollection name;
    mret (match r with
          | Err err =>
              Some (mkResponse StatusInternalServerError
                      (ErrorBody (errorString err)))
          | Panic => None
          | Ok _ => Some (mkResponse StatusNoContent NoBody)
          end).

Definition DeleteDoc (collection id : string) : M (option Response) :=
  if String.eqb collection "" || String.eqb id "" then
    mret (Some (mkResponse StatusBadRequest
                  (ErrorBody "collection and id are required")))
  else
    r ← DeleteDoc collection id;
    mret (match r with
          | Err err =>
              Some (mkResponse StatusInternalServerError
                      (ErrorBody (errorString err)))
          | Panic => None
          | Ok _ => Some (mkResponse StatusNoContent NoBody)
          end).

End Handlers.
End Handlers.

(* --------------------------------------------------------------------- *)
(* internal/mcp: the search tool                                         *)
(* --------------------------------------------------------------------- *)

Module MCP.

Record SearchParams := mkSearchParams {
  Query : string;
  CollectionId : string;
  K : Z;
  Filter : list (string * any)
}.

Section MCP.
Context (X : Externals).
(* string(json.Marshal(results)) *)
Context (jsonMarshal : list SearchResult → string).

(* The function handleSearchFunc returns: the text of the one content   *)
(* item of its CallToolResult; the error it returns is always nil.       *)
Definition handleSearch (args : SearchParams) : M (option string) :=
  let k := if K args =? 0 then 5 else K args in
  r ← Search X (CollectionId args) (Query args) k (Filter args);
  mret (match r with
        | Err err => Some ("Search error: " +:+ errorString err)
        | Panic => None
        | Ok results => Some (jsonMarshal results)
        end).

End MCP.
End MCP.

(* More of the outside world to run the model on *)
Module Demo2.

Definition ids (name : string) : string := "id-of-" +:+ name.

Definition parse (s : string) : outcome (gmap string any) :=
  if String.eqb s "{}" then Ok ∅ else Err (ErrNew "unexpected end of JSON input").

Definition twoDocs : World :=
  mkWorld {[ "docs" := [mkRecord "doc-1" (TextDocument "first") ∅;
                         mkRecord "doc-2" (TextDocument "second") ∅] ]}
    [] [] 1700000000 [].

End Demo2.

(* --------------------------------------------------------------------- *)
(* internal/config: the key-value store of the configuration             *)
(* --------------------------------------------------------------------- *)
(* The SQLite database is the table config(key TEXT PRIMARY KEY, value   *)
(* TEXT): a map from key to value, absent before CREATE TABLE.  Every    *)
(* statement can fail, as planned in [dbFaults] (one entry per           *)
(* statement, like the store's); a statement on a table that is not      *)
(* there fails too.                                                      *)

Module Config.

Record DB := mkDB {
  table : option (gmap string string);
  dbFaults : list (option error)
}.

Record Values := mkValues {
  ChromaURL : string;
  CollectionName : string;
  BackendHTTPPort : Z;
  MCPTransport : string
}.

Definition defaultChromaURL : string := "http://localhost:8000".
Definition defaultCollectionName : string := "default".
Definition defaultHTTPPort : Z := 8080.
Definition defaultMCPTransport : string := "stdio".

Definition noTable : error := ErrNew "no such table: config".

Definition C (A : Type) : Type := DB → A * DB.

#[global] Instance C_ret : MRet C := λ A a db, (a, db).
#[global] Instance C_bind : MBind C :=
  λ A B f m db, let '(a, db') := m db in f a db'.

(* One statement: fails as planned, or runs on the database *)
Definition statement {A} (body : DB → outcome A * DB) : C (outcome A) :=
  λ db,
  let db' := mkDB (table db) (tail (dbFaults db)) in
  match dbFaults db with
  | Some e :: _ => (Err e, db')
  | _ => body db'
  end.

Definition onTable {A} (f : gmap string string → outcome A * gmap string string)
  : DB → outcome A * DB :=
  λ db,
  match table db with
  | Some rows => let '(r, rows') := f rows in (r, mkDB (Some rows') (dbFaults db))
  | None => (Err noTable, db)
  end.

(* CREATE TABLE IF NOT EXISTS config (...) *)
Definition createTable : C (outcome unit) :=
  statement (λ db,
    (Ok tt, mkDB (Some (default ∅ (table db))) (dbFaults db))).

(* INSERT OR IGNORE INTO config(key,value) VALUES(?,?) *)
Definition insertOrIgnore (key value : string) : C (outcome unit) :=
  statement (onTable (λ rows,
    (Ok tt, match rows !! key with
            | Some _ => rows
            | None => <[key := value]> rows
            end))).

(* INSERT ... ON CONFLICT(key) DO UPDATE SET value=excluded.value *)
Definition upsert (key value : string) : C (outcome unit) :=
  statement (onTable (λ rows, (Ok tt, <[key := value]> rows))).

(* SELECT value FROM config WHERE key=?, scanned: [Ok None] is          *)
(* sql.ErrNoRows                                                         *)
Definition selectValue (key : string) : C (outcome (option string)) :=
  statement (onTable (λ rows, (Ok (rows !! key), rows))).

(* SELECT key, value FROM config, read to the end into a map *)
Definition selectAll : C (outcome (gmap string string)) :=
  statement (onTable (λ rows, (Ok rows, rows))).

(* db.Begin() and tx.Commit() *)
Definition begin : C (outcome unit) := statement (λ db, (Ok tt, db)).
Definition commit : C (outcome unit) := statement (λ db, (Ok tt, db)).

(* the deferred tx.Rollback() of a transaction that did not commit *)
Definition rollbackTo (saved : option (gmap string string)) : C unit :=
  λ db, (tt, mkDB saved (dbFaults db)).

Definition migrate : C (outcome unit) :=
  r ← createTable;
  match r with
  | Err err => mret (Err (ErrWrap "migrate" err))
  | _ => mret (Ok tt)
  end.

Definition defaultPairs : list (string * string) :=
  [("chroma_url", defaultChromaURL);
   ("collection_name", defaultCollectionName);
   ("backend_http_port", itoa (Z.to_nat defaultHTTPPort));
   ("mcp_transport", defaultMCPTransport)].

(* The loop of seedDefaults inside the transaction *)
Fixpoint seedPairs (pairs : list (string * string)) : C (outcome unit) :=
  match pairs with
  | [] => mret (Ok tt)
  | p :: rest =>
      r ← insertOrIgnore p.1 p.2;
      match r with
      | Err err => mret (Err (ErrWrap ("seed " +:+ p.1) err))
      | _ => seedPairs rest
      end
  end.

Definition seedDefaults : C (outcome unit) :=
  λ db,
  let saved := table db in
  (r ← begin;
   match r with
   | Err err => mret (Err err)
   | _ =>
       r ← seedPairs defaultPairs;
       match r with
       | Err err => _ ← rollbackTo saved; mret (Err err)
       | _ =>
           r ← commit;
           match r with
           | Err err => _ ← rollbackTo saved; mret (Err err)
           | _ => mret (Ok tt)
           end
       end
   end) db.

Definition pick (m : gmap string string) (k d : string) : string :=
  match m !! k with
  | Some v => if negb (String.eqb v "") then v else d
  | None => d
  end.

Section Config.
(* atoi: fmt.Sscanf(s, "%d", &n), 0 when the scan fails *)
Context (atoi : string → Z).

Definition GetAll : C (outcome Values) :=
  r ← selectAll;
  match r with
  | Err err => mret (Err err)
  | Panic => mret Panic
  | Ok vals =>
      mret (Ok (mkValues
                  (pick vals "chroma_url" defaultChromaURL)
                  (pick vals "collection_name" defaultCollectionName)
                  (atoi (pick vals "backend_http_port"
                           (itoa (Z.to_nat defaultHTTPPort))))
                  (pick vals "mcp_transport" defaultMCPTransport)))
  end.

End Config.

Definition Get (key : string) : C (outcome string) :=
  r ← selectValue key;
  match r with
  | Err err => mret (Err err)
  | Panic => mret Panic
  | Ok None => mret (Ok "")
  | Ok (Some v) => mret (Ok v)
  end.

Definition Set_ (key value : string) : C (outcome unit) := upsert key value.

(* Ensure, from the results of os.MkdirAll and sql.Open on *)
Definition Ensure (mkdir opened : option error) : C (outcome unit) :=
  match mkdir with
  | Some err => mret (Err (ErrWrap "create config dir" err))
  | None =>
      match opened with
      | Some err => mret (Err (ErrWrap "open sqlite" err))
      | None =>
          r ← migrate;
          match r with
          | Err err => mret (Err err)
          | _ =>
              r ← seedDefaults;
              match r with
              | Err err => mret (Err err)
              | _ => mret (Ok tt)
              end
          end
      end
  end.

(* the database answers the next [n] statements *)
Definition answers (n : nat) (db : DB) : bool := responsive n (dbFaults db).

Definition rowsOf (db : DB) : gmap string string := default ∅ (table db).

End Config.

(* --------------------------------------------------------------------- *)
(* More vocabulary of the statements                                     *)
(* --------------------------------------------------------------------- *)

(* a group of lines written out, each with its newline *)
Definition joinLines (group : list string) : string :=
  concat (map (λ line, line +:+ nl) group).

(* the tokens of a group of lines, counted line by line *)
Definition sumTokens (tokens : string → Z) (group : list string) : Z :=
  foldr (λ line n, tokens line + n) 0 group.

(* a group a chunk may hold: some lines within the bound, or one line *)
Definition boundedGroup (tokens : string → Z) (maxTokens : Z)
    (group : list string) : Prop :=
  group ≠ [] ∧ (sumTokens tokens group ≤ maxTokens ∨ length group = 1%nat).

(* what a listed document holds: the id and the text, and a metadata map *)
(* with nothing but these two                                            *)
Definition listedAs (id : string) (doc : Document) (d : ServiceDocument)
  : Prop :=
  doc_ID d = id ∧ doc_Content d = ContentString doc ∧
  doc_FilePath d = "" ∧ doc_CreatedAt d = "" ∧
  doc_Metadata d !! "id" = Some (AString id) ∧
  (∀ key a, doc_Metadata d !! key = Some a →
     (key = "id" ∧ a = AString id) ∨
     (key = "document" ∧ a = AString (ContentString doc))).

(* the predicate Search makes of one filter entry *)
Definition equalityOn (X : Externals) (key : string) (v : any)
  : option WhereFilter :=
  match v with
  | AString val => Some (EqString key val)
  | AInt val => Some (EqInt key val)
  | AFloat64 val => Some (EqFloat key (to_float32 X val))
  | _ => None
  end.

(* the entry of the upload's answer for one file *)
Definition answersFile (fileHeader : Handlers.FileHeader) (r : IngestResult)
  : Prop :=
  File r = Handlers.Filename fileHeader ∧
  Status r ∈ ["ingested"; "skipped"; "error"] ∧
  (∀ e, Handlers.contents fileHeader = Err e → Status r = "error").

(* the bytes IngestFile hashes for the id of chunk [i] (line 66) *)
Definition chunkIdInput (filePath chunk : string) (i : nat) : string :=
  filePath +:+ (chunk +:+ itoa i).

(* reading a decimal numeral back, from the value [v] read so far *)
Fixpoint readDigits (s : string) (v : nat) : nat :=
  match s with
  | EmptyString => v
  | String c rest => readDigits rest (10 * v + (nat_of_ascii c - 48))
  end.

Fixpoint hasNewline (s : string) : bool :=
  match s with
  | EmptyString => false
  | String c rest => Ascii.eqb c nl_byte || hasNewline rest
  end.

(* the id CreateDocDirect stores a text under *)
Definition directId (X : Externals) (id text : string) : string :=
  if String.eqb id "" then hex (first8 (sha256_Sum256 X text)) else id.

(* the record CreateDocDirect adds *)
Definition directRecord (X : Externals) (id text : string)
    (metadata : gmap string any) : StoredRecord :=
  mkRecord (directId X id text) (TextDocument text)
    (toDocumentMetadata directAttribute metadata).

(* ===================================================================== *)
(* Properties                                                            *)
(* ===================================================================== *)

(* --------------------------------------------------------------------- *)
(* Chunker                                                               *)
(* --------------------------------------------------------------------- *)

Section ChunkerFacts.

Lemma app_nil_l (s : string) : EmptyString +:+ s = s.
Proof. reflexivity. Qed.

Lemma app_cons (c : ascii) (s t : string) :
  String c s +:+ t = String c (s +:+ t).
Proof. reflexivity. Qed.

Lemma app_empty_r (s : string) : s +:+ EmptyString = s.
Proof.
  induction s as [|c s IH]; [done |]. by rewrite app_cons, IH.
Qed.

Lemma app_assoc_str (a b c : string) : (a +:+ b) +:+ c = a +:+ (b +:+ c).
Proof.
  induction a as [|x a IH]; [done |]. by rewrite !app_cons, IH.
Qed.

Lemma concat_cons (x : string) (l : list string) :
  concat (x :: l) = x +:+ concat l.
Proof. reflexivity. Qed.

Lemma concat_snoc (l : list string) (s : string) :
  concat (l ++ [s]) = concat l +:+ s.
Proof.
  induction l as [|x l IH].
  - change (concat ([] ++ [s])) with (s +:+ EmptyString).
    by rewrite app_empty_r.
  - change ((x :: l) ++ [s]) with (x :: (l ++ [s])).
    by rewrite !concat_cons, IH, app_assoc_str.
Qed.

Lemma length_zero_empty (s : string) :
  (0 <? String.length s)%nat = false → s = EmptyString.
Proof. destruct s; [done | discriminate]. Qed.

Lemma Split_nonempty (s : string) : Split s ≠ [].
Proof.
  induction s as [|c s IH]; simpl; [done |].
  destruct (Ascii.eqb c nl_byte); [done |].
  by destruct (Split s).
Qed.

(* Writing every line back with its newline gives the text and one newline *)
Lemma concat_Split (s : string) :
  concat (map (λ line, line +:+ nl) (Split s)) = s +:+ nl.
Proof.
  induction s as [|c s IH]; [done |].
  change (Split (String c s)) with
    (if Ascii.eqb c nl_byte then EmptyString :: Split s
     else match Split s with
          | h :: t => String c h :: t
          | [] => [String c EmptyString]
          end).
  destruct (Ascii.eqb_spec c nl_byte) as [-> | _].
  - rewrite map_cons, concat_cons, IH. reflexivity.
  - pose proof (Split_nonempty s) as Hne.
    destruct (Split s) as [|h t]; [done |].
    rewrite map_cons, concat_cons in *.
    by rewrite !app_cons, IH.
Qed.

(* The loop only moves bytes from the builder to the finished chunks *)
Lemma chunkLoop_concat tokens maxTokens lines :
  ∀ chunks currentChunk tokenCount,
    let r := chunkLoop tokens maxTokens lines chunks currentChunk tokenCount in
    concat r.1 +:+ r.2 =
    (concat chunks +:+ currentChunk) +:+ concat (map (λ line, line +:+ nl) lines).
Proof.
  induction lines as [|line rest IH]; intros chunks cur tc; simpl.
  - by rewrite app_empty_r.
  - destruct ((maxTokens <? tc + tokens line)
              && (0 <? String.length cur)%nat); simpl.
    + rewrite IH, concat_snoc. by rewrite app_nil_l, !app_assoc_str.
    + rewrite IH. by rewrite !app_assoc_str.
Qed.

Lemma app_nl_nonempty (a line : string) : a +:+ (line +:+ nl) ≠ EmptyString.
Proof. destruct a; [destruct line |]; discriminate. Qed.

(* After at least one line the builder holds at least that line's newline *)
Lemma chunkLoop_builder_nonempty tokens maxTokens lines :
  ∀ chunks currentChunk tokenCount,
    lines ≠ [] ∨ currentChunk ≠ EmptyString →
    (chunkLoop tokens maxTokens lines chunks currentChunk tokenCount).2
      ≠ EmptyString.
Proof.
  induction lines as [|line rest IH]; intros chunks cur tc H; simpl.
  - by destruct H.
  - destruct ((maxTokens <? tc + tokens line)
              && (0 <? String.length cur)%nat); simpl;
      apply IH; right; apply app_nl_nonempty.
Qed.

Lemma chunkText_nonempty (text : string) (maxTokens : Z) :
  chunkText text maxTokens ≠ [].
Proof.
  unfold chunkText.
  pose proof (chunkLoop_builder_nonempty lenFields maxTokens (Split text)
                [] EmptyString 0 (or_introl (Split_nonempty text))) as H.
  destruct (chunkLoop lenFields maxTokens (Split text) [] EmptyString 0)
    as [chunks cur]; simpl in H.
  destruct cur; [done |]. simpl. by destruct chunks.
Qed.

End ChunkerFacts.

Example Split_example : Split "a b
c" = ["a b"; "c"].
Proof. reflexivity. Qed.

Example lenFields_example : lenFields "  a  bb c " = 3.
Proof. reflexivity. Qed.

Example itoa_example : itoa 120 = "120".
Proof. reflexivity. Qed.

Example chunkText_example : chunkText "a b
c d
e" 3 = ["a b
"; "c d
e
"].
Proof. reflexivity. Qed.

(** C4: for every text and every chunk bound (the positive ones among
    them), the chunks of chunkText joined in index order are the text
    followed by one newline: nothing of the text is lost or reordered,
    and the only byte added is the newline written after the last line. *)
Theorem chunkText_reconstructs (text : string) (maxTokens : Z) :
  concat (chunkText text maxTokens) = text +:+ nl.
Proof.
  unfold chunkText.
  pose proof (chunkLoop_concat lenFields maxTokens (Split text)
                [] EmptyString 0) as H.
  destruct (chunkLoop lenFields maxTokens (Split text) [] EmptyString 0)
    as [chunks cur]; simpl in H.
  rewrite concat_Split in H.
  rewrite app_nil_l in H.
  destruct (0 <? String.length cur)%nat eqn:E.
  - by rewrite concat_snoc.
  - apply length_zero_empty in E. subst cur.
    by rewrite app_empty_r in H.
Qed.

(** C5: chunkText of the empty string is not the empty sequence: for
    every chunk bound it returns one chunk, the single newline. The claim
    (zero chunks) fails at this input. *)
Theorem chunkText_empty_is_one_newline (maxTokens : Z) :
  chunkText EmptyString maxTokens = [nl] ∧ chunkText EmptyString maxTokens ≠ [].
Proof.
  assert (chunkText EmptyString maxTokens = [nl]) as H.
  { unfold chunkText. simpl. by rewrite andb_false_r. }
  split; [done | by rewrite H].
Qed.

(* --------------------------------------------------------------------- *)
(* Metadata                                                              *)
(* --------------------------------------------------------------------- *)

Section MetadataFacts.

Lemma user_key_ne_system (k key : string) :
  key ∈ ["file_md5"; "file_name"; "timestamp"; "chunk_index"] →
  "user_" +:+ k ≠ key.
Proof.
  intros Hin Heq. subst key. unfold String.append in Hin.
  repeat (apply elem_of_cons in Hin as [Hin | Hin]; [discriminate Hin |]).
  by apply elem_of_nil in Hin.
Qed.

(* The user keys never replace a system key *)
Lemma mergeUser_system userMetadata metadata key :
  key ∈ ["file_md5"; "file_name"; "timestamp"; "chunk_index"] →
  mergeUser userMetadata metadata !! key = metadata !! key.
Proof.
  intros Hkey. unfold mergeUser.
  apply (map_fold_weak_ind (λ r _, r !! key = metadata !! key)); [done |].
  intros k v m r _ IH.
  rewrite lookup_insert_ne; [done | by apply user_key_ne_system].
Qed.

Lemma systemMetadata_md5 h fp t i :
  systemMetadata h fp t i !! "file_md5" = Some (AString h).
Proof. reflexivity. Qed.

Lemma systemMetadata_name h fp t i :
  systemMetadata h fp t i !! "file_name" = Some (AString fp).
Proof. reflexivity. Qed.

Lemma systemMetadata_timestamp h fp t i :
  systemMetadata h fp t i !! "timestamp" = Some (AInt64 t).
Proof. reflexivity. Qed.

Lemma systemMetadata_index h fp t i :
  systemMetadata h fp t i !! "chunk_index" = Some (AInt (Z.of_nat i)).
Proof. reflexivity. Qed.

End MetadataFacts.

(* --------------------------------------------------------------------- *)
(* The loop that composes ids and metadata                               *)
(* --------------------------------------------------------------------- *)

Section LoopFacts.
Context (X : Externals).

Ltac run_loop_step IH i w :=
  simpl; unfold mbind, M_bind, timeNowUnix; simpl;
  match goal with
  | |- context [idsAndMetadatas X ?fp ?h ?um (S i) ?rest ?w1] =>
      specialize (IH (S i) w1);
      destruct (idsAndMetadatas X fp h um (S i) rest w1) as [[ids ms] w2]
  end; simpl in *.

(* The loop reads the clock and nothing else of the world *)
Lemma idsAndMetadatas_frame fp h um chunks :
  ∀ i w,
    let r := idsAndMetadatas X fp h um i chunks w in
    collections r.2 = collections w ∧ faults r.2 = faults w ∧
    calls r.2 = calls w ∧
    length r.1.1 = length chunks ∧ length r.1.2 = length chunks.
Proof.
  induction chunks as [|chunk rest IH]; intros i w; [done |].
  run_loop_step IH i w.
  destruct IH as (-> & -> & -> & -> & ->). done.
Qed.

(* Every composed map holds the four system keys *)
Lemma idsAndMetadatas_system fp h um chunks :
  ∀ i w, Forall (systemKeys h fp) (idsAndMetadatas X fp h um i chunks w).1.2.
Proof.
  induction chunks as [|chunk rest IH]; intros i w; [by constructor |].
  run_loop_step IH i w.
  constructor; [| done].
  unfold systemKeys.
  rewrite !mergeUser_system by set_solver.
  rewrite systemMetadata_md5, systemMetadata_name, systemMetadata_timestamp,
    systemMetadata_index.
  repeat split; eauto.
Qed.

(* While the clock stands still every map holds the same reading *)
Lemma idsAndMetadatas_still fp h um chunks :
  ∀ i w,
    clockStill (length chunks) w = true →
    Forall (λ m, m !! "timestamp" = Some (AInt64 (now w)))
      (idsAndMetadatas X fp h um i chunks w).1.2.
Proof.
  induction chunks as [|chunk rest IH]; intros i w Hstill; [by constructor |].
  run_loop_step IH i w.
  unfold clockStill in *. simpl in Hstill.
  destruct (ticks w) as [|t ts] eqn:Et; simpl in *.
  - constructor.
    + by rewrite mergeUser_system by set_solver.
    + replace (now w + 0) with (now w) in IH by lia.
      apply IH. by destruct (length rest).
  - apply andb_true_iff in Hstill as [Ht Hts].
    destruct t; try discriminate Ht.
    constructor.
    + by rewrite mergeUser_system by set_solver.
    + replace (now w + 0) with (now w) in IH by lia. by apply IH.
Qed.

End LoopFacts.

(* --------------------------------------------------------------------- *)
(* Store calls                                                           *)
(* --------------------------------------------------------------------- *)

Section StoreFacts.
Context (X : Externals).

Lemma callsSince_app w w' l : calls w' = calls w ++ l → callsSince w w' = l.
Proof. unfold callsSince. intros ->. by rewrite drop_app_length. Qed.

Lemma responsive_next n w :
  responsive (S n) (faults w) = true →
  nextFault w = None ∧ responsive n (faults (popFault w)) = true.
Proof.
  unfold nextFault. simpl. destruct (faults w) as [|[e|] fs]; simpl; try done.
  by destruct n.
Qed.

Lemma storeCall_ok {A} c (body : World → outcome A * World) w :
  nextFault w = None →
  storeCall c body w =
    (let '(r, w') := body (popFault w) in (r, logCall c (errOf r) w')).
Proof.
  unfold nextFault, storeCall. by destruct (faults w) as [|[e|] fs].
Qed.

Lemma storeCall_fault {A} c (body : World → outcome A * World) w e :
  nextFault w = Some e →
  storeCall c body w = (Err e, logCall c (Some e) (popFault w)).
Proof.
  unfold nextFault, storeCall.
  destruct (faults w) as [|[e'|] fs]; try done. by intros [= ->].
Qed.

(* A store call writes one line in the log: itself and its error *)
Lemma storeCall_calls {A} c (body : World → outcome A * World) w :
  (∀ v, calls (body v).2 = calls v) →
  calls (storeCall c body w).2
    = calls w ++ [(c, errOf (storeCall c body w).1)].
Proof.
  intros Hbody. unfold storeCall.
  destruct (faults w) as [|[e|] fs]; simpl; try done;
    match goal with
    | |- context [body ?v] =>
        specialize (Hbody v); destruct (body v) as [r w']
    end; simpl in *; by rewrite Hbody.
Qed.

Lemma GetOrCreateCollection_calls name w :
  calls (GetOrCreateCollection name w).2
    = calls w ++ [(CallGetOrCreateCollection name,
                   errOf (GetOrCreateCollection name w).1)].
Proof.
  apply storeCall_calls. intros v. by destruct (collections v !! name).
Qed.

Lemma GetCollection_calls name w :
  calls (GetCollection name w).2
    = calls w ++ [(CallGetCollection name, errOf (GetCollection name w).1)].
Proof.
  apply storeCall_calls. intros v. by destruct (collections v !! name).
Qed.

Lemma collectionGet_calls c opt w :
  calls (collectionGet X c opt w).2
    = calls w ++ [(CallGet c opt, errOf (collectionGet X c opt w).1)].
Proof.
  apply storeCall_calls. intros v. by destruct (collections v !! c).
Qed.

Lemma collectionAdd_calls c ids texts metas w :
  calls (collectionAdd c ids texts metas w).2
    = calls w ++ [(CallAdd c ids, errOf (collectionAdd c ids texts metas w).1)].
Proof.
  apply storeCall_calls. intros v. by destruct (collections v !! c).
Qed.

Lemma collectionQuery_calls c opts w :
  calls (collectionQuery X c opts w).2
    = calls w ++ [(CallQuery c (queryOpOf opts),
                   errOf (collectionQuery X c opts w).1)].
Proof.
  apply storeCall_calls. intros v. by destruct (collections v !! c).
Qed.

(* What each call does when no failure is planned for it *)
Lemma GetOrCreateCollection_ok name w :
  nextFault w = None →
  GetOrCreateCollection name w =
    (Ok name,
     logCall (CallGetOrCreateCollection name) None
       (setCollections (<[name := recordsOf name w]> (collections w))
          (popFault w))).
Proof.
  intros H. unfold GetOrCreateCollection, recordsOf.
  rewrite storeCall_ok by done. simpl.
  destruct (collections w !! name) as [rs|] eqn:E; simpl; [| done].
  by rewrite insert_id.
Qed.

Lemma GetCollection_ok name w rs :
  nextFault w = None → collections w !! name = Some rs →
  GetCollection name w =
    (Ok name, logCall (CallGetCollection name) None (popFault w)).
Proof.
  intros H E. unfold GetCollection.
  rewrite storeCall_ok by done. simpl. by rewrite E.
Qed.

Lemma collectionGet_ok c opt w rs :
  nextFault w = None → collections w !! c = Some rs →
  collectionGet X c opt w =
    (Ok (asGetResult (filter (λ r, selects X opt r = true) rs)),
     logCall (CallGet c opt) None (popFault w)).
Proof.
  intros H E. unfold collectionGet.
  rewrite storeCall_ok by done. simpl. by rewrite E.
Qed.

Lemma collectionAdd_ok c ids texts metas w rs :
  nextFault w = None → collections w !! c = Some rs →
  collectionAdd c ids texts metas w =
    (Ok tt,
     logCall (CallAdd c ids) None
       (setCollections
          (<[c := rs ++ zipRecords ids texts metas]> (collections w))
          (popFault w))).
Proof.
  intros H E. unfold collectionAdd.
  rewrite storeCall_ok by done. simpl. by rewrite E.
Qed.

Lemma collectionQuery_ok c opts w rs :
  nextFault w = None → collections w !! c = Some rs →
  collectionQuery X c opts w =
    (similarity X rs (queryOpOf opts),
     logCall (CallQuery c (queryOpOf opts))
       (errOf (similarity X rs (queryOpOf opts))) (popFault w)).
Proof.
  intros H E. unfold collectionQuery.
  rewrite storeCall_ok by done. simpl. by rewrite E.
Qed.

Lemma zipRecords_meta (P : DocumentMetadata → Prop) ids texts metas :
  Forall P metas → Forall (λ r, P (rec_meta r)) (zipRecords ids texts metas).
Proof.
  intros H. revert ids texts.
  induction H as [|m metas Hm _ IH]; intros [|i ids] [|t texts]; simpl;
    first [by constructor | constructor; [done | apply IH]].
Qed.

Lemma zipRecords_length ids texts metas :
  length ids = length texts → length metas = length texts →
  length (zipRecords ids texts metas) = length texts.
Proof.
  revert ids metas.
  induction texts as [|t texts IH]; intros [|i ids] [|m metas]; simpl;
    try done.
  intros [= H1] [= H2]. by rewrite IH.
Qed.

End StoreFacts.

(* --------------------------------------------------------------------- *)
(* IngestFile                                                            *)
(* --------------------------------------------------------------------- *)

Section IngestFacts.
Context (X : Externals).

Lemma filter_existsb_false {A} (f : A → bool) (l : list A) :
  existsb f l = false → filter (λ r, f r = true) l = [].
Proof.
  induction l as [|a l IH]; simpl; [done |].
  intros [Ha Hl]%orb_false_iff.
  rewrite filter_cons. destruct (decide (f a = true)); [congruence | auto].
Qed.

Lemma filter_existsb_true {A} (f : A → bool) (l : list A) :
  existsb f l = true → filter (λ r, f r = true) l ≠ [].
Proof.
  induction l as [|a l IH]; simpl; [done |].
  rewrite filter_cons. destruct (decide (f a = true)) as [|Hn]; [done |].
  apply not_true_is_false in Hn. rewrite Hn. simpl. auto.
Qed.

Lemma nonempty_length_pos {A} (l : list A) :
  l ≠ [] → (0 <? length l)%nat = true.
Proof. by destruct l. Qed.

(* What the conversion to the store's format keeps of the system keys:  *)
(* the two strings and the int64 pass, the int under chunk_index does not *)
Lemma stored_system_keys h fp (m : gmap string any) :
  systemKeys h fp m →
  toDocumentMetadata ingestAttribute m !! "file_md5" = Some (MString h) ∧
  toDocumentMetadata ingestAttribute m !! "file_name" = Some (MString fp) ∧
  (∃ t, toDocumentMetadata ingestAttribute m !! "timestamp" = Some (MInt t)) ∧
  toDocumentMetadata ingestAttribute m !! "chunk_index" = None.
Proof.
  intros (H1 & H2 & [t H3] & [i H4]).
  unfold toDocumentMetadata. rewrite !lookup_omap, H1, H2, H3, H4. simpl.
  eauto.
Qed.

(* A content the collection does not hold yet is chunked and added *)
Lemma IngestFile_ingests w name fp content um :
  responsive 3 (faults w) = true →
  holdsContent X name content w = false →
  let h := hex (md5_Sum X content) in
  let chunks := chunkText content 512 in
  let im := (idsAndMetadatas X fp h um 0 chunks (atLoop name h w)).1 in
  let w' := (IngestFile X name fp content um w).2 in
  (IngestFile X name fp content um w).1
    = Ok (mkIngestResult "ingested" fp (Z.of_nat (length chunks))) ∧
  collections w' =
    <[name := recordsOf name w
              ++ zipRecords im.1 chunks
                   (map (toDocumentMetadata ingestAttribute) im.2)]>
      (collections w) ∧
  faults w' = drop 3 (faults w).
Proof.
  intros Hresp Hfresh h chunks im. subst h chunks im.
  apply responsive_next in Hresp as [F1 Hresp].
  apply responsive_next in Hresp as [F2 Hresp].
  apply responsive_next in Hresp as [F3 _].
  unfold IngestFile, mbind, M_bind.
  rewrite GetOrCreateCollection_ok by done.
  erewrite collectionGet_ok;
    [| exact F2 | simpl; apply lookup_insert_eq].
  unfold holdsContent in Hfresh. apply filter_existsb_false in Hfresh.
  rewrite Hfresh. simpl.
  fold (atLoop name (hex (md5_Sum X content)) w).
  pose proof (idsAndMetadatas_frame X fp (hex (md5_Sum X content)) um
                (chunkText content 512) 0
                (atLoop name (hex (md5_Sum X content)) w))
    as (Hc & Hf & Hl & _).
  destruct (idsAndMetadatas X fp (hex (md5_Sum X content)) um 0
              (chunkText content 512)
              (atLoop name (hex (md5_Sum X content)) w))
    as [[ids ms] w2]; simpl in Hc, Hf, Hl |- *.
  erewrite collectionAdd_ok;
    [| unfold nextFault; rewrite Hf; exact F3
     | rewrite Hc; apply lookup_insert_eq].
  simpl. rewrite Hc, Hf. simpl.
  split; [done |]. split.
  - by rewrite insert_insert_eq.
  - by destruct (faults w) as [|? [|? [|? ?]]].
Qed.

(* A content the collection holds already is skipped, nothing is stored *)
Lemma IngestFile_skips w name fp content um :
  responsive 2 (faults w) = true →
  holdsContent X name content w = true →
  (IngestFile X name fp content um w).1
    = Ok (mkIngestResult "skipped" fp 0) ∧
  collections (IngestFile X name fp content um w).2 = collections w.
Proof.
  intros Hresp Hheld.
  apply responsive_next in Hresp as [F1 Hresp].
  apply responsive_next in Hresp as [F2 _].
  unfold IngestFile, mbind, M_bind.
  rewrite GetOrCreateCollection_ok by done.
  erewrite collectionGet_ok;
    [| exact F2 | simpl; apply lookup_insert_eq].
  unfold holdsContent in Hheld. apply filter_existsb_true in Hheld.
  unfold asGetResult. simpl. rewrite length_map.
  rewrite nonempty_length_pos by done. simpl.
  split; [done |].
  unfold recordsOf in *.
  destruct (collections w !! name) as [rs|] eqn:E; simpl in *; [| done].
  by apply insert_id.
Qed.

Lemma responsive_drop n m fs :
  responsive (n + m) fs = true → responsive m (drop n fs) = true.
Proof.
  revert fs. induction n as [|n IH]; intros fs; simpl; [by rewrite drop_0 |].
  destruct fs as [|[e|] fs]; try done.
  - intros _. by destruct m.
  - apply IH.
Qed.

Lemma selects_md5 h (r : StoredRecord) :
  rec_meta r !! "file_md5" = Some (MString h) →
  selects X (WithWhereGet (EqString "file_md5" h)) r = true.
Proof. intros H. simpl. rewrite H. apply String.eqb_refl. Qed.

Lemma existsb_all {A} (f : A → bool) (l : list A) :
  l ≠ [] → Forall (λ a, f a = true) l → existsb f l = true.
Proof.
  destruct l as [|a l]; [done |]. intros _ H.
  apply Forall_cons in H as [Ha _]. simpl. by rewrite Ha.
Qed.

(* The records a fresh ingestion adds: one per chunk, each with the      *)
(* converted metadata of its chunk                                       *)
Lemma IngestFile_added w name fp content um :
  responsive 3 (faults w) = true →
  holdsContent X name content w = false →
  let h := hex (md5_Sum X content) in
  let chunks := chunkText content 512 in
  let im := (idsAndMetadatas X fp h um 0 chunks (atLoop name h w)).1 in
  let w' := (IngestFile X name fp content um w).2 in
  recordsOf name w' = recordsOf name w ++ addedRecords name w w' ∧
  addedRecords name w w' =
    zipRecords im.1 chunks (map (toDocumentMetadata ingestAttribute) im.2) ∧
  length (addedRecords name w w') = length chunks ∧
  Forall (storedSystemKeys h fp) (addedRecords name w w').
Proof.
  intros Hresp Hfresh h chunks im w'.
  destruct (IngestFile_ingests w name fp content um Hresp Hfresh)
    as (_ & Hc & _).
  fold h chunks im w' in Hc.
  assert (recordsOf name w' = recordsOf name w
            ++ zipRecords im.1 chunks
                 (map (toDocumentMetadata ingestAttribute) im.2)) as Hrec.
  { unfold recordsOf at 1. by rewrite Hc, lookup_insert_eq. }
  assert (addedRecords name w w' =
            zipRecords im.1 chunks
              (map (toDocumentMetadata ingestAttribute) im.2)) as Hadd.
  { unfold addedRecords. by rewrite Hrec, drop_app_length. }
  pose proof (idsAndMetadatas_frame X fp h um chunks 0 (atLoop name h w))
    as (_ & _ & _ & Hl1 & Hl2).
  pose proof (idsAndMetadatas_system X fp h um chunks 0 (atLoop name h w))
    as Hsys.
  fold im in Hl1, Hl2, Hsys.
  rewrite Hadd. split; [done |]. split; [done |]. split.
  - apply zipRecords_length; [done | by rewrite length_map].
  - apply (zipRecords_meta (λ m,
             m !! "file_md5" = Some (MString h) ∧
             m !! "file_name" = Some (MString fp) ∧
             (∃ t, m !! "timestamp" = Some (MInt t)) ∧
             m !! "chunk_index" = None)).
    apply Forall_map. eapply Forall_impl; [exact Hsys |].
    intros m Hm. by apply stored_system_keys.
Qed.

End IngestFacts.

(** C1: ingesting the same bytes twice into one collection, with a store
    that answers and a collection that did not hold the content before:
    the first call returns ingested with its chunk count, the second
    returns skipped, and the second call stores nothing (the collections
    are what the first call left, no record is added). *)
Theorem IngestFile_idempotent (X : Externals) (w : World)
    (name fp fp' content : string) (um um' : gmap string any) :
  responsive 5 (faults w) = true →
  holdsContent X name content w = false →
  let first := IngestFile X name fp content um w in
  let second := IngestFile X name fp' content um' first.2 in
  first.1 = Ok (mkIngestResult "ingested" fp
                  (Z.of_nat (length (chunkText content 512)))) ∧
  second.1 = Ok (mkIngestResult "skipped" fp' 0) ∧
  collections second.2 = collections first.2 ∧
  addedRecords name first.2 second.2 = [].
Proof.
  intros Hresp Hfresh first second.
  assert (responsive 3 (faults w) = true) as Hresp3.
  { destruct (faults w) as [|[?|] [|[?|] [|[?|] ?]]]; done. }
  destruct (IngestFile_ingests X w name fp content um Hresp3 Hfresh)
    as (Hr & _ & Hf).
  destruct (IngestFile_added X w name fp content um Hresp3 Hfresh)
    as (Hrec & _ & Hlen & Hkeys).
  fold first in Hr, Hf, Hrec, Hlen, Hkeys.
  assert (holdsContent X name content first.2 = true) as Hheld.
  { unfold holdsContent. rewrite Hrec, existsb_app.
    apply orb_true_iff. right. apply existsb_all.
    - intros Hnil. rewrite Hnil in Hlen. simpl in Hlen.
      by destruct (chunkText_nonempty content 512); destruct (chunkText content 512).
    - eapply Forall_impl; [exact Hkeys |].
      intros r (Hmd5 & _). by apply selects_md5. }
  assert (responsive 2 (faults first.2) = true) as Hresp2.
  { rewrite Hf. by apply (responsive_drop 3 2). }
  destruct (IngestFile_skips X first.2 name fp' content um' Hresp2 Hheld)
    as (Hr2 & Hc2).
  fold second in Hr2, Hc2.
  split; [done |]. split; [done |]. split; [done |].
  unfold addedRecords, recordsOf. rewrite Hc2. apply drop_all.
Qed.

Lemma IngestFile_idempotent_witness :
  let first := IngestFile Demo.X "docs" "a.txt" "hello world" ∅ Demo.empty in
  let second := IngestFile Demo.X "docs" "b.txt" "hello world" ∅ first.2 in
  first.1 = Ok (mkIngestResult "ingested" "a.txt" 1) ∧
  second.1 = Ok (mkIngestResult "skipped" "b.txt" 0) ∧
  collections second.2 = collections first.2 ∧
  addedRecords "docs" first.2 second.2 = [].
Proof.
  apply (IngestFile_idempotent Demo.X Demo.empty "docs" "a.txt" "b.txt"
           "hello world" ∅ ∅); reflexivity.
Defined.

(** C2: what an ingestion really stores with each chunk. With a store
    that answers and a content not held before, every record added by
    IngestFile holds file_md5 (the hex digest of the whole content),
    file_name (the file path) and timestamp (an int64 of seconds), and
    holds nothing under chunk_index: the index is an int, and the
    conversion to the store's format keeps string, int64 and float64
    only. The claim asks for all four keys; the fourth is never stored. *)
Theorem IngestFile_stores_no_chunk_index (X : Externals) (w : World)
    (name fp content : string) (um : gmap string any) :
  responsive 3 (faults w) = true →
  holdsContent X name content w = false →
  let added := addedRecords name w (IngestFile X name fp content um w).2 in
  added ≠ [] ∧
  Forall (λ r,
    rec_meta r !! "file_md5" = Some (MString (hex (md5_Sum X content))) ∧
    rec_meta r !! "file_name" = Some (MString fp) ∧
    (∃ t, rec_meta r !! "timestamp" = Some (MInt t)) ∧
    rec_meta r !! "chunk_index" = None) added.
Proof.
  intros Hresp Hfresh added.
  destruct (IngestFile_added X w name fp content um Hresp Hfresh)
    as (_ & _ & Hlen & Hkeys).
  fold added in Hlen, Hkeys. split; [| exact Hkeys].
  intros Hnil. rewrite Hnil in Hlen. simpl in Hlen.
  pose proof (chunkText_nonempty content 512).
  by destruct (chunkText content 512).
Qed.

Lemma IngestFile_stores_no_chunk_index_witness :
  let added :=
    addedRecords "docs" Demo.empty
      (IngestFile Demo.X "docs" "a.txt" "hello world" ∅ Demo.empty).2 in
  added ≠ [] ∧
  Forall (λ r,
    rec_meta r !! "file_md5"
      = Some (MString (hex (md5_Sum Demo.X "hello world"))) ∧
    rec_meta r !! "file_name" = Some (MString "a.txt") ∧
    (∃ t, rec_meta r !! "timestamp" = Some (MInt t)) ∧
    rec_meta r !! "chunk_index" = None) added.
Proof.
  apply (IngestFile_stores_no_chunk_index Demo.X Demo.empty "docs" "a.txt"
           "hello world" ∅); reflexivity.
Defined.

(* The same at one input, by running the model *)
Example IngestFile_hello_stored :
  map (λ r, (rec_doc r, map_to_list (rec_meta r)))
    (addedRecords "docs" Demo.empty
       (IngestFile Demo.X "docs" "a.txt" "hello world" ∅ Demo.empty).2)
  = [(TextDocument ("hello world" +:+ nl),
      [("file_md5", MString "68656c6c6f20776f726c64");
       ("file_name", MString "a.txt");
       ("timestamp", MInt 1700000000)])].
Proof. vm_compute. reflexivity. Qed.

(** C3, as the claim states it, fails: with 513 one-word lines the call
    makes two chunks, and when the clock moves on by a second between
    the two readings of time.Now() the two stored records hold different
    timestamps. *)
Lemma IngestFile_timestamps_differ :
  ¬ shareKey "timestamp"
      (addedRecords "docs" Demo.ticking
         (IngestFile Demo.X "docs" "a.txt" Demo.manyLines ∅ Demo.ticking).2).
Proof.
  intros H.
  assert (map (λ r, rec_meta r !! "timestamp")
            (addedRecords "docs" Demo.ticking
               (IngestFile Demo.X "docs" "a.txt" Demo.manyLines ∅
                  Demo.ticking).2)
          = [Some (MInt 1700000000); Some (MInt 1700000001)]) as E
    by (vm_compute; reflexivity).
  destruct (addedRecords "docs" Demo.ticking
              (IngestFile Demo.X "docs" "a.txt" Demo.manyLines ∅
                 Demo.ticking).2) as [|r1 [|r2 [|r3 rs]]]; try discriminate E.
  injection E as E1 E2.
  specialize (H r1 r2 ltac:(set_solver) ltac:(set_solver)).
  rewrite E1, E2 in H. discriminate H.
Qed.

(** C3 (amended): all records stored by one call of IngestFile hold the
    same file_md5 and the same file_name; the timestamp is read from the
    clock once per chunk, so the records hold the same timestamp when no
    second passes between the readings of that call. *)
Theorem IngestFile_shared_keys (X : Externals) (w : World)
    (name fp content : string) (um : gmap string any) :
  responsive 3 (faults w) = true →
  holdsContent X name content w = false →
  let added := addedRecords name w (IngestFile X name fp content um w).2 in
  shareKey "file_md5" added ∧
  shareKey "file_name" added ∧
  (clockStill (length (chunkText content 512)) w = true →
   shareKey "timestamp" added).
Proof.
  intros Hresp Hfresh added.
  destruct (IngestFile_added X w name fp content um Hresp Hfresh)
    as (_ & Hadd & _ & Hkeys).
  fold added in Hadd, Hkeys.
  rewrite Forall_forall in Hkeys.
  split; [| split].
  - intros r1 r2 H1 H2.
    destruct (Hkeys r1 H1) as (-> & _), (Hkeys r2 H2) as (-> & _). done.
  - intros r1 r2 H1 H2.
    destruct (Hkeys r1 H1) as (_ & -> & _), (Hkeys r2 H2) as (_ & -> & _).
    done.
  - intros Hstill.
    pose proof (idsAndMetadatas_still X fp (hex (md5_Sum X content)) um
                  (chunkText content 512) 0
                  (atLoop name (hex (md5_Sum X content)) w) Hstill) as Hts.
    assert (Forall (λ r, rec_meta r !! "timestamp" = Some (MInt (now w)))
              added) as Hall.
    { rewrite Hadd.
      apply (zipRecords_meta (λ m, m !! "timestamp" = Some (MInt (now w)))).
      apply Forall_map. eapply Forall_impl; [exact Hts |].
      intros m Hm. unfold toDocumentMetadata.
      rewrite lookup_omap. simpl in Hm. by rewrite Hm. }
    rewrite Forall_forall in Hall.
    intros r1 r2 H1 H2. by rewrite (Hall r1 H1), (Hall r2 H2).
Qed.

Lemma IngestFile_shared_keys_witness :
  let added :=
    addedRecords "docs" Demo.empty
      (IngestFile Demo.X "docs" "a.txt" Demo.manyLines ∅ Demo.empty).2 in
  shareKey "file_md5" added ∧
  shareKey "file_name" added ∧
  shareKey "timestamp" added.
Proof.
  destruct (IngestFile_shared_keys Demo.X Demo.empty "docs" "a.txt"
              Demo.manyLines ∅) as (H1 & H2 & H3);
    [reflexivity | reflexivity |].
  split; [exact H1 |]. split; [exact H2 |].
  apply H3. vm_compute. reflexivity.
Defined.

(* --------------------------------------------------------------------- *)
(* Search                                                                *)
(* --------------------------------------------------------------------- *)

Section SearchFacts.
Context (X : Externals).

Lemma searchResultAt_ok ids metadatas distances i doc id d :
  ids !! i = Some id → distances !! i = Some d →
  ∃ r, searchResultAt ids metadatas distances i doc = Some r ∧
       ID r = id ∧ Document_ r = ContentString doc ∧ Distance r = d ∧
       Metadata r = metadataAt metadatas i r doc.
Proof.
  intros Hid Hd. unfold searchResultAt, metadataAt. rewrite Hid, Hd.
  destruct (metadatas !! i) as [[m|]|]; simpl; eexists; eauto.
Qed.

(* The loop over one group whose ids and distances cover the documents *)
Lemma searchLoop_ok ids metadatas distances docs :
  ∀ i acc,
    (i + length docs = length ids)%nat →
    length distances = length ids →
    ∃ rs, searchLoop ids metadatas distances i docs acc = Some (acc ++ rs) ∧
          map ID rs = drop i ids ∧
          map Document_ rs = map ContentString docs ∧
          map Distance rs = drop i distances ∧
          ∀ j r doc, rs !! j = Some r → docs !! j = Some doc →
                     Metadata r = metadataAt metadatas (i + j) r doc.
Proof.
  induction docs as [|doc rest IH]; intros i acc Hlen Hd; simpl in *.
  - exists []. rewrite app_nil_r, !drop_ge by lia.
    repeat split; try done;
      try (intros j r doc Hr; by rewrite lookup_nil in Hr).
  - destruct (lookup_lt_is_Some_2 ids i) as [id Hid]; [lia |].
    destruct (lookup_lt_is_Some_2 distances i) as [d Hdi]; [lia |].
    destruct (searchResultAt_ok ids metadatas distances i doc id d Hid Hdi)
      as (r & Hr & Hrid & Hrdoc & Hrd & Hrm).
    rewrite Hr. simpl.
    destruct (IH (S i) (acc ++ [r])) as (rs & Hrs & Hids & Hdocs & Hds & Hms);
      [lia | done |].
    exists (r :: rs). rewrite Hrs, <- app_assoc. simpl.
    rewrite Hrid, Hrdoc, Hrd, Hids, Hdocs, Hds.
    rewrite <- (drop_S ids id i Hid), <- (drop_S distances d i Hdi).
    repeat split; try done.
    intros [|j] r' doc' Hr' Hdoc'; simpl in *.
    + injection Hr' as <-. injection Hdoc' as <-.
      by rewrite Nat.add_0_r.
    + rewrite (Hms j r' doc' Hr' Hdoc'). f_equal. lia.
Qed.

Lemma flattenResults_group results docs ids metadatas distances :
  firstGroup results docs ids metadatas distances →
  ∃ rs, flattenResults results = Some rs ∧
        map ID rs = ids ∧
        map Document_ rs = map ContentString docs ∧
        map Distance rs = distances ∧
        ∀ j r doc, rs !! j = Some r → docs !! j = Some doc →
                   Metadata r = metadataAt metadatas j r doc.
Proof.
  intros (Hdocs & Hids & Hms & Hds & L1 & L2 & L3).
  unfold flattenResults. rewrite Hids, Hms, Hds.
  destruct (GetDocumentsGroups results) as [|docs' gs]; [done |].
  injection Hdocs as ->. simpl.
  destruct docs as [|doc rest].
  - destruct ids; [| done]. destruct distances; [| done].
    exists []. repeat split; try done;
      try (intros j r doc Hr; by rewrite lookup_nil in Hr).
  - change (0 <? length (doc :: rest))%nat with true. cbv iota.
    destruct (searchLoop_ok ids metadatas distances (doc :: rest) 0 [])
      as (rs & Hrs & ? & ? & ? & ?); [simpl in *; lia | lia |].
    exists rs. rewrite Hrs. simpl. by rewrite !drop_0 in *.
Qed.

Lemma flattenResults_empty results :
  (∀ docs, GetDocumentsGroups results !! 0%nat = Some docs → docs = []) →
  flattenResults results = Some [].
Proof.
  intros H. unfold flattenResults.
  destruct (GetDocumentsGroups results) as [|docs gs]; [done |].
  by rewrite (H docs eq_refl).
Qed.

(* With the collection in place and the store answering, Search returns *)
(* the flattened answer                                                  *)
Lemma Search_answered w name query k filter results :
  storeAnswers X w name query k filter results →
  (Search X name query k filter w).1 =
    match flattenResults results with
    | Some searchResults => Ok searchResults
    | None => Panic
    end.
Proof.
  intros (Hresp & rs & Hrs & Hsim).
  apply responsive_next in Hresp as [F1 Hresp].
  apply responsive_next in Hresp as [F2 _].
  unfold Search, mbind, M_bind.
  erewrite GetCollection_ok by done.
  erewrite collectionQuery_ok; [| exact F2 | exact Hrs].
  by rewrite Hsim.
Qed.

(* Values the type switch passes over leave the clause as it was *)
Lemma filterClause_unsupported filter :
  forallb (λ kv, negb (supportedFilterValue kv.2)) filter = true →
  ∀ clause, foldl (whereStep X) clause filter = clause.
Proof.
  induction filter as [|[key v] rest IH]; intros H clause; simpl in *;
    [done |].
  apply andb_true_iff in H as [Hv Hrest].
  rewrite IH by done. unfold whereStep. simpl. by destruct v.
Qed.

Lemma queryOpOf_unfiltered query k filter :
  filterClause X filter = None →
  queryOpOf (searchQueryOptions X query k filter) = mkQueryOp [query] k None.
Proof.
  intros H. unfold searchQueryOptions.
  destruct (0 <? length filter)%nat; [| done].
  unfold queryOpOf. rewrite foldl_app. simpl. by rewrite H.
Qed.

(* Of the entries with a supported value the last one visited wins *)
Lemma filterClause_last filter key v :
  supportedFilterValue v = true →
  filterClause X (filter ++ [(key, v)]) = whereStep X None (key, v).
Proof.
  intros Hv. unfold filterClause. rewrite foldl_app. simpl.
  unfold whereStep. simpl. by destruct v.
Qed.

(* The query of Search is the only query it logs *)
Lemma Search_queries w name query k filter c op e :
  (CallQuery c op, e) ∈ callsSince w (Search X name query k filter w).2 →
  op = queryOpOf (searchQueryOptions X query k filter).
Proof.
  unfold Search, mbind, M_bind.
  pose proof (GetCollection_calls name w) as H1.
  destruct (GetCollection name w) as [r1 w1]; simpl in H1.
  destruct r1 as [collection|err|]; simpl;
    try (rewrite (callsSince_app _ _ _ H1);
         intros Hin%list_elem_of_singleton; discriminate Hin).
  pose proof (collectionQuery_calls X collection
                (searchQueryOptions X query k filter) w1) as H2.
  destruct (collectionQuery X collection
              (searchQueryOptions X query k filter) w1) as [r2 w2];
    simpl in H2.
  rewrite H1, <- app_assoc in H2.
  destruct r2; simpl; rewrite (callsSince_app _ _ _ H2);
    (intros [Hin | Hin%list_elem_of_singleton]%elem_of_cons;
     [discriminate Hin | by injection Hin as _ <- _]).
Qed.

End SearchFacts.

(** C6: a filter whose values are all of a type other than string, int
    and float64 yields no predicate: the clause stays nil, the query
    built from the options has no where part, Search does exactly what
    it does without a filter, and every query it sends to the store is
    unfiltered. The empty (or nil) filter map is the case of no entries,
    for which no where option is added at all. *)
Theorem Search_unsupported_filter_unfiltered (X : Externals) (w : World)
    (name query : string) (k : Z) (filter : list (string * any)) :
  forallb (λ kv, negb (supportedFilterValue kv.2)) filter = true →
  filterClause X filter = None ∧
  Where (queryOpOf (searchQueryOptions X query k filter)) = None ∧
  Search X name query k filter w = Search X name query k [] w ∧
  (∀ c op e,
     (CallQuery c op, e) ∈ callsSince w (Search X name query k filter w).2 →
     Where op = None) ∧
  searchQueryOptions X query k [] = [WithQueryTexts query; WithNResults k].
Proof.
  intros H.
  assert (filterClause X filter = None) as Hclause
    by (by apply filterClause_unsupported).
  pose proof (queryOpOf_unfiltered X query k filter Hclause) as Hop.
  split; [done |]. split; [by rewrite Hop |]. split; [| split; [| done]].
  - unfold Search, mbind, M_bind, collectionQuery.
    destruct (GetCollection name w) as [[collection|err|] w1]; try done.
    by rewrite Hop.
  - intros c op e Hin. apply Search_queries in Hin. subst op. by rewrite Hop.
Qed.

Lemma Search_unsupported_filter_unfiltered_witness :
  filterClause Demo.X [("draft", ABool true); ("tags", AOther "[]interface {}")]
    = None ∧
  Where (queryOpOf (searchQueryOptions Demo.X "hello" 5
           [("draft", ABool true); ("tags", AOther "[]interface {}")])) = None ∧
  Search Demo.X "docs" "hello" 5
    [("draft", ABool true); ("tags", AOther "[]interface {}")] Demo.withDoc1
    = Search Demo.X "docs" "hello" 5 [] Demo.withDoc1 ∧
  (∀ c op e,
     (CallQuery c op, e) ∈
       callsSince Demo.withDoc1
         (Search Demo.X "docs" "hello" 5
            [("draft", ABool true); ("tags", AOther "[]interface {}")]
            Demo.withDoc1).2 →
     Where op = None) ∧
  searchQueryOptions Demo.X "hello" 5 []
    = [WithQueryTexts "hello"; WithNResults 5].
Proof.
  apply (Search_unsupported_filter_unfiltered Demo.X Demo.withDoc1 "docs"
           "hello" 5 [("draft", ABool true); ("tags", AOther "[]interface {}")]).
  reflexivity.
Defined.

(** C7: when the store answers the query and the first group of its
    response is not empty (ids, documents, metadata and distances being
    parallel arrays), Search returns one SearchResult per document of that
    group, in the group's order, each with the text of its document, its
    id and its distance unchanged; when the first group of documents is
    empty (or there is none), Search returns the empty sequence and no
    error. *)
Theorem Search_flattens_first_group (X : Externals) (w : World)
    (name query : string) (k : Z) (filter : list (string * any))
    (results : QueryResult) :
  storeAnswers X w name query k filter results →
  (∀ docs ids metadatas distances,
     docs ≠ [] →
     firstGroup results docs ids metadatas distances →
     ∃ rs, (Search X name query k filter w).1 = Ok rs ∧
           length rs = length docs ∧
           map Document_ rs = map ContentString docs ∧
           map Distance rs = distances ∧
           map ID rs = ids) ∧
  ((∀ docs, GetDocumentsGroups results !! 0%nat = Some docs → docs = []) →
   (Search X name query k filter w).1 = Ok []).
Proof.
  intros Hans. rewrite (Search_answered X w name query k filter results Hans).
  split.
  - intros docs ids metadatas distances _ Hgroup.
    destruct (flattenResults_group results docs ids metadatas distances Hgroup)
      as (rs & -> & Hids & Hdocs & Hds & _).
    exists rs. repeat split; try done.
    by rewrite <- (length_map Document_), Hdocs, length_map.
  - intros Hempty. by rewrite flattenResults_empty.
Qed.

Lemma Search_flattens_first_group_witness :
  ∃ rs, (Search Demo.X "docs" "first" 5 [] Demo.withDoc1).1 = Ok rs ∧
        length rs = 1%nat ∧
        map Document_ rs = ["first"] ∧
        map Distance rs = [F32 0] ∧
        map ID rs = ["doc-1"].
Proof.
  assert (storeAnswers Demo.X Demo.withDoc1 "docs" "first" 5 []
            (mkQueryResult [["doc-1"]] [[TextDocument "first"]]
               [[Some ∅]] [[F32 0]])) as Hans.
  { split; [reflexivity |]. eexists. split; reflexivity. }
  destruct (Search_flattens_first_group Demo.X Demo.withDoc1 "docs" "first" 5
              [] _ Hans) as [Hgroup _].
  apply (Hgroup [TextDocument "first"] ["doc-1"] [Some ∅] [F32 0]);
    [discriminate | repeat split; reflexivity].
Defined.

(** C8, as the claim states it, fails: after "hello world" was ingested,
    a search returns its chunk; the stored record holds file_md5 (and
    file_name, timestamp), the metadata map of the result holds none of
    them. *)
Lemma Search_metadata_not_the_record :
  ∃ r stored,
    (Search Demo.X "docs" "hello" 5 [] Demo.withHello).1 = Ok [r] ∧
    recordsOf "docs" Demo.withHello = [stored] ∧
    ID r = rec_id stored ∧
    rec_meta stored !! "file_md5" = Some (MString "68656c6c6f20776f726c64") ∧
    Metadata r !! "file_md5" = None ∧
    ¬ carriesRecord r (rec_meta stored).
Proof.
  eexists. eexists.
  split; [vm_compute; reflexivity |].
  split; [vm_compute; reflexivity |].
  split; [reflexivity |].
  split; [reflexivity |].
  split; [reflexivity |].
  intros H.
  specialize (H "file_md5" (MString "68656c6c6f20776f726c64") eq_refl).
  discriminate H.
Qed.

(** C8 (amended): each SearchResult's metadata map is made by Search
    from the result itself: when the metadata array of the first group
    has a non-nil entry at the result's index, the map holds the result's
    id, document and distance under the keys id, document and distance;
    otherwise it is empty. The attributes of the stored record are not
    copied into it. *)
Theorem Search_metadata_synthesized (X : Externals) (w : World)
    (name query : string) (k : Z) (filter : list (string * any))
    (results : QueryResult) (docs : list Document) (ids : list string)
    (metadatas : list (option DocumentMetadata)) (distances : list float32) :
  storeAnswers X w name query k filter results →
  firstGroup results docs ids metadatas distances →
  ∃ rs, (Search X name query k filter w).1 = Ok rs ∧
        length rs = length docs ∧
        ∀ i r doc, rs !! i = Some r → docs !! i = Some doc →
          Metadata r =
            match metadatas !! i with
            | Some (Some _) => synthesizedMetadata (ID r) doc (Distance r)
            | _ => ∅
            end.
Proof.
  intros Hans Hgroup.
  rewrite (Search_answered X w name query k filter results Hans).
  destruct (flattenResults_group results docs ids metadatas distances Hgroup)
    as (rs & -> & _ & Hdocs & _ & Hms).
  exists rs. split; [done |]. split.
  - by rewrite <- (length_map Document_), Hdocs, length_map.
  - intros i r doc Hr Hdoc. apply (Hms i r doc Hr Hdoc).
Qed.

Lemma Search_metadata_synthesized_witness :
  ∃ rs, (Search Demo.X "docs" "first" 5 [] Demo.withDoc1).1 = Ok rs ∧
        length rs = 1%nat ∧
        ∀ i r doc, rs !! i = Some r → [TextDocument "first"] !! i = Some doc →
          Metadata r =
            match [Some (∅ : DocumentMetadata)] !! i with
            | Some (Some _) => synthesizedMetadata (ID r) doc (Distance r)
            | _ => ∅
            end.
Proof.
  apply (Search_metadata_synthesized Demo.X Demo.withDoc1 "docs" "first" 5 []
           (mkQueryResult [["doc-1"]] [[TextDocument "first"]]
              [[Some ∅]] [[F32 0]])
           [TextDocument "first"] ["doc-1"] [Some ∅] [F32 0]).
  - split; [reflexivity |]. eexists. split; reflexivity.
  - repeat split; reflexivity.
Defined.

(* --------------------------------------------------------------------- *)
(* CreateDocDirect                                                       *)
(* --------------------------------------------------------------------- *)

(** C9: CreateDocDirect called with a text, an explicit id and a store
    that answers, on a collection that holds a record under that id,
    returns the conflict error, and the collections are left as they
    were: no record is added or replaced. *)
Theorem CreateDocDirect_conflict (X : Externals) (w : World)
    (name id text : string) (metadata : gmap string any) :
  text ≠ "" →
  id ≠ "" →
  responsive 2 (faults w) = true →
  holdsId X name id w = true →
  (CreateDocDirect X name id text metadata w).1
    = Err (ErrNew "conflict: id already exists") ∧
  collections (CreateDocDirect X name id text metadata w).2 = collections w.
Proof.
  intros Htext Hid Hresp Hheld.
  apply responsive_next in Hresp as [F1 Hresp].
  apply responsive_next in Hresp as [F2 _].
  apply String.eqb_neq in Htext, Hid.
  unfold CreateDocDirect, mbind, M_bind. rewrite Htext, Hid. simpl.
  rewrite GetOrCreateCollection_ok by done.
  erewrite collectionGet_ok;
    [| exact F2 | simpl; apply lookup_insert_eq].
  unfold holdsId in Hheld. apply filter_existsb_true in Hheld.
  unfold asGetResult. simpl. rewrite length_map.
  rewrite nonempty_length_pos by done. simpl.
  split; [done |].
  unfold recordsOf in *.
  destruct (collections w !! name) as [rs|] eqn:E; simpl in *; [| done].
  by apply insert_id.
Qed.

Lemma CreateDocDirect_conflict_witness :
  (CreateDocDirect Demo.X "docs" "doc-1" "second" ∅ Demo.withDoc1).1
    = Err (ErrNew "conflict: id already exists") ∧
  collections (CreateDocDirect Demo.X "docs" "doc-1" "second" ∅
                 Demo.withDoc1).2
    = collections Demo.withDoc1.
Proof.
  apply (CreateDocDirect_conflict Demo.X Demo.withDoc1 "docs" "doc-1"
           "second" ∅); [discriminate | discriminate | reflexivity | reflexivity].
Defined.

(* --------------------------------------------------------------------- *)
(* Errors of the store                                                   *)
(* --------------------------------------------------------------------- *)

Section ErrorFacts.
Context (X : Externals).

Lemma errorsIs_refl e : errorsIs e e.
Proof. destruct e; simpl; by left. Qed.

Lemma propagated_same {A} e : propagated (A := A) (Err e) e.
Proof. exists e. split; [done | apply errorsIs_refl]. Qed.

Lemma propagated_wrapped {A} msg e : propagated (A := A) (Err (ErrWrap msg e)) e.
Proof.
  exists (ErrWrap msg e). split; [done |]. simpl. right. apply errorsIs_refl.
Qed.

(* Which of the logged calls is the failed one *)
Ltac failed_call Hin :=
  repeat (apply elem_of_cons in Hin as [Hin | Hin];
          [try discriminate Hin; try (injection Hin as _ <-) |]);
  try (by apply elem_of_nil in Hin).

Lemma IngestFile_propagates w name fp content um c e :
  (c, Some e) ∈ callsSince w (IngestFile X name fp content um w).2 →
  propagated (IngestFile X name fp content um w).1 e.
Proof.
  unfold IngestFile, mbind, M_bind.
  pose proof (GetOrCreateCollection_calls name w) as H1.
  destruct (GetOrCreateCollection name w) as [[collection|err1|] w1];
    simpl in H1 |- *;
    try (rewrite (callsSince_app _ _ _ H1); intros Hin; failed_call Hin;
         apply propagated_wrapped).
  match goal with
  | |- context [collectionGet X collection ?opt w1] =>
      pose proof (collectionGet_calls X collection opt w1) as H2;
      destruct (collectionGet X collection opt w1) as [[results|err2|] w2]
  end; simpl in H2 |- *; rewrite H1, <- app_assoc in H2;
    try (rewrite (callsSince_app _ _ _ H2); intros Hin; failed_call Hin;
         apply propagated_same).
  destruct (0 <? length (GetDocuments results))%nat; simpl.
  { rewrite (callsSince_app _ _ _ H2). intros Hin. failed_call Hin. }
  match goal with
  | |- context [idsAndMetadatas X fp ?h um 0 ?chunks w2] =>
      pose proof (idsAndMetadatas_frame X fp h um chunks 0 w2)
        as (_ & _ & Hl & _);
      destruct (idsAndMetadatas X fp h um 0 chunks w2) as [[ids ms] w3]
  end; simpl in Hl |- *.
  match goal with
  | |- context [collectionAdd collection ids ?texts ?metas w3] =>
      pose proof (collectionAdd_calls collection ids texts metas w3) as H3;
      destruct (collectionAdd collection ids texts metas w3)
        as [[u|err3|] w4]
  end; simpl in H3 |- *; rewrite Hl, H2, <- app_assoc in H3;
    rewrite (callsSince_app _ _ _ H3); intros Hin; failed_call Hin;
    apply propagated_same.
Qed.

Lemma Search_propagates w name query k filter c e :
  (c, Some e) ∈ callsSince w (Search X name query k filter w).2 →
  propagated (Search X name query k filter w).1 e.
Proof.
  unfold Search, mbind, M_bind.
  pose proof (GetCollection_calls name w) as H1.
  destruct (GetCollection name w) as [[collection|err1|] w1];
    simpl in H1 |- *;
    try (rewrite (callsSince_app _ _ _ H1); intros Hin; failed_call Hin;
         apply propagated_wrapped).
  match goal with
  | |- context [collectionQuery X collection ?opts w1] =>
      pose proof (collectionQuery_calls X collection opts w1) as H2;
      destruct (collectionQuery X collection opts w1) as [[results|err2|] w2]
  end; simpl in H2 |- *; rewrite H1, <- app_assoc in H2;
    rewrite (callsSince_app _ _ _ H2); intros Hin; failed_call Hin;
    apply propagated_same.
Qed.

(* In CreateDocDirect the errors of collection resolution and of the    *)
(* insert come back to the caller; the error of the id lookup does not  *)
Lemma CreateDocDirect_propagates w name id text metadata c e :
  (c, Some e) ∈ callsSince w (CreateDocDirect X name id text metadata w).2 →
  (∀ collection opt, c ≠ CallGet collection opt) →
  propagated (CreateDocDirect X name id text metadata w).1 e.
Proof.
  unfold CreateDocDirect, mbind, M_bind.
  destruct (String.eqb text "").
  { simpl. unfold callsSince. rewrite drop_all. by intros ?%elem_of_nil. }
  pose proof (GetOrCreateCollection_calls name w) as H1.
  destruct (GetOrCreateCollection name w) as [[collection|err1|] w1];
    simpl in H1 |- *;
    try (rewrite (callsSince_app _ _ _ H1); intros Hin _; failed_call Hin;
         apply propagated_wrapped).
  destruct (negb (String.eqb id "")); simpl.
  - match goal with
    | |- context [collectionGet X collection ?opt w1] =>
        pose proof (collectionGet_calls X collection opt w1) as H2;
        destruct (collectionGet X collection opt w1) as [got w2]
    end; simpl in H2 |- *; rewrite H1, <- app_assoc in H2.
    match goal with
    | |- context [if ?b then _ else _] => destruct b
    end; simpl.
    { rewrite (callsSince_app _ _ _ H2). intros Hin Hc.
      apply elem_of_cons in Hin as [Hin | Hin]; [discriminate Hin |].
      apply list_elem_of_singleton in Hin. injection Hin as -> _.
      by destruct (Hc collection (WithIDsGet [id])). }
    match goal with
    | |- context [collectionAdd collection ?ids ?texts ?metas w2] =>
        pose proof (collectionAdd_calls collection ids texts metas w2) as H3;
        destruct (collectionAdd collection ids texts metas w2)
          as [[u|err3|] w3]
    end; simpl in H3 |- *; rewrite H2, <- app_assoc in H3;
      rewrite (callsSince_app _ _ _ H3); intros Hin Hc;
      (apply elem_of_cons in Hin as [Hin | Hin]; [discriminate Hin |]);
      (apply elem_of_cons in Hin as [Hin | Hin];
       [injection Hin as -> _; by destruct (Hc collection (WithIDsGet [id])) |]);
      failed_call Hin; apply propagated_wrapped.
  - match goal with
    | |- context [collectionAdd collection ?ids ?texts ?metas w1] =>
        pose proof (collectionAdd_calls collection ids texts metas w1) as H3;
        destruct (collectionAdd collection ids texts metas w1)
          as [[u|err3|] w3]
    end; simpl in H3 |- *; rewrite H1, <- app_assoc in H3;
      rewrite (callsSince_app _ _ _ H3); intros Hin _; failed_call Hin;
      apply propagated_wrapped.
Qed.

End ErrorFacts.

(** C10, as the claim states it, fails for CreateDocDirect: the store
    answers the collection resolution and fails the id lookup; the
    lookup's error is dropped, the insert goes ahead, and the caller gets
    the id and no error. *)
Lemma CreateDocDirect_drops_lookup_error :
  (CallGet "docs" (WithIDsGet ["doc-2"]), Some Demo.boom)
    ∈ callsSince Demo.lookupFails
        (CreateDocDirect Demo.X "docs" "doc-2" "second" ∅ Demo.lookupFails).2 ∧
  (CreateDocDirect Demo.X "docs" "doc-2" "second" ∅ Demo.lookupFails).1
    = Ok "doc-2" ∧
  ¬ propagated
      (CreateDocDirect Demo.X "docs" "doc-2" "second" ∅ Demo.lookupFails).1
      Demo.boom.
Proof.
  split; [| split].
  - vm_compute. apply elem_of_cons. right. apply elem_of_cons. by left.
  - reflexivity.
  - intros (err & Herr & _). discriminate Herr.
Qed.

(** C10 (amended): every error a store call returns inside IngestFile or
    Search comes back to the caller, as it is or wrapped, and so do in
    CreateDocDirect the errors of the collection resolution and of the
    insert; none of these ends in a successful or skipped result. The
    error of CreateDocDirect's id lookup is the exception: it is dropped
    and the insert is attempted. *)
Theorem store_errors_propagated (X : Externals) (w : World) (c : StoreCall)
    (e : error) :
  (∀ name fp content um,
     (c, Some e) ∈ callsSince w (IngestFile X name fp content um w).2 →
     propagated (IngestFile X name fp content um w).1 e) ∧
  (∀ name query k filter,
     (c, Some e) ∈ callsSince w (Search X name query k filter w).2 →
     propagated (Search X name query k filter w).1 e) ∧
  (∀ name id text metadata,
     (c, Some e) ∈ callsSince w (CreateDocDirect X name id text metadata w).2 →
     (∀ collection opt, c ≠ CallGet collection opt) →
     propagated (CreateDocDirect X name id text metadata w).1 e).
Proof.
  split; [| split].
  - intros. by eapply IngestFile_propagates.
  - intros. by eapply Search_propagates.
  - intros. by eapply CreateDocDirect_propagates.
Qed.

Lemma store_errors_propagated_witness :
  propagated (IngestFile Demo.X "docs" "a.txt" "hello" ∅ Demo.lookupFails).1
    Demo.boom ∧
  propagated (Search Demo.X "docs" "hello" 5 [] Demo.lookupFails).1
    Demo.boom ∧
  propagated
    (CreateDocDirect Demo.X "other" "doc-1" "text" ∅
       (mkWorld ∅ [Some Demo.boom] [] 0 [])).1
    Demo.boom.
Proof.
  split; [| split].
  - apply (proj1 (store_errors_propagated Demo.X Demo.lookupFails
             (CallGet "docs" (WithWhereGet (EqString "file_md5" "68656c6c6f")))
             Demo.boom)).
    vm_compute. apply elem_of_cons. right. apply elem_of_cons. by left.
  - apply (proj1 (proj2 (store_errors_propagated Demo.X Demo.lookupFails
             (CallQuery "docs" (mkQueryOp ["hello"] 5 None)) Demo.boom))).
    vm_compute. apply elem_of_cons. right. apply elem_of_cons. by left.
  - apply (proj2 (proj2 (store_errors_propagated Demo.X
             (mkWorld ∅ [Some Demo.boom] [] 0 [])
             (CallGetOrCreateCollection "other") Demo.boom))).
    + vm_compute. apply elem_of_cons. by left.
    + discriminate.
Defined.

(* ===================================================================== *)
(* Further properties                                                    *)
(* ===================================================================== *)

(* --------------------------------------------------------------------- *)
(* Chunker: the bound                                                    *)
(* --------------------------------------------------------------------- *)

Section ChunkBound.
Context (tokens : string → Z) (maxTokens : Z).

Lemma joinLines_snoc group line :
  joinLines (group ++ [line]) = joinLines group +:+ (line +:+ nl).
Proof. unfold joinLines. rewrite map_app. cbn [map]. apply concat_snoc. Qed.

Lemma joinLines_single line : joinLines [line] = line +:+ nl.
Proof. unfold joinLines. cbn [map]. rewrite concat_cons. apply app_empty_r. Qed.

Lemma sumTokens_single line : sumTokens tokens [line] = tokens line.
Proof. unfold sumTokens. simpl. lia. Qed.

Lemma joinLines_empty group : joinLines group = EmptyString → group = [].
Proof.
  destruct group as [|line rest]; [done |].
  unfold joinLines. simpl. intros H.
  by destruct (app_nl_nonempty EmptyString line); destruct line.
Qed.

Lemma sumTokens_snoc group line :
  sumTokens tokens (group ++ [line]) = sumTokens tokens group + tokens line.
Proof.
  induction group as [|l group IH]; simpl; [lia |].
  unfold sumTokens in *. simpl. rewrite IH. lia.
Qed.

(* The loop keeps the lines in groups: the finished chunks are finished *)
(* groups, the builder is the group being filled                        *)
Lemma chunkLoop_groups lines :
  ∀ groups group,
    Forall (boundedGroup tokens maxTokens) groups →
    group = [] ∨ boundedGroup tokens maxTokens group →
    ∃ groups' group',
      chunkLoop tokens maxTokens lines (map joinLines groups)
        (joinLines group) (sumTokens tokens group)
      = (map joinLines groups', joinLines group') ∧
      mjoin groups' ++ group' = mjoin groups ++ group ++ lines ∧
      Forall (boundedGroup tokens maxTokens) groups' ∧
      (group' = [] ∨ boundedGroup tokens maxTokens group').
Proof.
  induction lines as [|line rest IH]; intros groups group Hgroups Hgroup.
  - exists groups, group. by rewrite app_nil_r.
  - simpl.
    destruct (maxTokens <? sumTokens tokens group + tokens line) eqn:Hover;
      simpl.
    + destruct (0 <? String.length (joinLines group))%nat eqn:Hlen; simpl.
      * assert (group ≠ []) as Hne.
        { intros ->. discriminate Hlen. }
        destruct Hgroup as [-> | Hgroup]; [done |].
        destruct (IH (groups ++ [group]) [line]) as (gs & g & Hrun & Hcat & Hok);
          [by apply Forall_app; split; [| constructor]
          | right; split; [done | by right] |].
        exists gs, g. split; [| split; [| done]].
        -- rewrite map_app, joinLines_single, sumTokens_single in Hrun.
           by rewrite app_nil_l, Z.add_0_l.
        -- rewrite Hcat, join_app. simpl. by rewrite app_nil_r, <- !app_assoc.
      * apply length_zero_empty in Hlen. apply joinLines_empty in Hlen.
        subst group.
        destruct (IH groups [line]) as (gs & g & Hrun & Hcat & Hok);
          [done | right; split; [done | by right] |].
        exists gs, g. split; [| split; [| done]].
        -- by rewrite joinLines_single, sumTokens_single in Hrun.
        -- by rewrite Hcat.
    + apply Z.ltb_ge in Hover.
      destruct (IH groups (group ++ [line])) as (gs & g & Hrun & Hcat & Hok);
        [done
        | right; split;
          [by destruct group | left; rewrite sumTokens_snoc; lia] |].
      exists gs, g. split; [| split; [| done]].
      * by rewrite joinLines_snoc, sumTokens_snoc in Hrun.
      * by rewrite Hcat, <- !app_assoc.
Qed.

Lemma sumTokens_nonneg group :
  (∀ line, 0 ≤ tokens line) → 0 ≤ sumTokens tokens group.
Proof.
  intros Hpos. induction group as [|line rest IH]; unfold sumTokens in *;
    simpl; [lia |]. specialize (Hpos line). lia.
Qed.

(* Lines that fit together with what the builder holds are only added *)
Lemma chunkLoop_no_flush lines :
  (∀ line, 0 ≤ tokens line) →
  ∀ chunks currentChunk tokenCount,
    tokenCount + sumTokens tokens lines ≤ maxTokens →
    chunkLoop tokens maxTokens lines chunks currentChunk tokenCount
    = (chunks, currentChunk +:+ joinLines lines).
Proof.
  intros Hpos. induction lines as [|line rest IH]; intros chunks cur tc Hfit.
  - simpl. by rewrite app_empty_r.
  - pose proof (sumTokens_nonneg rest Hpos) as Hrest.
    change (sumTokens tokens (line :: rest))
      with (tokens line + sumTokens tokens rest) in Hfit.
    simpl.
    assert ((maxTokens <? tc + tokens line) = false) as ->
      by (apply Z.ltb_ge; lia).
    simpl. rewrite IH by lia.
    change (joinLines (line :: rest))
      with ((line +:+ nl) +:+ joinLines rest).
    by rewrite !app_assoc_str.
Qed.

End ChunkBound.

Lemma lenFields_nonneg (line : string) : 0 ≤ lenFields line.
Proof. unfold lenFields. lia. Qed.

(** X1: the bound of chunkText is soft. The chunks are the lines of the
    text in order, cut into groups, each chunk being the lines of its
    group written with their newlines; every group has at least one line,
    and a group of more than one line has at most maxTokens tokens
    (counted line by line). A chunk over the bound is always a single
    line. *)
Theorem chunkText_bounded (text : string) (maxTokens : Z) :
  ∃ groups,
    mjoin groups = Split text ∧
    chunkText text maxTokens = map joinLines groups ∧
    Forall (boundedGroup lenFields maxTokens) groups.
Proof.
  destruct (chunkLoop_groups lenFields maxTokens (Split text) [] [])
    as (gs & g & Hrun & Hcat & Hgs & Hg); [done | by left |].
  simpl in Hcat.
  unfold chunkText.
  change (chunkLoop lenFields maxTokens (Split text) [] EmptyString 0)
    with (chunkLoop lenFields maxTokens (Split text) (map joinLines [])
            (joinLines []) (sumTokens lenFields [])).
  rewrite Hrun.
  destruct (0 <? String.length (joinLines g))%nat eqn:Hlen.
  - destruct Hg as [-> | Hg]; [discriminate Hlen |].
    exists (gs ++ [g]). split; [| split].
    + rewrite join_app. simpl. by rewrite app_nil_r.
    + by rewrite map_app.
    + apply Forall_app. split; [done | by constructor].
  - apply length_zero_empty, joinLines_empty in Hlen. subst g.
    exists gs. rewrite app_nil_r in Hcat. done.
Qed.

(** X2: a text whose lines hold at most maxTokens tokens in all is one
    chunk, the text followed by a newline. *)
Theorem chunkText_single_chunk (text : string) (maxTokens : Z) :
  sumTokens lenFields (Split text) ≤ maxTokens →
  chunkText text maxTokens = [text +:+ nl].
Proof.
  intros Hfit. unfold chunkText.
  rewrite (chunkLoop_no_flush lenFields maxTokens (Split text)
             lenFields_nonneg [] EmptyString 0) by lia.
  rewrite app_nil_l. unfold joinLines. rewrite concat_Split.
  by destruct text.
Qed.

Lemma chunkText_single_chunk_witness :
  chunkText "to be or not to be
that is the question" 512
  = ["to be or not to be
that is the question" +:+ nl].
Proof.
  apply (chunkText_single_chunk "to be or not to be
that is the question" 512).
  vm_compute. discriminate.
Defined.

(* --------------------------------------------------------------------- *)
(* IngestFile: what is stored                                            *)
(* --------------------------------------------------------------------- *)

Lemma chunkText_joined (text : string) (maxTokens : Z) :
  concat (chunkText text maxTokens) = joinLines (Split text).
Proof.
  unfold chunkText, joinLines.
  pose proof (chunkLoop_concat lenFields maxTokens (Split text)
                [] EmptyString 0) as H.
  destruct (chunkLoop lenFields maxTokens (Split text) [] EmptyString 0)
    as [chunks cur]; simpl in H.
  rewrite app_nil_l in H. rewrite <- H.
  destruct (0 <? String.length cur)%nat eqn:E.
  - by rewrite concat_snoc.
  - apply length_zero_empty in E. subst cur. by rewrite app_empty_r.
Qed.

Section IngestMore.
Context (X : Externals).

Lemma zipRecords_texts ids texts metas :
  length ids = length texts → length metas = length texts →
  map (λ r, ContentString (rec_doc r)) (zipRecords ids texts metas) = texts.
Proof.
  revert ids metas.
  induction texts as [|t texts IH]; intros [|i ids] [|m metas]; simpl;
    try done.
  intros [= H1] [= H2]. by rewrite IH.
Qed.

(* Every composed map is the system map of some reading and index with  *)
(* the user entries merged in                                            *)
Lemma idsAndMetadatas_shape fp h um chunks :
  ∀ i w,
    Forall (λ m, ∃ t j, m = mergeUser um (systemMetadata h fp t j))
      (idsAndMetadatas X fp h um i chunks w).1.2.
Proof.
  induction chunks as [|chunk rest IH]; intros i w; [by constructor |].
  simpl. unfold mbind, M_bind, timeNowUnix. simpl.
  match goal with
  | |- context [idsAndMetadatas X fp h um (S i) rest ?w1] =>
      specialize (IH (S i) w1);
      destruct (idsAndMetadatas X fp h um (S i) rest w1) as [[ids ms] w2]
  end; simpl in *.
  constructor; [eauto | done].
Qed.

(* A key of the merged map is a key of the map merged into, or a user   *)
(* key under its prefix                                                  *)
Lemma mergeUser_keys (um m : gmap string any) key a :
  mergeUser um m !! key = Some a →
  m !! key = Some a ∨ ∃ k, key = "user_" +:+ k ∧ um !! k = Some a.
Proof.
  unfold mergeUser. revert key a.
  apply (map_fold_weak_ind
           (λ r um', ∀ key a, r !! key = Some a →
              m !! key = Some a ∨
              ∃ k, key = "user_" +:+ k ∧ um' !! k = Some a)).
  - intros key a H. by left.
  - intros i x um' r Hi IH key a H.
    destruct (decide ("user_" +:+ i = key)) as [<- | Hne].
    + rewrite lookup_insert_eq in H. injection H as ->.
      right. exists i. by rewrite lookup_insert_eq.
    + rewrite lookup_insert_ne in H by done.
      destruct (IH key a H) as [Hm | (k & -> & Hk)]; [by left |].
      right. exists k. split; [done |].
      rewrite lookup_insert_ne; [done |]. by intros ->.
Qed.

(* Every user entry is in the merged map under its prefixed key *)
Lemma mergeUser_user (um m : gmap string any) k a :
  um !! k = Some a → mergeUser um m !! ("user_" +:+ k) = Some a.
Proof.
  unfold mergeUser. revert k a.
  apply (map_fold_weak_ind
           (λ r um', ∀ k a, um' !! k = Some a →
              r !! ("user_" +:+ k) = Some a)).
  - intros k a H. by rewrite lookup_empty in H.
  - intros i x um' r Hi IH k a H.
    destruct (decide (i = k)) as [-> | Hne].
    + rewrite lookup_insert_eq in H. injection H as ->.
      by rewrite lookup_insert_eq.
    + rewrite lookup_insert_ne in H by done.
      rewrite lookup_insert_ne; [by apply IH |].
      intros Heq. by apply (inj (String.app "user_")) in Heq.
Qed.

Lemma systemMetadata_keys h fp t i key a :
  systemMetadata h fp t i !! key = Some a →
  key ∈ ["file_md5"; "file_name"; "timestamp"; "chunk_index"].
Proof.
  unfold systemMetadata. intros H.
  repeat (rewrite lookup_insert in H; case_decide;
          [subst; by repeat constructor |]).
  by rewrite lookup_empty in H.
Qed.

(* After a fresh ingestion the collection holds the content and the     *)
(* store has answered three calls                                        *)
Lemma IngestFile_then_held w name fp content um :
  responsive 3 (faults w) = true →
  holdsContent X name content w = false →
  holdsContent X name content (IngestFile X name fp content um w).2 = true ∧
  faults (IngestFile X name fp content um w).2 = drop 3 (faults w).
Proof.
  intros Hresp Hfresh.
  destruct (IngestFile_ingests X w name fp content um Hresp Hfresh)
    as (_ & _ & Hf).
  destruct (IngestFile_added X w name fp content um Hresp Hfresh)
    as (Hrec & _ & Hlen & Hkeys).
  split; [| exact Hf].
  unfold holdsContent. rewrite Hrec, existsb_app.
  apply orb_true_iff. right. apply existsb_all.
  - intros Hnil. rewrite Hnil in Hlen. simpl in Hlen.
    pose proof (chunkText_nonempty content 512).
    by destruct (chunkText content 512).
  - eapply Forall_impl; [exact Hkeys |].
    intros r (Hmd5 & _). by apply selects_md5.
Qed.

End IngestMore.

(** X3: what a fresh ingestion stores is the file. With a store that
    answers and a content not held before, the texts of the records that
    IngestFile adds are the chunks of the content in order, their number
    is the chunk count of the result, and joined they are the content
    followed by one newline. *)
Theorem IngestFile_stores_the_text (X : Externals) (w : World)
    (name fp content : string) (um : gmap string any) :
  responsive 3 (faults w) = true →
  holdsContent X name content w = false →
  let run := IngestFile X name fp content um w in
  let texts :=
    map (λ r, ContentString (rec_doc r)) (addedRecords name w run.2) in
  texts = chunkText content 512 ∧
  run.1 = Ok (mkIngestResult "ingested" fp (Z.of_nat (length texts))) ∧
  concat texts = content +:+ nl.
Proof.
  intros Hresp Hfresh run texts.
  destruct (IngestFile_ingests X w name fp content um Hresp Hfresh)
    as (Hr & _ & _).
  destruct (IngestFile_added X w name fp content um Hresp Hfresh)
    as (_ & Hadd & _ & _).
  pose proof (idsAndMetadatas_frame X fp (hex (md5_Sum X content)) um
                (chunkText content 512) 0
                (atLoop name (hex (md5_Sum X content)) w))
    as (_ & _ & _ & Hl1 & Hl2).
  assert (texts = chunkText content 512) as Htexts.
  { subst texts run. rewrite Hadd.
    apply zipRecords_texts; [done | by rewrite length_map]. }
  split; [done |]. rewrite Htexts. split; [exact Hr |].
  rewrite chunkText_joined. apply concat_Split.
Qed.

Lemma IngestFile_stores_the_text_witness :
  let run := IngestFile Demo.X "docs" "a.txt" Demo.manyLines ∅ Demo.empty in
  let texts :=
    map (λ r, ContentString (rec_doc r))
      (addedRecords "docs" Demo.empty run.2) in
  texts = chunkText Demo.manyLines 512 ∧
  run.1 = Ok (mkIngestResult "ingested" "a.txt" (Z.of_nat (length texts))) ∧
  concat texts = Demo.manyLines +:+ nl.
Proof.
  apply (IngestFile_stores_the_text Demo.X Demo.empty "docs" "a.txt"
           Demo.manyLines ∅); reflexivity.
Defined.

(** X4: the keys of the stored metadata are namespaced. Every key of a
    record that IngestFile adds is file_md5, file_name or timestamp, or
    is "user_" followed by a key of the user metadata whose value is a
    string, an int64 or a float64, stored with that value; and every
    such user entry is stored under its prefixed key. A user key can
    therefore not stand in for a system key. *)
Theorem IngestFile_metadata_namespaced (X : Externals) (w : World)
    (name fp content : string) (um : gmap string any) :
  responsive 3 (faults w) = true →
  holdsContent X name content w = false →
  Forall (λ r,
    (∀ key v, rec_meta r !! key = Some v →
       key ∈ ["file_md5"; "file_name"; "timestamp"] ∨
       ∃ k a, key = "user_" +:+ k ∧ um !! k = Some a ∧
              ingestAttribute a = Some v) ∧
    (∀ k a v, um !! k = Some a → ingestAttribute a = Some v →
       rec_meta r !! ("user_" +:+ k) = Some v))
    (addedRecords name w (IngestFile X name fp content um w).2).
Proof.
  intros Hresp Hfresh.
  destruct (IngestFile_added X w name fp content um Hresp Hfresh)
    as (_ & -> & _ & _).
  apply (zipRecords_meta (λ m,
           (∀ key v, m !! key = Some v →
              key ∈ ["file_md5"; "file_name"; "timestamp"] ∨
              ∃ k a, key = "user_" +:+ k ∧ um !! k = Some a ∧
                     ingestAttribute a = Some v) ∧
           (∀ k a v, um !! k = Some a → ingestAttribute a = Some v →
              m !! ("user_" +:+ k) = Some v))).
  apply Forall_map.
  eapply Forall_impl; [apply idsAndMetadatas_shape |].
  intros m (t & j & ->). unfold toDocumentMetadata. split.
  - intros key v Hv. rewrite lookup_omap in Hv.
    destruct (mergeUser um (systemMetadata (hex (md5_Sum X content)) fp t j)
                !! key) as [a|] eqn:Ha; [| done].
    simpl in Hv.
    apply mergeUser_keys in Ha as [Hsys | (k & -> & Hk)].
    + left. pose proof (systemMetadata_keys _ _ _ _ _ _ Hsys) as Hkey.
      apply elem_of_cons in Hkey as [-> | Hkey]; [by repeat constructor |].
      apply elem_of_cons in Hkey as [-> | Hkey]; [by repeat constructor |].
      apply elem_of_cons in Hkey as [-> | Hkey]; [by repeat constructor |].
      apply list_elem_of_singleton in Hkey as ->.
      rewrite systemMetadata_index in Hsys. injection Hsys as <-.
      discriminate Hv.
    + right. eauto.
  - intros k a v Hk Hv. rewrite lookup_omap.
    by rewrite (mergeUser_user um _ k a Hk).
Qed.

Lemma IngestFile_metadata_namespaced_witness :
  Forall (λ r,
    (∀ key v, rec_meta r !! key = Some v →
       key ∈ ["file_md5"; "file_name"; "timestamp"] ∨
       ∃ k a, key = "user_" +:+ k ∧
              ({[ "file_md5" := AString "mine"; "draft" := ABool true ]}
                 : gmap string any) !! k = Some a ∧
              ingestAttribute a = Some v) ∧
    (∀ k a v,
       ({[ "file_md5" := AString "mine"; "draft" := ABool true ]}
          : gmap string any) !! k = Some a →
       ingestAttribute a = Some v →
       rec_meta r !! ("user_" +:+ k) = Some v))
    (addedRecords "docs" Demo.empty
       (IngestFile Demo.X "docs" "a.txt" "hello world"
          {[ "file_md5" := AString "mine"; "draft" := ABool true ]}
          Demo.empty).2).
Proof.
  apply (IngestFile_metadata_namespaced Demo.X Demo.empty "docs" "a.txt"
           "hello world"
           {[ "file_md5" := AString "mine"; "draft" := ABool true ]});
    reflexivity.
Defined.

(* The same at one input: the user's file_md5 is stored beside the      *)
(* system's, the bool is dropped                                         *)
Example IngestFile_user_metadata_stored :
  map (λ r, map_to_list (rec_meta r))
    (addedRecords "docs" Demo.empty
       (IngestFile Demo.X "docs" "a.txt" "hello world"
          {[ "file_md5" := AString "mine"; "draft" := ABool true ]}
          Demo.empty).2)
  = [[("user_file_md5", MString "mine");
      ("file_md5", MString "68656c6c6f20776f726c64");
      ("file_name", MString "a.txt");
      ("timestamp", MInt 1700000000)]].
Proof. vm_compute. reflexivity. Qed.

(** X5: the dedupe of IngestFile is per collection. After a content was
    ingested into one collection, ingesting the same bytes into another
    collection that does not hold them is not skipped: it returns
    ingested. *)
Theorem IngestFile_dedupe_per_collection (X : Externals) (w : World)
    (name other fp fp' content : string) (um um' : gmap string any) :
  name ≠ other →
  responsive 6 (faults w) = true →
  holdsContent X name content w = false →
  holdsContent X other content w = false →
  let first := IngestFile X name fp content um w in
  let second := IngestFile X other fp' content um' first.2 in
  first.1 = Ok (mkIngestResult "ingested" fp
                  (Z.of_nat (length (chunkText content 512)))) ∧
  second.1 = Ok (mkIngestResult "ingested" fp'
                   (Z.of_nat (length (chunkText content 512)))).
Proof.
  intros Hne Hresp Hname Hother first second.
  assert (responsive 3 (faults w) = true) as Hresp3.
  { destruct (faults w) as [|[?|] [|[?|] [|[?|] ?]]]; done. }
  destruct (IngestFile_ingests X w name fp content um Hresp3 Hname)
    as (Hr & Hc & Hf).
  fold first in Hr, Hc, Hf.
  split; [exact Hr |].
  apply IngestFile_ingests.
  - rewrite Hf. by apply (responsive_drop 3 3).
  - unfold holdsContent, recordsOf in *.
    by rewrite Hc, lookup_insert_ne.
Qed.

Lemma IngestFile_dedupe_per_collection_witness :
  let first := IngestFile Demo.X "docs" "a.txt" "hello world" ∅ Demo.empty in
  let second := IngestFile Demo.X "notes" "a.txt" "hello world" ∅ first.2 in
  first.1 = Ok (mkIngestResult "ingested" "a.txt" 1) ∧
  second.1 = Ok (mkIngestResult "ingested" "a.txt" 1).
Proof.
  apply (IngestFile_dedupe_per_collection Demo.X Demo.empty "docs" "notes"
           "a.txt" "a.txt" "hello world" ∅ ∅);
    [discriminate | reflexivity | reflexivity | reflexivity].
Defined.

(* --------------------------------------------------------------------- *)
(* What the store calls do to the records, whatever fails                *)
(* --------------------------------------------------------------------- *)

Section Effects.
Context (X : Externals).

Lemma recordsOf_logCall n c e w : recordsOf n (logCall c e w) = recordsOf n w.
Proof. reflexivity. Qed.

Lemma GetOrCreateCollection_effect name w :
  (∀ n, recordsOf n (GetOrCreateCollection name w).2 = recordsOf n w) ∧
  (GetOrCreateCollection name w).1 ≠ Panic ∧
  (∀ c, (GetOrCreateCollection name w).1 = Ok c → c = name).
Proof.
  unfold GetOrCreateCollection, storeCall.
  destruct (faults w) as [|[e|] fs]; simpl;
    try (destruct (collections w !! name) as [rs|] eqn:E; simpl);
    (split; [| split; [done | by intros c [= <-]]]);
    intros n; unfold recordsOf; simpl; try done;
    (destruct (decide (name = n)) as [<- | Hne];
      [by rewrite lookup_insert_eq, E | by rewrite lookup_insert_ne]).
Qed.

Lemma collectionGet_effect c opt w :
  collections (collectionGet X c opt w).2 = collections w ∧
  (collectionGet X c opt w).1 ≠ Panic.
Proof.
  unfold collectionGet, storeCall.
  destruct (faults w) as [|[e|] fs]; simpl;
    try (destruct (collections w !! c) as [rs|]; simpl); done.
Qed.

Lemma collectionAdd_effect c ids texts metas w :
  ((collectionAdd c ids texts metas w).1 = Ok tt ∧
   ∃ rs, collections w !! c = Some rs ∧
         collections (collectionAdd c ids texts metas w).2
           = <[c := rs ++ zipRecords ids texts metas]> (collections w)) ∨
  (∃ e, (collectionAdd c ids texts metas w).1 = Err e ∧
        collections (collectionAdd c ids texts metas w).2 = collections w).
Proof.
  unfold collectionAdd, storeCall.
  destruct (faults w) as [|[e|] fs]; simpl;
    try (destruct (collections w !! c) as [rs|] eqn:E; simpl);
    first [by left; split; [| exists rs] | by right; eexists].
Qed.

(* After a successful insert the collection has grown at its end *)
Lemma insert_app_records (m : gmap string (list StoredRecord)) c rs more n :
  m !! c = Some rs →
  default [] (<[c := rs ++ more]> m !! n)
  = default [] (m !! n) ++ (if decide (n = c) then more else []).
Proof.
  intros Hc. destruct (decide (n = c)) as [-> | Hne].
  - by rewrite lookup_insert_eq, Hc.
  - rewrite lookup_insert_ne by done. by rewrite app_nil_r.
Qed.

End Effects.

(** X6: IngestFile only ever appends, and only to its collection.
    Whatever the store does (any plan of failures), after IngestFile the
    records of every other collection are as before, the records of the
    target collection are the old ones followed by what was added, and
    something was added only when the result is ingested: a skipped or
    failed call stores nothing. A failed store call is taken to change
    nothing in the store. *)
Theorem IngestFile_only_appends (X : Externals) (w : World)
    (name fp content : string) (um : gmap string any) :
  let run := IngestFile X name fp content um w in
  (∀ n, n ≠ name → recordsOf n run.2 = recordsOf n w) ∧
  recordsOf name run.2 = recordsOf name w ++ addedRecords name w run.2 ∧
  (addedRecords name w run.2 = [] ∨
   run.1 = Ok (mkIngestResult "ingested" fp
                 (Z.of_nat (length (chunkText content 512))))).
Proof.
  intros run.
  assert (∃ added,
            (∀ n, recordsOf n run.2
                  = recordsOf n w ++ (if decide (n = name) then added else []))
            ∧ (added = [] ∨
               run.1 = Ok (mkIngestResult "ingested" fp
                             (Z.of_nat (length (chunkText content 512))))))
    as (added & Hrec & Hres).
  { subst run. unfold IngestFile, mbind, M_bind.
    pose proof (GetOrCreateCollection_effect name w) as (H1 & P1 & N1).
    destruct (GetOrCreateCollection name w) as [[collection|err1|] w1];
      simpl in H1, P1, N1 |- *; try done.
    2:{ exists []. split; [| by left].
        intros n. rewrite H1. by destruct (decide (n = name)); rewrite app_nil_r. }
    rewrite (N1 collection eq_refl) in *. clear N1.
    match goal with
    | |- context [collectionGet X name ?opt w1] =>
        pose proof (collectionGet_effect X name opt w1) as (H2 & P2);
        destruct (collectionGet X name opt w1) as [[results|err2|] w2]
    end; simpl in H2, P2 |- *; try done.
    2:{ exists []. split; [| by left].
        intros n. unfold recordsOf at 1. rewrite H2. fold (recordsOf n w1).
        rewrite H1. by destruct (decide (n = name)); rewrite app_nil_r. }
    destruct (0 <? length (GetDocuments results))%nat; simpl.
    { exists []. split; [| by left].
      intros n. unfold recordsOf at 1. rewrite H2. fold (recordsOf n w1).
      rewrite H1. by destruct (decide (n = name)); rewrite app_nil_r. }
    match goal with
    | |- context [idsAndMetadatas X fp ?h um 0 ?chunks w2] =>
        pose proof (idsAndMetadatas_frame X fp h um chunks 0 w2)
          as (Hc & _);
        destruct (idsAndMetadatas X fp h um 0 chunks w2) as [[ids ms] w3]
    end; simpl in Hc |- *.
    match goal with
    | |- context [collectionAdd name ids ?texts ?metas w3] =>
        destruct (collectionAdd_effect name ids texts metas w3)
          as [(Hok & rs & Hrs & Hcs) | (e & Herr & Hcs)];
        destruct (collectionAdd name ids texts metas w3) as [r3 w4];
        simpl in *; subst r3
    end.
    - eexists. split; [| by right].
      intros n. unfold recordsOf at 1. simpl. rewrite Hcs.
      rewrite (insert_app_records _ _ _ _ _ Hrs).
      rewrite Hc, H2. fold (recordsOf n w1). by rewrite H1.
    - exists []. split; [| by left].
      intros n. unfold recordsOf at 1. simpl. rewrite Hcs, Hc, H2.
      fold (recordsOf n w1).
      rewrite H1. by destruct (decide (n = name)); rewrite app_nil_r. }
  assert (addedRecords name w run.2 = added) as Hadded.
  { unfold addedRecords. rewrite (Hrec name).
    rewrite decide_True by done. by rewrite drop_app_length. }
  rewrite Hadded. split; [| split; [| done]].
  - intros n Hn. rewrite (Hrec n). rewrite decide_False by done.
    by rewrite app_nil_r.
  - rewrite (Hrec name). by rewrite decide_True.
Qed.

(* --------------------------------------------------------------------- *)
(* CreateDocDirect: the insert                                           *)
(* --------------------------------------------------------------------- *)

Section DirectFacts.
Context (X : Externals).

Lemma holdsId_filter name id w :
  holdsId X name id w = false →
  filter (λ r, selects X (WithIDsGet [id]) r = true) (recordsOf name w) = [].
Proof. apply filter_existsb_false. Qed.

(* Without a conflict and with a store that answers, the text is added  *)
(* as one record at the end of the collection                            *)
Lemma CreateDocDirect_inserts w name id text metadata :
  text ≠ "" →
  responsive 3 (faults w) = true →
  id = "" ∨ holdsId X name id w = false →
  (CreateDocDirect X name id text metadata w).1 = Ok (directId X id text) ∧
  collections (CreateDocDirect X name id text metadata w).2
    = <[name := recordsOf name w ++ [directRecord X id text metadata]]>
        (collections w) ∧
  faults (CreateDocDirect X name id text metadata w).2
    = drop (if String.eqb id "" then 2 else 3) (faults w).
Proof.
  intros Htext Hresp Hfree.
  apply responsive_next in Hresp as [F1 Hresp].
  apply responsive_next in Hresp as [F2 Hresp].
  apply responsive_next in Hresp as [F3 _].
  apply String.eqb_neq in Htext.
  unfold CreateDocDirect, mbind, M_bind, directRecord, directId.
  rewrite Htext.
  rewrite GetOrCreateCollection_ok by done.
  destruct (String.eqb id "") eqn:Hid; simpl.
  - erewrite collectionAdd_ok;
      [| exact F2 | simpl; apply lookup_insert_eq].
    simpl. split; [done |]. split; [by rewrite insert_insert_eq |].
    by destruct (faults w) as [|? [|? ?]].
  - destruct Hfree as [-> | Hfree]; [discriminate Hid |].
    erewrite collectionGet_ok;
      [| exact F2 | simpl; apply lookup_insert_eq].
    rewrite (holdsId_filter _ _ _ Hfree). simpl.
    erewrite collectionAdd_ok;
      [| exact F3 | simpl; apply lookup_insert_eq].
    simpl. split; [done |]. split; [by rewrite insert_insert_eq |].
    by destruct (faults w) as [|? [|? [|? ?]]].
Qed.

(* An explicit id that the collection holds is refused *)
Lemma CreateDocDirect_refuses w name id text metadata :
  text ≠ "" → id ≠ "" →
  responsive 2 (faults w) = true →
  holdsId X name id w = true →
  (CreateDocDirect X name id text metadata w).1
    = Err (ErrNew "conflict: id already exists") ∧
  collections (CreateDocDirect X name id text metadata w).2 = collections w.
Proof.
  intros Htext Hid Hresp Hheld.
  apply responsive_next in Hresp as [F1 Hresp].
  apply responsive_next in Hresp as [F2 _].
  apply String.eqb_neq in Htext, Hid.
  unfold CreateDocDirect, mbind, M_bind. rewrite Htext, Hid. simpl.
  rewrite GetOrCreateCollection_ok by done.
  erewrite collectionGet_ok;
    [| exact F2 | simpl; apply lookup_insert_eq].
  unfold holdsId in Hheld. apply filter_existsb_true in Hheld.
  unfold asGetResult. simpl. rewrite length_map.
  rewrite nonempty_length_pos by done. simpl.
  split; [done |].
  unfold recordsOf in *.
  destruct (collections w !! name) as [rs|] eqn:E; simpl in *; [| done].
  by apply insert_id.
Qed.

Lemma holdsId_after_insert name id text metadata (w w' : World) rs :
  recordsOf name w' = rs ++ [directRecord X id text metadata] →
  holdsId X name (directId X id text) w' = true.
Proof.
  intros Hrec. unfold holdsId. rewrite Hrec, existsb_app.
  apply orb_true_iff. right. simpl.
  by rewrite String.eqb_refl.
Qed.

End DirectFacts.

(** X7: a direct insert that meets no conflict stores exactly one
    record. With a text, a store that answers, and no id given or an id
    the collection does not hold, CreateDocDirect returns the id (the
    given one, or the hex of the first 8 bytes of the SHA-256 of the
    text), appends one record with that id, the text as it is (no
    chunking, no newline added) and the string, int, int64 and float64
    entries of the metadata under their own keys, and leaves every other
    collection alone. *)
Theorem CreateDocDirect_stores_one_record (X : Externals) (w : World)
    (name id text : string) (metadata : gmap string any) :
  text ≠ "" →
  responsive 3 (faults w) = true →
  id = "" ∨ holdsId X name id w = false →
  let run := CreateDocDirect X name id text metadata w in
  run.1 = Ok (directId X id text) ∧
  recordsOf name run.2
    = recordsOf name w
      ++ [mkRecord (directId X id text) (TextDocument text)
            (omap directAttribute metadata)] ∧
  (∀ n, n ≠ name → recordsOf n run.2 = recordsOf n w).
Proof.
  intros Htext Hresp Hfree run.
  destruct (CreateDocDirect_inserts X w name id text metadata
              Htext Hresp Hfree) as (Hr & Hc & _).
  fold run in Hr, Hc. split; [done |]. unfold recordsOf. rewrite Hc. split.
  - by rewrite lookup_insert_eq.
  - intros n Hn. by rewrite lookup_insert_ne.
Qed.

Lemma CreateDocDirect_stores_one_record_witness :
  let run :=
    CreateDocDirect Demo.X "docs" "" "second"
      {[ "n" := AInt 7; "draft" := ABool true ]} Demo.withDoc1 in
  run.1 = Ok (directId Demo.X "" "second") ∧
  recordsOf "docs" run.2
    = recordsOf "docs" Demo.withDoc1
      ++ [mkRecord (directId Demo.X "" "second") (TextDocument "second")
            (omap directAttribute
               ({[ "n" := AInt 7; "draft" := ABool true ]}
                  : gmap string any))] ∧
  (∀ n, n ≠ "docs" → recordsOf n run.2 = recordsOf n Demo.withDoc1).
Proof.
  apply (CreateDocDirect_stores_one_record Demo.X Demo.withDoc1 "docs" ""
           "second" {[ "n" := AInt 7; "draft" := ABool true ]});
    [discriminate | reflexivity | by left].
Defined.

(** X8: an id can be inserted once. After CreateDocDirect stored a text
    under an explicit id, a second CreateDocDirect with the same id (any
    text, any metadata) returns the conflict error and leaves the
    collections as the first call left them. *)
Theorem CreateDocDirect_same_id_twice (X : Externals) (w : World)
    (name id text text' : string) (metadata metadata' : gmap string any) :
  text ≠ "" → text' ≠ "" → id ≠ "" →
  responsive 5 (faults w) = true →
  holdsId X name id w = false →
  let first := CreateDocDirect X name id text metadata w in
  let second := CreateDocDirect X name id text' metadata' first.2 in
  first.1 = Ok id ∧
  second.1 = Err (ErrNew "conflict: id already exists") ∧
  collections second.2 = collections first.2.
Proof.
  intros Htext Htext' Hid Hresp Hfree first second.
  assert (responsive 3 (faults w) = true) as Hresp3.
  { destruct (faults w) as [|[?|] [|[?|] [|[?|] ?]]]; done. }
  destruct (CreateDocDirect_inserts X w name id text metadata
              Htext Hresp3 (or_intror Hfree)) as (Hr & Hc & Hf).
  fold first in Hr, Hc, Hf.
  assert (directId X id text = id) as Hdid.
  { unfold directId. apply String.eqb_neq in Hid. by rewrite Hid. }
  rewrite Hdid in Hr. split; [done |].
  apply CreateDocDirect_refuses; try done.
  - rewrite Hf. apply String.eqb_neq in Hid. rewrite Hid.
    by apply (responsive_drop 3 2).
  - rewrite <- Hdid at 1.
    apply (holdsId_after_insert X name id text metadata w first.2
             (recordsOf name w)).
    unfold recordsOf at 1. by rewrite Hc, lookup_insert_eq.
Qed.

Lemma CreateDocDirect_same_id_twice_witness :
  let first :=
    CreateDocDirect Demo.X "docs" "doc-2" "second" ∅ Demo.withDoc1 in
  let second := CreateDocDirect Demo.X "docs" "doc-2" "third" ∅ first.2 in
  first.1 = Ok "doc-2" ∧
  second.1 = Err (ErrNew "conflict: id already exists") ∧
  collections second.2 = collections first.2.
Proof.
  apply (CreateDocDirect_same_id_twice Demo.X Demo.withDoc1 "docs" "doc-2"
           "second" "third" ∅ ∅);
    [discriminate | discriminate | discriminate | reflexivity | reflexivity].
Defined.

(** X9: with no id given, CreateDocDirect never asks the store whether
    the derived id exists: whatever the store does, none of its store
    calls is a Get. A text inserted twice without an id is therefore
    never refused by CreateDocDirect itself. *)
Theorem CreateDocDirect_without_id_no_lookup (X : Externals) (w : World)
    (name text : string) (metadata : gmap string any) :
  (∀ c e,
     (c, e) ∈ callsSince w (CreateDocDirect X name "" text metadata w).2 →
     ∀ collection opt, c ≠ CallGet collection opt) ∧
  (CreateDocDirect X name "" text metadata w).1
    ≠ Err (ErrNew "conflict: id already exists").
Proof.
  unfold CreateDocDirect, mbind, M_bind.
  destruct (String.eqb text "").
  { simpl. unfold callsSince. rewrite drop_all.
    split; [by intros c e ?%elem_of_nil | done]. }
  pose proof (GetOrCreateCollection_calls name w) as H1.
  destruct (GetOrCreateCollection name w) as [[collection|err1|] w1];
    simpl in H1 |- *;
    try (rewrite (callsSince_app _ _ _ H1); split; [| done];
         intros c e Hin%list_elem_of_singleton; by injection Hin as -> _).
  match goal with
  | |- context [collectionAdd collection ?ids ?texts ?metas w1] =>
      pose proof (collectionAdd_calls collection ids texts metas w1) as H3;
      destruct (collectionAdd collection ids texts metas w1)
        as [[u|err3|] w3]
  end; simpl in H3 |- *; rewrite H1, <- app_assoc in H3;
    rewrite (callsSince_app _ _ _ H3); (split; [| done]);
    intros c e [Hin | Hin%list_elem_of_singleton]%elem_of_cons;
    by injection Hin as -> _.
Qed.

Lemma CreateDocDirect_without_id_no_lookup_witness :
  (CallAdd "docs" [directId Demo.X "" "first"], None)
    ∈ callsSince Demo.withDoc1
        (CreateDocDirect Demo.X "docs" "" "first" ∅ Demo.withDoc1).2 ∧
  (∀ collection opt,
     CallAdd "docs" [directId Demo.X "" "first"] ≠ CallGet collection opt) ∧
  (CreateDocDirect Demo.X "docs" "" "first" ∅ Demo.withDoc1).1
    = Ok (directId Demo.X "" "first").
Proof.
  assert ((CallAdd "docs" [directId Demo.X "" "first"], None)
            ∈ callsSince Demo.withDoc1
                (CreateDocDirect Demo.X "docs" "" "first" ∅ Demo.withDoc1).2)
    as Hin.
  { vm_compute. apply elem_of_cons. right. apply elem_of_cons. by left. }
  split; [exact Hin |]. split; [| reflexivity].
  exact (proj1 (CreateDocDirect_without_id_no_lookup Demo.X Demo.withDoc1
                  "docs" "first" ∅) _ _ Hin).
Defined.

(* --------------------------------------------------------------------- *)
(* Deleting, listing                                                     *)
(* --------------------------------------------------------------------- *)

Section AdminFacts.
Context (X : Externals).

Lemma storeOp_ok {A} (body : World → outcome A * World) w :
  nextFault w = None → storeOp body w = body (popFault w).
Proof. unfold nextFault, storeOp. by destruct (faults w) as [|[e|] fs]. Qed.

Lemma GetCollection_missing name w :
  nextFault w = None → collections w !! name = None →
  GetCollection name w =
    (Err notFound,
     logCall (CallGetCollection name) (Some notFound) (popFault w)).
Proof.
  intros H E. unfold GetCollection.
  rewrite storeCall_ok by done. simpl. by rewrite E.
Qed.

Lemma map_as_fmap {A B} (f : A → B) (l : list A) : map f l = f <$> l.
Proof. induction l as [|a l IH]; simpl; [done | by rewrite IH]. Qed.

Lemma existsb_filter_out {A} (f : A → bool) (l : list A) :
  existsb f (filter (λ r, f r = false) l) = false.
Proof.
  induction l as [|a l IH]; [done |].
  rewrite filter_cons. destruct (decide (f a = false)) as [Ha | Ha]; [| done].
  simpl. by rewrite Ha, IH.
Qed.

Lemma hasId_single id (r : StoredRecord) :
  hasId [id] r = false ↔ rec_id r ≠ id.
Proof.
  unfold hasId. simpl. rewrite orb_false_r. apply String.eqb_neq.
Qed.

(* With the collection in place and a store that answers, DeleteDoc     *)
(* takes the records of that id out                                      *)
Lemma DeleteDoc_run w name id rs :
  responsive 2 (faults w) = true →
  collections w !! name = Some rs →
  (DeleteDoc name id w).1 = Ok tt ∧
  collections (DeleteDoc name id w).2
    = <[name := filter (λ r, hasId [id] r = false) rs]> (collections w) ∧
  faults (DeleteDoc name id w).2 = drop 2 (faults w).
Proof.
  intros Hresp Hrs.
  apply responsive_next in Hresp as [F1 Hresp].
  apply responsive_next in Hresp as [F2 _].
  unfold DeleteDoc, mbind, M_bind.
  erewrite GetCollection_ok by done.
  unfold collectionDelete. rewrite storeOp_ok by exact F2.
  simpl. rewrite Hrs. simpl. split; [done |]. split; [done |].
  by destruct (faults w) as [|? [|? ?]].
Qed.

End AdminFacts.

(** X10: DeleteDoc takes out the records with the given id and nothing
    else. With the collection in place and a store that answers, it
    returns no error; the collection keeps, in their order, exactly the
    records whose id differs; no record under that id is left; the
    other collections are as before. An id that no record has is not an
    error. *)
Theorem DeleteDoc_removes_id (X : Externals) (w : World) (name id : string)
    (rs : list StoredRecord) :
  responsive 2 (faults w) = true →
  collections w !! name = Some rs →
  let run := DeleteDoc name id w in
  run.1 = Ok tt ∧
  recordsOf name run.2 = filter (λ r, rec_id r ≠ id) rs ∧
  holdsId X name id run.2 = false ∧
  (∀ n, n ≠ name → recordsOf n run.2 = recordsOf n w).
Proof.
  intros Hresp Hrs run.
  destruct (DeleteDoc_run w name id rs Hresp Hrs) as (Hr & Hc & _).
  fold run in Hr, Hc.
  assert (recordsOf name run.2 = filter (λ r, hasId [id] r = false) rs)
    as Hrec.
  { unfold recordsOf. by rewrite Hc, lookup_insert_eq. }
  split; [done |]. split; [| split].
  - rewrite Hrec. apply list_filter_iff. intros r. apply hasId_single.
  - unfold holdsId. rewrite Hrec.
    apply (existsb_filter_out (hasId [id])).
  - intros n Hn. unfold recordsOf. by rewrite Hc, lookup_insert_ne.
Qed.

Lemma DeleteDoc_removes_id_witness :
  let run := DeleteDoc "docs" "doc-1" Demo2.twoDocs in
  run.1 = Ok tt ∧
  recordsOf "docs" run.2
    = filter (λ r, rec_id r ≠ "doc-1")
        [mkRecord "doc-1" (TextDocument "first") ∅;
         mkRecord "doc-2" (TextDocument "second") ∅] ∧
  holdsId Demo.X "docs" "doc-1" run.2 = false ∧
  (∀ n, n ≠ "docs" → recordsOf n run.2 = recordsOf n Demo2.twoDocs).
Proof.
  apply (DeleteDoc_removes_id Demo.X Demo2.twoDocs "docs" "doc-1");
    reflexivity.
Defined.

(** X11: deleting an id frees it. After DeleteDoc of an id, a
    CreateDocDirect with that explicit id meets no conflict: it returns
    the id and the collection holds the old records without that id,
    followed by the new record. *)
Theorem DeleteDoc_then_CreateDocDirect (X : Externals) (w : World)
    (name id text : string) (metadata : gmap string any)
    (rs : list StoredRecord) :
  text ≠ "" → id ≠ "" →
  responsive 5 (faults w) = true →
  collections w !! name = Some rs →
  let deleted := DeleteDoc name id w in
  let created := CreateDocDirect X name id text metadata deleted.2 in
  deleted.1 = Ok tt ∧
  created.1 = Ok id ∧
  recordsOf name created.2
    = filter (λ r, rec_id r ≠ id) rs
      ++ [mkRecord id (TextDocument text) (omap directAttribute metadata)].
Proof.
  intros Htext Hid Hresp Hrs deleted created.
  assert (responsive 2 (faults w) = true) as Hresp2.
  { destruct (faults w) as [|[?|] [|[?|] ?]]; done. }
  destruct (DeleteDoc_run w name id rs Hresp2 Hrs) as (Hr & Hc & Hf).
  fold deleted in Hr, Hc, Hf.
  assert (recordsOf name deleted.2 = filter (λ r, rec_id r ≠ id) rs) as Hrec.
  { unfold recordsOf. rewrite Hc, lookup_insert_eq. simpl.
    apply list_filter_iff. intros r. apply hasId_single. }
  assert (holdsId X name id deleted.2 = false) as Hfree.
  { unfold holdsId, recordsOf. rewrite Hc, lookup_insert_eq. simpl.
    apply (existsb_filter_out (hasId [id])). }
  destruct (CreateDocDirect_inserts X deleted.2 name id text metadata Htext)
    as (Hr2 & Hc2 & _);
    [rewrite Hf; by apply (responsive_drop 2 3) | by right |].
  fold created in Hr2, Hc2.
  assert (directId X id text = id) as Hdid.
  { unfold directId. apply String.eqb_neq in Hid. by rewrite Hid. }
  split; [done |]. split; [by rewrite Hdid in Hr2 |].
  unfold recordsOf at 1. rewrite Hc2, lookup_insert_eq. simpl.
  by rewrite Hrec; unfold directRecord; rewrite Hdid.
Qed.

Lemma DeleteDoc_then_CreateDocDirect_witness :
  let deleted := DeleteDoc "docs" "doc-1" Demo2.twoDocs in
  let created :=
    CreateDocDirect Demo.X "docs" "doc-1" "again" ∅ deleted.2 in
  deleted.1 = Ok tt ∧
  created.1 = Ok "doc-1" ∧
  recordsOf "docs" created.2
    = filter (λ r, rec_id r ≠ "doc-1")
        [mkRecord "doc-1" (TextDocument "first") ∅;
         mkRecord "doc-2" (TextDocument "second") ∅]
      ++ [mkRecord "doc-1" (TextDocument "again")
            (omap directAttribute (∅ : gmap string any))].
Proof.
  apply (DeleteDoc_then_CreateDocDirect Demo.X Demo2.twoDocs "docs" "doc-1"
           "again" ∅);
    [discriminate | discriminate | reflexivity | reflexivity].
Defined.

(** X12: reading from or deleting in a collection that does not exist is
    an error, and does not create the collection. When the store answers
    and holds no collection of that name, Search, DeleteDoc and
    GetCollectionDocuments each return an error that wraps the store's
    not-found error (never an empty result), and leave the collections
    as they were. *)
Theorem missing_collection_is_an_error (X : Externals) (w : World)
    (name : string) :
  responsive 1 (faults w) = true →
  collections w !! name = None →
  (∀ query k filter,
     propagated (Search X name query k filter w).1 notFound ∧
     collections (Search X name query k filter w).2 = collections w) ∧
  (∀ id,
     propagated (DeleteDoc name id w).1 notFound ∧
     collections (DeleteDoc name id w).2 = collections w) ∧
  propagated (GetCollectionDocuments name w).1 notFound ∧
  collections (GetCollectionDocuments name w).2 = collections w.
Proof.
  intros Hresp Hnone.
  apply responsive_next in Hresp as [F1 _].
  split; [| split; [| split]].
  - intros query k filter. unfold Search, mbind, M_bind.
    rewrite GetCollection_missing by done. simpl.
    split; [apply propagated_wrapped | done].
  - intros id. unfold DeleteDoc, mbind, M_bind.
    rewrite GetCollection_missing by done. simpl.
    split; [apply propagated_wrapped | done].
  - unfold GetCollectionDocuments, mbind, M_bind.
    rewrite GetCollection_missing by done. simpl.
    apply propagated_wrapped.
  - unfold GetCollectionDocuments, mbind, M_bind.
    by rewrite GetCollection_missing.
Qed.

Lemma missing_collection_is_an_error_witness :
  (∀ query k filter,
     propagated (Search Demo.X "notes" query k filter Demo.withDoc1).1
       notFound ∧
     collections (Search Demo.X "notes" query k filter Demo.withDoc1).2
       = collections Demo.withDoc1) ∧
  (∀ id,
     propagated (DeleteDoc "notes" id Demo.withDoc1).1 notFound ∧
     collections (DeleteDoc "notes" id Demo.withDoc1).2
       = collections Demo.withDoc1) ∧
  propagated (GetCollectionDocuments "notes" Demo.withDoc1).1 notFound ∧
  collections (GetCollectionDocuments "notes" Demo.withDoc1).2
    = collections Demo.withDoc1.
Proof.
  apply (missing_collection_is_an_error Demo.X Demo.withDoc1 "notes");
    reflexivity.
Defined.

(* --------------------------------------------------------------------- *)
(* GetCollectionDocuments                                                *)
(* --------------------------------------------------------------------- *)

Section DocumentsFacts.

Lemma documentAt_ok ids metadatas i doc id :
  ids !! i = Some id →
  ∃ d, documentAt ids metadatas i doc = Some d ∧ listedAs id doc d.
Proof.
  intros Hid. unfold documentAt. rewrite Hid. simpl.
  eexists. split; [reflexivity |]. unfold listedAs. simpl.
  repeat split; try done.
  - by destruct (metadatas !! i) as [[m|]|].
  - intros key a.
    destruct (metadatas !! i) as [[m|]|]; intros H;
      repeat (rewrite lookup_insert in H; case_decide; subst;
              [injection H as <-; by auto |]);
      by rewrite lookup_empty in H.
Qed.

Lemma documentsLoop_ok ids metadatas docs :
  ∀ i acc,
    (i + length docs = length ids)%nat →
    ∃ ds, documentsLoop ids metadatas i docs acc = Some (acc ++ ds) ∧
          Forall2 (λ d '(id, doc), listedAs id doc d) ds
            (zip (drop i ids) docs).
Proof.
  induction docs as [|doc rest IH]; intros i acc Hlen; simpl in *.
  - exists []. rewrite app_nil_r. split; [done |].
    destruct (drop i ids); constructor.
  - destruct (lookup_lt_is_Some_2 ids i) as [id Hid]; [lia |].
    destruct (documentAt_ok ids metadatas i doc id Hid) as (d & Hd & Hlisted).
    rewrite Hd. simpl.
    destruct (IH (S i) (acc ++ [d])) as (ds & Hds & Hall); [lia |].
    exists (d :: ds). rewrite Hds, <- app_assoc. split; [done |].
    rewrite (drop_S ids id i Hid). simpl. by constructor.
Qed.

Lemma Forall2_zip_maps {A B C D} (P : B → C → D → Prop) (f : A → B)
    (g : A → C) (rs : list A) :
  ∀ ds, Forall2 (λ d '(b, c), P b c d) ds (zip (map f rs) (map g rs)) →
        Forall2 (λ d r, P (f r) (g r) d) ds rs.
Proof.
  induction rs as [|r rs IH]; intros ds H; simpl in H.
  - inversion H. constructor.
  - inversion H as [|d p ds' ps Hd Hrest]; subst. constructor; [done |].
    by apply IH.
Qed.

End DocumentsFacts.

(** X13: GetCollectionDocuments lists every record of the collection and
    none of its metadata. With the collection in place and a store that
    answers, it returns one document per record, in the store's order,
    with the record's id and text, empty file path and creation time,
    and a metadata map that holds the id under "id" and otherwise at
    most the text under "document": no stored attribute (file_md5,
    file_name, timestamp, user keys) is returned. The collections are
    left as they were. *)
Theorem GetCollectionDocuments_lists (w : World) (name : string)
    (rs : list StoredRecord) :
  responsive 2 (faults w) = true →
  collections w !! name = Some rs →
  ∃ documents,
    (GetCollectionDocuments name w).1 = Ok documents ∧
    Forall2 (λ d r, listedAs (rec_id r) (rec_doc r) d) documents rs ∧
    collections (GetCollectionDocuments name w).2 = collections w.
Proof.
  intros Hresp Hrs.
  apply responsive_next in Hresp as [F1 Hresp].
  apply responsive_next in Hresp as [F2 _].
  unfold GetCollectionDocuments, mbind, M_bind.
  erewrite GetCollection_ok by done.
  unfold collectionGetAll. rewrite storeOp_ok by exact F2.
  simpl. rewrite Hrs. simpl.
  destruct (documentsLoop_ok (map rec_id rs) (map Some (map rec_meta rs))
              (map rec_doc rs) 0 []) as (ds & Hds & Hall).
  { simpl. by rewrite !length_map. }
  rewrite Hds. simpl. exists ds. split; [done |]. split; [| done].
  rewrite drop_0 in Hall.
  by apply (Forall2_zip_maps (λ id doc d, listedAs id doc d)).
Qed.

Lemma GetCollectionDocuments_lists_witness :
  ∃ documents,
    (GetCollectionDocuments "docs" Demo.withHello).1 = Ok documents ∧
    Forall2 (λ d r, listedAs (rec_id r) (rec_doc r) d) documents
      (recordsOf "docs" Demo.withHello) ∧
    collections (GetCollectionDocuments "docs" Demo.withHello).2
      = collections Demo.withHello.
Proof.
  apply (GetCollectionDocuments_lists Demo.withHello "docs"
           (recordsOf "docs" Demo.withHello)).
  - reflexivity.
  - vm_compute. reflexivity.
Defined.

(* --------------------------------------------------------------------- *)
(* Collections                                                           *)
(* --------------------------------------------------------------------- *)

Section CollectionFacts.
Context (X : Externals).
Context (collectionID : string → string).

Lemma ListCollections_run w :
  nextFault w = None →
  ListCollections w
  = (Ok (map fst (map_to_list (collections w))), popFault w).
Proof.
  intros F. unfold ListCollections, mbind, M_bind, clientListCollections.
  by rewrite storeOp_ok.
Qed.

Lemma listed_iff (m : gmap string (list StoredRecord)) n :
  n ∈ map fst (map_to_list m) ↔ is_Some (m !! n).
Proof.
  rewrite map_as_fmap, list_elem_of_fmap. split.
  - intros ([k rs] & -> & Hin). apply elem_of_map_to_list in Hin. eauto.
  - intros [rs Hrs]. exists (n, rs). split; [done |].
    by apply elem_of_map_to_list.
Qed.

Lemma CreateCollection_run w name description :
  nextFault w = None →
  (CreateCollection collectionID name description w).1
    = Ok (<["description" := AString description]>
            (<["name" := AString name]>
               (<["id" := AString (collectionID name)]> ∅))) ∧
  collections (CreateCollection collectionID name description w).2
    = <[name := recordsOf name w]> (collections w) ∧
  faults (CreateCollection collectionID name description w).2
    = drop 1 (faults w).
Proof.
  intros F. unfold CreateCollection, mbind, M_bind.
  rewrite GetOrCreateCollection_ok by done. simpl.
  split; [done |]. split; [done |]. by destruct (faults w).
Qed.

Lemma DeleteCollection_run w name rs :
  nextFault w = None → collections w !! name = Some rs →
  DeleteCollection name w
  = (Ok tt, setCollections (delete name (collections w)) (popFault w)).
Proof.
  intros F Hrs. unfold DeleteCollection, clientDeleteCollection.
  rewrite storeOp_ok by done. simpl. by rewrite Hrs.
Qed.

End CollectionFacts.

(** X14: ListCollections returns the names of exactly the collections
    the store holds, each once, and changes nothing. An error of the
    store's listing comes back wrapped as "failed to list collections". *)
Theorem ListCollections_lists (w : World) :
  (responsive 1 (faults w) = true →
   ∃ names,
     (ListCollections w).1 = Ok names ∧
     (∀ n, n ∈ names ↔ is_Some (collections w !! n)) ∧
     NoDup names ∧
     collections (ListCollections w).2 = collections w) ∧
  (∀ e, nextFault w = Some e →
     (ListCollections w).1 = Err (ErrWrap "failed to list collections" e)).
Proof.
  split.
  - intros Hresp. apply responsive_next in Hresp as [F _].
    rewrite ListCollections_run by done. simpl.
    eexists. split; [reflexivity |]. split; [| split; [| done]].
    + intros n. apply listed_iff.
    + rewrite map_as_fmap. apply NoDup_fst_map_to_list.
  - intros e F. unfold ListCollections, mbind, M_bind, clientListCollections,
      storeOp, nextFault in *.
    destruct (faults w) as [|[e'|] fs]; try done. by injection F as ->.
Qed.

Lemma ListCollections_lists_witness :
  (∃ names,
     (ListCollections Demo.withDoc1).1 = Ok names ∧
     (∀ n, n ∈ names ↔ is_Some (collections Demo.withDoc1 !! n)) ∧
     NoDup names ∧
     collections (ListCollections Demo.withDoc1).2
       = collections Demo.withDoc1) ∧
  (ListCollections (mkWorld ∅ [Some Demo.boom] [] 0 [])).1
    = Err (ErrWrap "failed to list collections" Demo.boom).
Proof.
  split.
  - apply (proj1 (ListCollections_lists Demo.withDoc1)). reflexivity.
  - apply (proj2 (ListCollections_lists (mkWorld ∅ [Some Demo.boom] [] 0 []))).
    reflexivity.
Defined.

(** X15: CreateCollection is get-or-create. With a store that answers it
    never fails because the collection exists: it returns the
    collection's id and name with the description that was passed in,
    leaves the records of every collection (also of an existing one of
    that name) as they were, and a ListCollections that follows names
    the collection. *)
Theorem CreateCollection_then_listed (collectionID : string → string)
    (w : World) (name description : string) :
  responsive 2 (faults w) = true →
  let created := CreateCollection collectionID name description w in
  (∃ collection,
     created.1 = Ok collection ∧
     collection !! "id" = Some (AString (collectionID name)) ∧
     collection !! "name" = Some (AString name) ∧
     collection !! "description" = Some (AString description)) ∧
  (∀ n, recordsOf n created.2 = recordsOf n w) ∧
  ∃ names, (ListCollections created.2).1 = Ok names ∧ name ∈ names.
Proof.
  intros Hresp created.
  apply responsive_next in Hresp as [F1 Hresp].
  destruct (CreateCollection_run collectionID w name description F1)
    as (Hr & Hc & Hf).
  fold created in Hr, Hc, Hf.
  split; [| split].
  - eexists. split; [exact Hr |]. by split.
  - intros n. unfold recordsOf at 1. rewrite Hc.
    destruct (decide (name = n)) as [<- | Hne].
    + by rewrite lookup_insert_eq.
    + by rewrite lookup_insert_ne.
  - rewrite ListCollections_run.
    + eexists. split; [reflexivity |]. apply listed_iff.
      rewrite Hc, lookup_insert_eq. eauto.
    + unfold nextFault. rewrite Hf.
      apply responsive_next in Hresp as [F2 _].
      unfold nextFault in F1, F2 |- *. simpl in F2.
      by destruct (faults w) as [|? [|[?|] ?]].
Qed.

Lemma CreateCollection_then_listed_witness :
  let created :=
    CreateCollection Demo2.ids "docs" "my notes" Demo.withDoc1 in
  (∃ collection,
     created.1 = Ok collection ∧
     collection !! "id" = Some (AString (Demo2.ids "docs")) ∧
     collection !! "name" = Some (AString "docs") ∧
     collection !! "description" = Some (AString "my notes")) ∧
  (∀ n, recordsOf n created.2 = recordsOf n Demo.withDoc1) ∧
  ∃ names, (ListCollections created.2).1 = Ok names ∧ "docs" ∈ names.
Proof.
  apply (CreateCollection_then_listed Demo2.ids Demo.withDoc1 "docs"
           "my notes").
  reflexivity.
Defined.

(** X16: deleting a collection forgets what was ingested into it. With a
    store that answers, DeleteCollection of an existing collection
    removes it with all its records and touches no other collection;
    an IngestFile into that name afterwards is never skipped, also for
    a content the collection held: it creates the collection anew and
    returns ingested. *)
Theorem DeleteCollection_forgets (X : Externals) (w : World)
    (name fp content : string) (um : gmap string any)
    (rs : list StoredRecord) :
  responsive 4 (faults w) = true →
  collections w !! name = Some rs →
  let deleted := DeleteCollection name w in
  let again := IngestFile X name fp content um deleted.2 in
  deleted.1 = Ok tt ∧
  collections deleted.2 = delete name (collections w) ∧
  again.1 = Ok (mkIngestResult "ingested" fp
                  (Z.of_nat (length (chunkText content 512)))).
Proof.
  intros Hresp Hrs deleted again.
  apply responsive_next in Hresp as [F1 Hresp].
  subst again deleted.
  rewrite (DeleteCollection_run w name rs F1 Hrs). simpl.
  split; [done |]. split; [done |].
  apply IngestFile_ingests; [exact Hresp |].
  unfold holdsContent, recordsOf. simpl. by rewrite lookup_delete_eq.
Qed.

Lemma DeleteCollection_forgets_witness :
  let deleted := DeleteCollection "docs" Demo.withHello in
  let again :=
    IngestFile Demo.X "docs" "a.txt" "hello world" ∅ deleted.2 in
  deleted.1 = Ok tt ∧
  collections deleted.2 = delete "docs" (collections Demo.withHello) ∧
  again.1 = Ok (mkIngestResult "ingested" "a.txt" 1).
Proof.
  apply (DeleteCollection_forgets Demo.X Demo.withHello "docs" "a.txt"
           "hello world" ∅ (recordsOf "docs" Demo.withHello)).
  - reflexivity.
  - vm_compute. reflexivity.
Defined.

(* --------------------------------------------------------------------- *)
(* Search: the filter and the query                                      *)
(* --------------------------------------------------------------------- *)

Section QueryFacts.
Context (X : Externals).

Lemma whereStep_supported clause key v :
  supportedFilterValue v = true →
  whereStep X clause (key, v) = equalityOn X key v.
Proof. intros H. unfold whereStep. simpl. by destruct v. Qed.

Lemma queryOpOf_search query k filter :
  queryOpOf (searchQueryOptions X query k filter)
  = mkQueryOp [query] k
      (if (0 <? length filter)%nat then filterClause X filter else None).
Proof.
  unfold searchQueryOptions.
  destruct (0 <? length filter)%nat; [| done].
  unfold queryOpOf. by rewrite foldl_app.
Qed.

End QueryFacts.

(** X17: of several filter entries Search uses one. When the filter's
    entries, in the order the range statement yields them, end with an
    entry of a supported type followed by unsupported ones only, the
    query carries the equality predicate of that entry alone: the
    entries before it, supported or not, do not restrict the query. *)
Theorem Search_filter_last_entry_wins (X : Externals) (query : string)
    (k : Z) (before after : list (string * any)) (key : string) (v : any) :
  supportedFilterValue v = true →
  forallb (λ kv, negb (supportedFilterValue kv.2)) after = true →
  Where (queryOpOf (searchQueryOptions X query k
                      (before ++ (key, v) :: after)))
    = equalityOn X key v ∧
  is_Some (equalityOn X key v).
Proof.
  intros Hv Hafter. split; [| by destruct v].
  rewrite queryOpOf_search. simpl.
  assert ((0 <? length (before ++ (key, v) :: after))%nat = true) as ->.
  { rewrite length_app. simpl. apply Nat.ltb_lt. lia. }
  unfold filterClause. rewrite foldl_app. simpl.
  rewrite filterClause_unsupported by done.
  by apply whereStep_supported.
Qed.

Lemma Search_filter_last_entry_wins_witness :
  Where (queryOpOf (searchQueryOptions Demo.X "hello" 5
                      ([("file_name", AString "a.txt")]
                       ++ ("user_year", AInt 2024) :: [("draft", ABool true)])))
    = equalityOn Demo.X "user_year" (AInt 2024) ∧
  is_Some (equalityOn Demo.X "user_year" (AInt 2024)).
Proof.
  apply (Search_filter_last_entry_wins Demo.X "hello" 5
           [("file_name", AString "a.txt")] [("draft", ABool true)]
           "user_year" (AInt 2024)); reflexivity.
Defined.

(** X18: ChromaDB.Search of the db package and Search of the services
    build the same query for a positive k: same text, same limit, same
    where clause, for every filter. For k <= 0 the db package passes no
    limit at all, where the service passes k on. *)
Theorem db_search_same_query (X : Externals) (query : string) (k : Z)
    (filter : list (string * any)) :
  (0 < k →
   queryOpOf (DB.searchOptions X query k filter)
   = queryOpOf (searchQueryOptions X query k filter)) ∧
  (k ≤ 0 →
   (∀ n, WithNResults n ∉ DB.searchOptions X query k filter) ∧
   WithNResults k ∈ searchQueryOptions X query k filter).
Proof.
  split.
  - intros Hk. rewrite queryOpOf_search. unfold DB.searchOptions.
    assert ((0 <? k) = true) as -> by (apply Z.ltb_lt; lia).
    unfold filterClause.
    destruct (0 <? length filter)%nat; [| done].
    destruct (foldl (whereStep X) None filter) as [clause|]; [| done].
    unfold queryOpOf. by rewrite foldl_app.
  - intros Hk. split.
    + intros n. unfold DB.searchOptions.
      assert ((0 <? k) = false) as -> by (apply Z.ltb_ge; lia).
      destruct (0 <? length filter)%nat;
        [destruct (foldl (whereStep X) None filter) |];
        intros Hin; repeat (apply elem_of_cons in Hin as [Hin | Hin];
                            [discriminate Hin |]);
        by apply elem_of_nil in Hin.
    + unfold searchQueryOptions.
      destruct (0 <? length filter)%nat;
        apply elem_of_cons; right; apply elem_of_cons; by left.
Qed.

Lemma db_search_same_query_witness :
  queryOpOf (DB.searchOptions Demo.X "hello" 5 [("draft", ABool true)])
  = queryOpOf (searchQueryOptions Demo.X "hello" 5 [("draft", ABool true)]) ∧
  (∀ n, WithNResults n ∉ DB.searchOptions Demo.X "hello" 0 []) ∧
  WithNResults 0 ∈ searchQueryOptions Demo.X "hello" 0 [].
Proof.
  split.
  - apply (proj1 (db_search_same_query Demo.X "hello" 5
                    [("draft", ABool true)])). lia.
  - apply (proj2 (db_search_same_query Demo.X "hello" 0 [])). lia.
Defined.

(* --------------------------------------------------------------------- *)
(* The HTTP handlers                                                     *)
(* --------------------------------------------------------------------- *)

Section HandlerFacts.
Context (X : Externals).

(* IngestFile ends in a result for its file or in an error, whatever    *)
(* the store does                                                        *)
Lemma IngestFile_result w name fp content um :
  match (IngestFile X name fp content um w).1 with
  | Ok r => File r = fp ∧ (Status r = "ingested" ∨ Status r = "skipped")
  | Err _ => True
  | Panic => False
  end.
Proof.
  unfold IngestFile, mbind, M_bind.
  pose proof (GetOrCreateCollection_effect name w) as (_ & P1 & _).
  destruct (GetOrCreateCollection name w) as [[collection|err1|] w1];
    simpl in P1 |- *; try done.
  match goal with
  | |- context [collectionGet X collection ?opt w1] =>
      pose proof (collectionGet_effect X collection opt w1) as (_ & P2);
      destruct (collectionGet X collection opt w1) as [[results|err2|] w2]
  end; simpl in P2 |- *; try done.
  destruct (0 <? length (GetDocuments results))%nat; simpl; [by auto |].
  match goal with
  | |- context [idsAndMetadatas X fp ?h um 0 ?chunks w2] =>
      destruct (idsAndMetadatas X fp h um 0 chunks w2) as [[ids ms] w3]
  end; simpl.
  match goal with
  | |- context [collectionAdd collection ids ?texts ?metas w3] =>
      destruct (collectionAdd_effect collection ids texts metas w3)
        as [(Hok & _) | (e & Herr & _)];
      destruct (collectionAdd collection ids texts metas w3) as [r3 w4];
      simpl in *; subst r3
  end; simpl; by auto.
Qed.

(* The loop of the upload answers every file *)
Lemma ingestFiles_answers name um fileHeaders :
  ∀ acc w,
    ∃ results,
      (Handlers.ingestFiles X name um fileHeaders acc w).1
        = Some (acc ++ results) ∧
      Forall2 answersFile fileHeaders results.
Proof.
  induction fileHeaders as [|fh rest IH]; intros acc w; simpl.
  - exists []. by rewrite app_nil_r.
  - assert (answersFile fh (Handlers.errorResult fh)) as Herr.
    { split; [done |]. split; [| done]. by repeat constructor. }
    destruct (Handlers.contents fh) as [buf|e|] eqn:Hc.
    + unfold mbind, M_bind.
      pose proof (IngestFile_result w name (Handlers.Filename fh) buf um) as Hr.
      destruct (IngestFile X name (Handlers.Filename fh) buf um w)
        as [[r|e|] w1]; simpl in Hr; [| | done].
      * destruct (IH (acc ++ [r]) w1) as (rs & Hrs & Hall).
        exists (r :: rs). rewrite Hrs, <- app_assoc. split; [done |].
        constructor; [| done].
        destruct Hr as [Hfile [Hs | Hs]]; unfold answersFile; rewrite Hs;
          (split; [done |]; split; [by repeat constructor |]);
          intros e He; by rewrite Hc in He.
      * destruct (IH (acc ++ [Handlers.errorResult fh]) w1)
          as (rs & Hrs & Hall).
        exists (Handlers.errorResult fh :: rs).
        rewrite Hrs, <- app_assoc. split; [done | by constructor].
    + destruct (IH (acc ++ [Handlers.errorResult fh]) w) as (rs & Hrs & Hall).
      exists (Handlers.errorResult fh :: rs).
      rewrite Hrs, <- app_assoc. split; [done | by constructor].
    + destruct (IH (acc ++ [Handlers.errorResult fh]) w) as (rs & Hrs & Hall).
      exists (Handlers.errorResult fh :: rs).
      rewrite Hrs, <- app_assoc. split; [done | by constructor].
Qed.

End HandlerFacts.

(** X19: an upload answers every file, whatever fails. For a form with
    at least one file, a collection id and a metadata field that is
    empty or parses, handleFileUpload answers 200 with one result per
    uploaded file, in the order of the files, each naming its file and
    saying ingested, skipped or error; a file that cannot be read, or
    whose ingestion fails in the store, gets the status error and the
    files after it are still ingested. No failure of a file or of the
    store changes the status code. *)
Theorem handleFileUpload_answers_every_file (X : Externals)
    (jsonUnmarshal : string → outcome (gmap string any)) (w : World)
    (form : Handlers.MultipartForm) :
  Handlers.files form ≠ [] →
  Handlers.collection_id form ≠ "" →
  Handlers.metadata form = "" ∨
    (∃ um, jsonUnmarshal (Handlers.metadata form) = Ok um) →
  ∃ results,
    (Handlers.handleFileUpload X jsonUnmarshal (Ok form) w).1
      = Some (Handlers.mkResponse 200 (Handlers.ResultsBody results)) ∧
    Forall2 answersFile (Handlers.files form) results.
Proof.
  intros Hfiles Hcoll Hmeta.
  unfold Handlers.handleFileUpload.
  assert ((length (Handlers.files form) =? 0)%nat = false) as ->.
  { apply Nat.eqb_neq. by destruct (Handlers.files form). }
  apply String.eqb_neq in Hcoll. rewrite Hcoll.
  assert (∃ um,
            (if negb (String.eqb (Handlers.metadata form) "")
             then jsonUnmarshal (Handlers.metadata form) else Ok ∅) = Ok um)
    as [um ->].
  { destruct Hmeta as [-> | [um Hum]]; [by exists ∅ |].
    destruct (negb (String.eqb (Handlers.metadata form) "")); eauto. }
  unfold mbind, M_bind.
  destruct (ingestFiles_answers X (Handlers.collection_id form) um
              (Handlers.files form) [] w) as (results & Hrs & Hall).
  destruct (Handlers.ingestFiles X (Handlers.collection_id form) um
              (Handlers.files form) [] w) as [rs w1].
  simpl in Hrs |- *. subst rs. by exists results.
Qed.

Lemma handleFileUpload_answers_every_file_witness :
  ∃ results,
    (Handlers.handleFileUpload Demo.X Demo2.parse
       (Ok (Handlers.mkForm
              [Handlers.mkFileHeader "a.txt" (Ok "hello world");
               Handlers.mkFileHeader "b.txt" (Err Demo.boom);
               Handlers.mkFileHeader "c.txt" (Ok "bye")]
              "docs" "{}"))
       Demo.lookupFails).1
      = Some (Handlers.mkResponse 200 (Handlers.ResultsBody results)) ∧
    Forall2 answersFile
      [Handlers.mkFileHeader "a.txt" (Ok "hello world");
       Handlers.mkFileHeader "b.txt" (Err Demo.boom);
       Handlers.mkFileHeader "c.txt" (Ok "bye")]
      results.
Proof.
  apply (handleFileUpload_answers_every_file Demo.X Demo2.parse
           Demo.lookupFails
           (Handlers.mkForm
              [Handlers.mkFileHeader "a.txt" (Ok "hello world");
               Handlers.mkFileHeader "b.txt" (Err Demo.boom);
               Handlers.mkFileHeader "c.txt" (Ok "bye")]
              "docs" "{}")).
  - discriminate.
  - discriminate.
  - right. eexists. reflexivity.
Defined.

(* The same upload, run: the store fails the dedupe query of the first  *)
(* file, the second file cannot be read, the third is ingested           *)
Example handleFileUpload_mixed :
  (Handlers.handleFileUpload Demo.X Demo2.parse
     (Ok (Handlers.mkForm
            [Handlers.mkFileHeader "a.txt" (Ok "hello world");
             Handlers.mkFileHeader "b.txt" (Err Demo.boom);
             Handlers.mkFileHeader "c.txt" (Ok "bye")]
            "docs" "{}"))
     Demo.lookupFails).1
  = Some (Handlers.mkResponse 200
            (Handlers.ResultsBody
               [mkIngestResult "error" "a.txt" 0;
                mkIngestResult "error" "b.txt" 0;
                mkIngestResult "ingested" "c.txt" 1])).
Proof. vm_compute. reflexivity. Qed.

(** X20: the same bytes uploaded twice in one request are stored once.
    For an upload of two files with the same content (under any two
    names) into a collection that does not hold the content, with a
    store that answers, handleFileUpload answers 200 with ingested for
    the first file and skipped for the second. *)
Theorem handleFileUpload_same_content_twice (X : Externals)
    (jsonUnmarshal : string → outcome (gmap string any)) (w : World)
    (name fp fp' content : string) :
  name ≠ "" →
  responsive 5 (faults w) = true →
  holdsContent X name content w = false →
  (Handlers.handleFileUpload X jsonUnmarshal
     (Ok (Handlers.mkForm
            [Handlers.mkFileHeader fp (Ok content);
             Handlers.mkFileHeader fp' (Ok content)] name ""))
     w).1
  = Some (Handlers.mkResponse 200
            (Handlers.ResultsBody
               [mkIngestResult "ingested" fp
                  (Z.of_nat (length (chunkText content 512)));
                mkIngestResult "skipped" fp' 0])).
Proof.
  intros Hname Hresp Hfresh.
  assert (responsive 3 (faults w) = true) as Hresp3.
  { destruct (faults w) as [|[?|] [|[?|] [|[?|] ?]]]; done. }
  destruct (IngestFile_ingests X w name fp content ∅ Hresp3 Hfresh)
    as (Hr & _ & _).
  destruct (IngestFile_then_held X w name fp content ∅ Hresp3 Hfresh)
    as (Hheld & Hf).
  assert (responsive 2 (faults (IngestFile X name fp content ∅ w).2) = true)
    as Hresp2.
  { rewrite Hf. by apply (responsive_drop 3 2). }
  destruct (IngestFile_skips X _ name fp' content ∅ Hresp2 Hheld)
    as (Hr2 & _).
  unfold Handlers.handleFileUpload. simpl.
  apply String.eqb_neq in Hname. rewrite Hname. simpl.
  unfold mbind, M_bind.
  destruct (IngestFile X name fp content ∅ w) as [r1 w1]; simpl in *.
  subst r1.
  destruct (IngestFile X name fp' content ∅ w1) as [r2 w2]; simpl in *.
  by subst r2.
Qed.

Lemma handleFileUpload_same_content_twice_witness :
  (Handlers.handleFileUpload Demo.X Demo2.parse
     (Ok (Handlers.mkForm
            [Handlers.mkFileHeader "a.txt" (Ok "hello world");
             Handlers.mkFileHeader "copy.txt" (Ok "hello world")] "docs" ""))
     Demo.empty).1
  = Some (Handlers.mkResponse 200
            (Handlers.ResultsBody
               [mkIngestResult "ingested" "a.txt" 1;
                mkIngestResult "skipped" "copy.txt" 0])).
Proof.
  apply (handleFileUpload_same_content_twice Demo.X Demo2.parse Demo.empty
           "docs" "a.txt" "copy.txt" "hello world");
    [discriminate | reflexivity | reflexivity].
Defined.

Section DirectTextFacts.
Context (X : Externals).

(* The text that wraps the error of the collection resolution holds the *)
(* word exactly when the error's own text does                           *)
Lemma Contains_wrapped (s : string) :
  Contains ("get/create collection" +:+ (": " +:+ s)) "conflict"
  = Contains s "conflict".
Proof. reflexivity. Qed.

Lemma CreateDocDirect_resolution_fails w name id text metadata e :
  text ≠ "" → nextFault w = Some e →
  (CreateDocDirect X name id text metadata w).1
    = Err (ErrWrap "get/create collection" e) ∧
  collections (CreateDocDirect X name id text metadata w).2 = collections w.
Proof.
  intros Htext F. apply String.eqb_neq in Htext.
  unfold CreateDocDirect, mbind, M_bind. rewrite Htext.
  unfold GetOrCreateCollection. by rewrite (storeCall_fault _ _ _ e).
Qed.

End DirectTextFacts.

(** X21: the statuses of a direct insert. For a bound request with a
    text and a store that answers, handleDirectText answers 409 with the
    conflict message when the request names an id the collection holds,
    and stores nothing; it answers 201 with the id (the given one or the
    derived one) when no id is given or the collection does not hold
    it. *)
Theorem handleDirectText_conflict_or_created (X : Externals) (w : World)
    (req : Handlers.DirectRequest) :
  Handlers.dr_Text req ≠ "" →
  let run := Handlers.handleDirectText X (Ok req) w in
  (Handlers.dr_ID req ≠ "" →
   responsive 2 (faults w) = true →
   holdsId X (Handlers.dr_Collection req) (Handlers.dr_ID req) w = true →
   run.1 = Some (Handlers.mkResponse 409
                   (Handlers.ErrorBody "conflict: id already exists")) ∧
   collections run.2 = collections w) ∧
  (responsive 3 (faults w) = true →
   Handlers.dr_ID req = "" ∨
     holdsId X (Handlers.dr_Collection req) (Handlers.dr_ID req) w = false →
   run.1 = Some (Handlers.mkResponse 201
                   (Handlers.IdBody
                      (directId X (Handlers.dr_ID req) (Handlers.dr_Text req))))).
Proof.
  intros Htext run. subst run.
  unfold Handlers.handleDirectText, mbind, M_bind. split.
  - intros Hid Hresp Hheld.
    destruct (CreateDocDirect_refuses X w _ _ _ (Handlers.dr_Metadata req)
                Htext Hid Hresp Hheld) as (Hr & Hc).
    destruct (CreateDocDirect X (Handlers.dr_Collection req)
                (Handlers.dr_ID req) (Handlers.dr_Text req)
                (Handlers.dr_Metadata req) w) as [r w1]; simpl in *.
    by subst r.
  - intros Hresp Hfree.
    destruct (CreateDocDirect_inserts X w _ _ _ (Handlers.dr_Metadata req)
                Htext Hresp Hfree) as (Hr & _).
    destruct (CreateDocDirect X (Handlers.dr_Collection req)
                (Handlers.dr_ID req) (Handlers.dr_Text req)
                (Handlers.dr_Metadata req) w) as [r w1]; simpl in *.
    by subst r.
Qed.

Lemma handleDirectText_conflict_or_created_witness :
  ((Handlers.handleDirectText Demo.X
      (Ok (Handlers.mkDirectRequest "docs" "doc-1" "again" ∅))
      Demo.withDoc1).1
   = Some (Handlers.mkResponse 409
             (Handlers.ErrorBody "conflict: id already exists")) ∧
   collections
     (Handlers.handleDirectText Demo.X
        (Ok (Handlers.mkDirectRequest "docs" "doc-1" "again" ∅))
        Demo.withDoc1).2
   = collections Demo.withDoc1) ∧
  (Handlers.handleDirectText Demo.X
     (Ok (Handlers.mkDirectRequest "docs" "doc-2" "second" ∅))
     Demo.withDoc1).1
  = Some (Handlers.mkResponse 201 (Handlers.IdBody "doc-2")).
Proof.
  split.
  - apply (proj1 (handleDirectText_conflict_or_created Demo.X Demo.withDoc1
                    (Handlers.mkDirectRequest "docs" "doc-1" "again" ∅)
                    ltac:(discriminate)));
      [discriminate | reflexivity | reflexivity].
  - apply (proj2 (handleDirectText_conflict_or_created Demo.X Demo.withDoc1
                    (Handlers.mkDirectRequest "docs" "doc-2" "second" ∅)
                    ltac:(discriminate)));
      [reflexivity | by right].
Defined.

(** X22: 409 is decided by a word in the error text. When the store
    fails the collection resolution of a direct insert with an error e,
    handleDirectText answers with the wrapped message
    "get/create collection: <e>", with status 409 when the text of e
    contains "conflict" and 500 otherwise; nothing is stored. A store
    failure that mentions the word is thus reported as a conflict
    although no id was even looked up. *)
Theorem handleDirectText_conflict_by_text (X : Externals) (w : World)
    (req : Handlers.DirectRequest) (e : error) :
  Handlers.dr_Text req ≠ "" →
  nextFault w = Some e →
  (Handlers.handleDirectText X (Ok req) w).1
    = Some (Handlers.mkResponse
              (if Contains (errorString e) "conflict" then 409 else 500)
              (Handlers.ErrorBody
                 ("get/create collection" +:+ (": " +:+ errorString e)))) ∧
  collections (Handlers.handleDirectText X (Ok req) w).2 = collections w.
Proof.
  intros Htext F.
  unfold Handlers.handleDirectText, mbind, M_bind.
  destruct (CreateDocDirect_resolution_fails X w (Handlers.dr_Collection req)
              (Handlers.dr_ID req) (Handlers.dr_Text req)
              (Handlers.dr_Metadata req) e Htext F) as (Hr & Hc).
  destruct (CreateDocDirect X (Handlers.dr_Collection req)
              (Handlers.dr_ID req) (Handlers.dr_Text req)
              (Handlers.dr_Metadata req) w) as [r w1]; simpl in *.
  subst r. split; [| done].
  change (errorString (ErrWrap "get/create collection" e))
    with ("get/create collection" +:+ (": " +:+ errorString e)).
  rewrite Contains_wrapped.
  by destruct (Contains (errorString e) "conflict").
Qed.

Lemma handleDirectText_conflict_by_text_witness :
  (Handlers.handleDirectText Demo.X
     (Ok (Handlers.mkDirectRequest "docs" "" "text" ∅))
     (mkWorld ∅ [Some (ErrNew "write conflict, retry")] [] 0 [])).1
  = Some (Handlers.mkResponse 409
            (Handlers.ErrorBody
               "get/create collection: write conflict, retry")) ∧
  collections
    (Handlers.handleDirectText Demo.X
       (Ok (Handlers.mkDirectRequest "docs" "" "text" ∅))
       (mkWorld ∅ [Some (ErrNew "write conflict, retry")] [] 0 [])).2
  = ∅.
Proof.
  apply (handleDirectText_conflict_by_text Demo.X
           (mkWorld ∅ [Some (ErrNew "write conflict, retry")] [] 0 [])
           (Handlers.mkDirectRequest "docs" "" "text" ∅)
           (ErrNew "write conflict, retry"));
    [discriminate | reflexivity].
Defined.

(** X23: the default of k. The search handler and the search tool of the
    MCP server both pass 5 to Search when the request's k is 0 (absent),
    and any other k as it is, a negative one too: every query they send
    to the store carries the request's query text and that limit. *)
Theorem search_front_ends_default_k (X : Externals)
    (jsonMarshal : list SearchResult → string) (w : World)
    (query collection : string) (k : Z) (filter : list (string * any))
    (c : string) (op : CollectionQueryOp) (e : option error) :
  ((CallQuery c op, e)
     ∈ callsSince w
         (Handlers.Search X
            (Ok (Handlers.mkSearchRequest query collection k filter)) w).2 →
   QueryTexts op = [query] ∧ NResults op = (if k =? 0 then 5 else k)) ∧
  ((CallQuery c op, e)
     ∈ callsSince w
         (MCP.handleSearch X jsonMarshal
            (MCP.mkSearchParams query collection k filter) w).2 →
   QueryTexts op = [query] ∧ NResults op = (if k =? 0 then 5 else k)).
Proof.
  split.
  - unfold Handlers.Search, mbind, M_bind. simpl.
    pose proof (Search_queries X w collection query (if k =? 0 then 5 else k)
                  filter c op e) as H.
    destruct (Search X collection query (if k =? 0 then 5 else k) filter w)
      as [r w1]; simpl in *.
    intros Hin. rewrite (H Hin), queryOpOf_search. done.
  - unfold MCP.handleSearch, mbind, M_bind. simpl.
    pose proof (Search_queries X w collection query (if k =? 0 then 5 else k)
                  filter c op e) as H.
    destruct (Search X collection query (if k =? 0 then 5 else k) filter w)
      as [r w1]; simpl in *.
    intros Hin. rewrite (H Hin), queryOpOf_search. done.
Qed.

Lemma search_front_ends_default_k_witness :
  (CallQuery "docs" (mkQueryOp ["first"] 5 None), None)
    ∈ callsSince Demo.withDoc1
        (Handlers.Search Demo.X
           (Ok (Handlers.mkSearchRequest "first" "docs" 0 [])) Demo.withDoc1).2 ∧
  NResults (mkQueryOp ["first"] 5 None) = 5.
Proof.
  assert ((CallQuery "docs" (mkQueryOp ["first"] 5 None), None)
            ∈ callsSince Demo.withDoc1
                (Handlers.Search Demo.X
                   (Ok (Handlers.mkSearchRequest "first" "docs" 0 []))
                   Demo.withDoc1).2) as Hin.
  { vm_compute. apply elem_of_cons. right. apply elem_of_cons. by left. }
  split; [exact Hin |].
  exact (proj2 (proj1 (search_front_ends_default_k Demo.X (λ _, "")
                         Demo.withDoc1 "first" "docs" 0 [] "docs"
                         (mkQueryOp ["first"] 5 None) None) Hin)).
Defined.

(* --------------------------------------------------------------------- *)
(* The ids of the chunks                                                 *)
(* --------------------------------------------------------------------- *)

Section ChunkIds.

Lemma digit_value k : (k < 10)%nat → (nat_of_ascii (digit k) - 48 = k)%nat.
Proof.
  intros H. unfold digit.
  do 10 (destruct k as [|k]; [reflexivity |]). lia.
Qed.

Lemma digit_not_newline k : (k < 10)%nat → Ascii.eqb (digit k) nl_byte = false.
Proof.
  intros H. unfold digit.
  do 10 (destruct k as [|k]; [reflexivity |]). lia.
Qed.

Lemma itoa_fuel_step fuel n acc :
  itoa_fuel (S fuel) n acc
  = if (n <? 10)%nat then String (digit (n mod 10)) acc
    else itoa_fuel fuel (n / 10) (String (digit (n mod 10)) acc).
Proof. reflexivity. Qed.

Lemma readDigits_step c rest v :
  readDigits (String c rest) v
  = readDigits rest (10 * v + (nat_of_ascii c - 48))%nat.
Proof. reflexivity. Qed.

(* itoa writes the digits of n in front of what it is given *)
Lemma itoa_fuel_read fuel :
  ∀ n acc, (n < fuel)%nat →
    ∃ k, ∀ v, readDigits (itoa_fuel fuel n acc) v
              = readDigits acc (v * 10 ^ k + n)%nat.
Proof.
  induction fuel as [|fuel IH]; intros n acc Hn; [lia |].
  rewrite itoa_fuel_step. destruct (n <? 10)%nat eqn:Hsmall.
  - apply Nat.ltb_lt in Hsmall. exists 1%nat. intros v.
    rewrite readDigits_step, Nat.mod_small, digit_value, Nat.pow_1_r by lia.
    f_equal. lia.
  - apply Nat.ltb_ge in Hsmall.
    assert (n / 10 < fuel)%nat as Hdiv.
    { pose proof (Nat.div_lt n 10). lia. }
    destruct (IH (n / 10)%nat (String (digit (n mod 10)) acc) Hdiv) as [k Hk].
    exists (S k). intros v. rewrite Hk, readDigits_step.
    rewrite digit_value by (apply Nat.mod_upper_bound; lia).
    f_equal. rewrite Nat.pow_succ_r'.
    pose proof (Nat.div_mod_eq n 10). nia.
Qed.

Lemma readDigits_itoa n : readDigits (itoa n) 0%nat = n.
Proof.
  unfold itoa.
  destruct (itoa_fuel_read (S n) n EmptyString ltac:(lia)) as [k Hk].
  rewrite Hk. reflexivity.
Qed.

Lemma itoa_inj i j : itoa i = itoa j → i = j.
Proof.
  intros H. by rewrite <- (readDigits_itoa i), <- (readDigits_itoa j), H.
Qed.

Lemma itoa_fuel_no_newline fuel :
  ∀ n acc, hasNewline acc = false →
           hasNewline (itoa_fuel fuel n acc) = false.
Proof.
  induction fuel as [|fuel IH]; intros n acc Hacc; [done |].
  rewrite itoa_fuel_step.
  assert (hasNewline (String (digit (n mod 10)) acc) = false) as Hd.
  { change (hasNewline (String (digit (n mod 10)) acc))
      with (Ascii.eqb (digit (n mod 10)) nl_byte || hasNewline acc).
    rewrite digit_not_newline by (apply Nat.mod_upper_bound; lia).
    done. }
  destruct (n <? 10)%nat; [done | by apply IH].
Qed.

Lemma Split_no_newline s : hasNewline s = false → Split s = [s].
Proof.
  induction s as [|c s IH]; [done |]. simpl.
  intros [Hc Hs]%orb_false_iff. rewrite Hc, IH by done. done.
Qed.

(* Splitting at a newline splits the lines *)
Lemma Split_app_newline x y :
  Split (x +:+ (nl +:+ y)) = Split x ++ Split y.
Proof.
  induction x as [|c x IH]; [done |].
  rewrite app_cons.
  change (Split (String c (x +:+ nl +:+ y)))
    with (if Ascii.eqb c nl_byte then EmptyString :: Split (x +:+ nl +:+ y)
          else match Split (x +:+ nl +:+ y) with
               | h :: t => String c h :: t
               | [] => [String c EmptyString]
               end).
  change (Split (String c x))
    with (if Ascii.eqb c nl_byte then EmptyString :: Split x
          else match Split x with
               | h :: t => String c h :: t
               | [] => [String c EmptyString]
               end).
  rewrite IH. destruct (Ascii.eqb c nl_byte); [done |].
  pose proof (Split_nonempty x). by destruct (Split x).
Qed.

(* What follows the last newline of a string can be read off it *)
Lemma after_newline_inj x y d e :
  hasNewline d = false → hasNewline e = false →
  (x +:+ nl) +:+ d = (y +:+ nl) +:+ e → d = e.
Proof.
  intros Hd He Heq.
  rewrite !app_assoc_str in Heq.
  apply (f_equal Split) in Heq.
  rewrite !Split_app_newline, (Split_no_newline d), (Split_no_newline e)
    in Heq by done.
  apply (f_equal (last (A := string))) in Heq.
  rewrite !last_snoc in Heq. by injection Heq.
Qed.

(* Every chunk ends with the newline of its last line *)
Lemma chunkLoop_newlines tokens maxTokens lines :
  ∀ chunks currentChunk tokenCount,
    Forall (λ c, ∃ x, c = x +:+ nl) chunks →
    currentChunk = EmptyString ∨ (∃ x, currentChunk = x +:+ nl) →
    let r := chunkLoop tokens maxTokens lines chunks currentChunk tokenCount in
    Forall (λ c, ∃ x, c = x +:+ nl) r.1 ∧
    (r.2 = EmptyString ∨ ∃ x, r.2 = x +:+ nl).
Proof.
  induction lines as [|line rest IH]; intros chunks cur tc Hchunks Hcur;
    simpl; [done |].
  destruct ((maxTokens <? tc + tokens line)
            && (0 <? String.length cur)%nat) eqn:Hflush; simpl.
  - apply IH.
    + apply Forall_app. split; [done |]. constructor; [| done].
      destruct Hcur as [-> | Hx]; [| done].
      by rewrite andb_false_r in Hflush.
    + right. exists line. by rewrite app_nil_l.
  - apply IH; [done |]. right.
    exists (cur +:+ line). by rewrite app_assoc_str.
Qed.

Lemma chunkText_newlines text maxTokens :
  Forall (λ c, ∃ x, c = x +:+ nl) (chunkText text maxTokens).
Proof.
  unfold chunkText.
  pose proof (chunkLoop_newlines lenFields maxTokens (Split text) []
                EmptyString 0 ltac:(constructor) ltac:(by left)) as [H1 H2].
  destruct (chunkLoop lenFields maxTokens (Split text) [] EmptyString 0)
    as [chunks cur]; simpl in *.
  destruct (0 <? String.length cur)%nat eqn:Hlen; [| done].
  apply Forall_app. split; [done |]. constructor; [| done].
  destruct H2 as [-> | H2]; [discriminate Hlen | done].
Qed.

End ChunkIds.

(** X24: the ids of the chunks of one call are hashes of different
    inputs. The bytes IngestFile hashes for a chunk's id are the file
    path, the chunk and its index in decimal; for two chunks of one text
    at different indices these byte strings differ, also when the two
    chunks have the same text. *)
Theorem chunk_id_inputs_differ (filePath text : string) (maxTokens : Z)
    (i j : nat) (chunk chunk' : string) :
  chunkText text maxTokens !! i = Some chunk →
  chunkText text maxTokens !! j = Some chunk' →
  i ≠ j →
  chunkIdInput filePath chunk i ≠ chunkIdInput filePath chunk' j.
Proof.
  intros Hi Hj Hne Heq. apply Hne. unfold chunkIdInput in Heq.
  apply (inj (String.app filePath)) in Heq.
  pose proof (chunkText_newlines text maxTokens) as Hall.
  rewrite Forall_forall in Hall.
  destruct (Hall chunk) as [x ->]; [by eapply list_elem_of_lookup_2 |].
  destruct (Hall chunk') as [y ->]; [by eapply list_elem_of_lookup_2 |].
  apply itoa_inj.
  eapply after_newline_inj; [| | exact Heq];
    by apply itoa_fuel_no_newline.
Qed.

Lemma chunk_id_inputs_differ_witness :
  chunkIdInput "a.txt" ("same" +:+ nl) 0 ≠ chunkIdInput "a.txt" ("same" +:+ nl) 1.
Proof.
  apply (chunk_id_inputs_differ "a.txt" ("same" +:+ nl +:+ "same") 1 0 1);
    [reflexivity | reflexivity | discriminate].
Defined.

(* --------------------------------------------------------------------- *)
(* The configuration store                                               *)
(* --------------------------------------------------------------------- *)

Section ConfigFacts.
Import Config.

Lemma statement_ok {A} (body : DB → outcome A * DB) db :
  responsive 1 (dbFaults db) = true →
  statement body db = body (mkDB (table db) (tail (dbFaults db))).
Proof.
  unfold statement. simpl. by destruct (dbFaults db) as [|[e|] fs].
Qed.

Lemma answers_next n db :
  answers (S n) db = true →
  responsive 1 (dbFaults db) = true ∧
  answers n (mkDB (table db) (tail (dbFaults db))) = true.
Proof.
  unfold answers. simpl. destruct (dbFaults db) as [|[e|] fs]; simpl;
    try done. by destruct n.
Qed.

Lemma Set_run key value db rows :
  table db = Some rows → answers 1 db = true →
  Set_ key value db
  = (Ok tt, mkDB (Some (<[key := value]> rows)) (tail (dbFaults db))).
Proof.
  intros Ht Ha. apply answers_next in Ha as [F _].
  unfold Set_, upsert. rewrite statement_ok by done.
  unfold onTable. simpl. by rewrite Ht.
Qed.

Lemma Get_run key db rows :
  table db = Some rows → answers 1 db = true →
  Get key db
  = (Ok (default "" (rows !! key)), mkDB (Some rows) (tail (dbFaults db))).
Proof.
  intros Ht Ha. apply answers_next in Ha as [F _].
  unfold Get, mbind, C_bind, selectValue. rewrite statement_ok by done.
  unfold onTable. simpl. rewrite Ht. by destruct (rows !! key).
Qed.

Lemma insertOrIgnore_union (rows : gmap string string) key value :
  match rows !! key with
  | Some _ => rows
  | None => <[key := value]> rows
  end = rows ∪ {[key := value]}.
Proof.
  apply map_eq. intros k. rewrite lookup_union.
  destruct (rows !! key) as [v|] eqn:E.
  - destruct (decide (key = k)) as [<- | Hne].
    + by rewrite E, lookup_singleton_eq.
    + rewrite lookup_singleton_ne by done. by destruct (rows !! k).
  - destruct (decide (key = k)) as [<- | Hne].
    + by rewrite lookup_insert_eq, E, lookup_singleton_eq.
    + rewrite lookup_insert_ne, lookup_singleton_ne by done.
      by destruct (rows !! k).
Qed.

(* The inserts of the seed, in a database that answers them all *)
Lemma seedPairs_run pairs :
  ∀ db rows,
    table db = Some rows →
    answers (length pairs) db = true →
    seedPairs pairs db
    = (Ok tt,
       mkDB (Some (rows ∪ list_to_map pairs))
         (drop (length pairs) (dbFaults db))).
Proof.
  induction pairs as [|[k v] rest IH]; intros db rows Ht Ha; simpl.
  - rewrite drop_0. destruct db as [t fs]. simpl in *. subst t.
    unfold mret, C_ret. by rewrite (right_id ∅ (∪)).
  - apply answers_next in Ha as [F Ha].
    unfold mbind, C_bind, insertOrIgnore.
    rewrite statement_ok by done. unfold onTable. simpl. rewrite Ht.
    rewrite insertOrIgnore_union.
    erewrite IH; [| reflexivity | exact Ha]. simpl.
    f_equal. f_equal.
    + by rewrite <- (assoc_L (∪)), <- insert_union_singleton_l.
    + destruct (dbFaults db); simpl; [by rewrite drop_nil | done].
Qed.

End ConfigFacts.

(** X25: a value set is the value got. On a database with its table
    that answers, Set followed by Get of the same key returns the value
    set, whatever was there before; the other keys read as before; and a
    key that is not in the table reads as the empty string with no
    error. *)
Theorem Config_Set_then_Get (db : Config.DB) (rows : gmap string string)
    (key value : string) :
  Config.table db = Some rows →
  Config.answers 2 db = true →
  let db' := (Config.Set_ key value db).2 in
  (Config.Set_ key value db).1 = Ok tt ∧
  (Config.Get key db').1 = Ok value ∧
  (∀ k, k ≠ key → (Config.Get k db').1 = Ok (default "" (rows !! k))).
Proof.
  intros Ht Ha db'.
  assert (Config.answers 1 db = true) as Ha1.
  { unfold Config.answers in *.
    destruct (Config.dbFaults db) as [|[?|] ?]; done. }
  subst db'. rewrite (Set_run key value db rows Ht Ha1). simpl.
  apply answers_next in Ha as [_ Ha].
  split; [done |]. split.
  - erewrite Get_run; [| reflexivity | exact Ha]. simpl.
    by rewrite lookup_insert_eq.
  - intros k Hk. erewrite Get_run; [| reflexivity | exact Ha]. simpl.
    by rewrite lookup_insert_ne.
Qed.

Lemma Config_Set_then_Get_witness :
  let db := Config.mkDB (Some {[ "chroma_url" := "http://old:1" ]}) [] in
  let db' := (Config.Set_ "chroma_url" "http://new:2" db).2 in
  (Config.Set_ "chroma_url" "http://new:2" db).1 = Ok tt ∧
  (Config.Get "chroma_url" db').1 = Ok "http://new:2" ∧
  (∀ k, k ≠ "chroma_url" →
     (Config.Get k db').1
     = Ok (default "" (({[ "chroma_url" := "http://old:1" ]}
                          : gmap string string) !! k))).
Proof.
  apply (Config_Set_then_Get
           (Config.mkDB (Some {[ "chroma_url" := "http://old:1" ]}) [])
           {[ "chroma_url" := "http://old:1" ]} "chroma_url" "http://new:2");
    reflexivity.
Defined.

(** X26: seeding the defaults never overwrites. On a database with its
    table that answers the six statements of the transaction,
    seedDefaults returns no error and leaves the table as the rows that
    were there, with the default of each of the four keys added only
    where the key was missing. *)
Theorem Config_seedDefaults_keeps_values (db : Config.DB)
    (rows : gmap string string) :
  Config.table db = Some rows →
  Config.answers 6 db = true →
  (Config.seedDefaults db).1 = Ok tt ∧
  Config.table (Config.seedDefaults db).2
    = Some (rows ∪ list_to_map Config.defaultPairs).
Proof.
  intros Ht Ha.
  apply answers_next in Ha as [F1 Ha].
  unfold Config.seedDefaults, mbind, Config.C_bind, Config.begin.
  rewrite statement_ok by done.
  erewrite (seedPairs_run Config.defaultPairs); [| exact Ht |].
  2:{ unfold Config.answers in *. simpl in *.
      destruct (Config.dbFaults db) as [|? [|[?|] [|[?|] [|[?|] [|[?|] ?]]]]];
        done. }
  unfold Config.commit. rewrite statement_ok; [done |].
  unfold Config.answers in Ha. simpl in *.
  destruct (Config.dbFaults db)
    as [|? [|[?|] [|[?|] [|[?|] [|[?|] [|[?|] ?]]]]]]; done.
Qed.

Lemma Config_seedDefaults_keeps_values_witness :
  (Config.seedDefaults
     (Config.mkDB (Some {[ "chroma_url" := "http://mine:9" ]}) [])).1 = Ok tt ∧
  Config.table
    (Config.seedDefaults
       (Config.mkDB (Some {[ "chroma_url" := "http://mine:9" ]}) [])).2
    = Some ({[ "chroma_url" := "http://mine:9" ]}
              ∪ list_to_map Config.defaultPairs).
Proof.
  apply (Config_seedDefaults_keeps_values
           (Config.mkDB (Some {[ "chroma_url" := "http://mine:9" ]}) [])
           {[ "chroma_url" := "http://mine:9" ]}); reflexivity.
Defined.

(** X27: a seeding that fails leaves the table as it was. Whatever
    statement of seedDefaults fails (the begin, an insert or the
    commit), the table after the call is the table before it: the
    deferred rollback undoes the inserts made so far. *)
Theorem Config_seedDefaults_all_or_nothing (db : Config.DB) (e : error) :
  (Config.seedDefaults db).1 = Err e →
  Config.table (Config.seedDefaults db).2 = Config.table db.
Proof.
  unfold Config.seedDefaults, mbind, Config.C_bind, Config.begin.
  generalize Config.defaultPairs. intros pairs.
  destruct (Config.statement (λ db0, (Ok tt, db0)) db) as [[u|e1|] db1] eqn:E1.
  all: unfold Config.statement in E1.
  all: destruct (Config.dbFaults db) as [|[e0|] fs]; simpl in E1;
    injection E1 as E1 <-; try discriminate E1; simpl; try done.
  all: destruct (Config.seedPairs pairs _) as [[u2|e2|] db2];
    simpl; try done.
  all: unfold Config.commit, Config.statement;
    destruct (Config.dbFaults db2) as [|[e3|] fs3]; simpl; done.
Qed.

Lemma Config_seedDefaults_all_or_nothing_witness :
  Config.table
    (Config.seedDefaults
       (Config.mkDB (Some ∅) [None; None; None; Some Demo.boom])).2
  = Some ∅.
Proof.
  apply (Config_seedDefaults_all_or_nothing
           (Config.mkDB (Some ∅) [None; None; None; Some Demo.boom])
           (ErrWrap "seed backend_http_port" Demo.boom)).
  reflexivity.
Defined.

Section ConfigMore.
Import Config.
Context (atoi : string → Z).

Lemma seedDefaults_run db rows :
  table db = Some rows → answers 6 db = true →
  seedDefaults db
  = (Ok tt,
     mkDB (Some (rows ∪ list_to_map defaultPairs)) (drop 6 (dbFaults db))).
Proof.
  intros Ht Ha.
  apply answers_next in Ha as [F1 Ha].
  unfold seedDefaults, mbind, C_bind, begin.
  rewrite statement_ok by done.
  erewrite (seedPairs_run defaultPairs); [| exact Ht |].
  2:{ unfold answers in *. simpl in *.
      destruct (dbFaults db) as [|? [|[?|] [|[?|] [|[?|] [|[?|] ?]]]]];
        done. }
  unfold commit. rewrite statement_ok.
  - simpl. by destruct (dbFaults db) as [|? [|? [|? [|? [|? [|? ?]]]]]].
  - unfold answers in Ha. simpl in *.
    destruct (dbFaults db)
      as [|? [|[?|] [|[?|] [|[?|] [|[?|] [|[?|] ?]]]]]]; done.
Qed.

Lemma GetAll_run db rows :
  table db = Some rows → answers 1 db = true →
  (GetAll atoi db).1
  = Ok (mkValues
          (pick rows "chroma_url" defaultChromaURL)
          (pick rows "collection_name" defaultCollectionName)
          (atoi (pick rows "backend_http_port"
                   (itoa (Z.to_nat defaultHTTPPort))))
          (pick rows "mcp_transport" defaultMCPTransport)).
Proof.
  intros Ht Ha. apply answers_next in Ha as [F _].
  unfold GetAll, mbind, C_bind, selectAll. rewrite statement_ok by done.
  unfold onTable. simpl. by rewrite Ht.
Qed.

Lemma pick_empty_as_missing (rows : gmap string string) key k d :
  pick (<[key := ""]> rows) k d = pick (delete key rows) k d.
Proof.
  unfold pick. destruct (decide (key = k)) as [<- | Hne].
  - by rewrite lookup_insert_eq, lookup_delete_eq.
  - by rewrite lookup_insert_ne, lookup_delete_ne.
Qed.

End ConfigMore.

(** X28: a fresh configuration reads as the defaults. On a database
    without the table that answers, Ensure (directory made, database
    opened) creates the table and seeds it, and the GetAll that follows
    returns the default URL, collection name and transport, and as port
    what atoi makes of "8080". *)
Theorem Config_fresh_reads_defaults (atoi : string → Z) (db : Config.DB) :
  Config.table db = None →
  Config.answers 8 db = true →
  let booted := Config.Ensure None None db in
  booted.1 = Ok tt ∧
  (Config.GetAll atoi booted.2).1
  = Ok (Config.mkValues "http://localhost:8000" "default" (atoi "8080")
          "stdio").
Proof.
  intros Ht Ha booted. subst booted.
  apply answers_next in Ha as [F1 Ha].
  unfold Config.Ensure, Config.migrate, Config.createTable, mbind,
    Config.C_bind.
  rewrite statement_ok by done. simpl. rewrite Ht. simpl.
  assert (Config.answers 6
            (Config.mkDB (Some ∅) (tail (Config.dbFaults db))) = true) as Ha6.
  { unfold Config.answers in *. simpl in *.
    destruct (Config.dbFaults db)
      as [|? [|[?|] [|[?|] [|[?|] [|[?|] [|[?|] [|[?|] ?]]]]]]]; done. }
  erewrite seedDefaults_run; [| reflexivity | exact Ha6]. simpl.
  split; [done |].
  erewrite GetAll_run; [| reflexivity |].
  - reflexivity.
  - unfold Config.answers in *. simpl in *.
    destruct (Config.dbFaults db)
      as [|? [|[?|] [|[?|] [|[?|] [|[?|] [|[?|] [|[?|] [|[?|] ?]]]]]]]];
      done.
Qed.

Lemma Config_fresh_reads_defaults_witness :
  let booted := Config.Ensure None None (Config.mkDB None []) in
  booted.1 = Ok tt ∧
  (Config.GetAll (λ s, Z.of_nat (readDigits s 0)) booted.2).1
  = Ok (Config.mkValues "http://localhost:8000" "default"
          (Z.of_nat (readDigits "8080" 0)) "stdio").
Proof.
  apply (Config_fresh_reads_defaults (λ s, Z.of_nat (readDigits s 0))
           (Config.mkDB None [])); reflexivity.
Defined.

(** X29: GetAll takes an empty value for a missing one. After Set of a
    key to the empty string, GetAll returns what it would return with
    that row deleted: the default stands in for the key. Get, for its
    part, returns the empty string. *)
Theorem Config_empty_value_reads_as_default (atoi : string → Z)
    (db : Config.DB) (rows : gmap string string) (key : string) :
  Config.table db = Some rows →
  Config.answers 2 db = true →
  let db' := (Config.Set_ key "" db).2 in
  (Config.GetAll atoi db').1
  = (Config.GetAll atoi
       (Config.mkDB (Some (delete key rows)) (Config.dbFaults db'))).1 ∧
  (Config.Get key db').1 = Ok "".
Proof.
  intros Ht Ha db'.
  assert (Config.answers 1 db = true) as Ha1.
  { unfold Config.answers in *.
    destruct (Config.dbFaults db) as [|[?|] ?]; done. }
  subst db'. rewrite (Set_run key "" db rows Ht Ha1). simpl.
  apply answers_next in Ha as [_ Ha].
  split.
  - erewrite !GetAll_run; [| reflexivity | exact Ha | reflexivity | exact Ha].
    by rewrite !pick_empty_as_missing.
  - erewrite Get_run; [| reflexivity | exact Ha]. simpl.
    by rewrite lookup_insert_eq.
Qed.

Lemma Config_empty_value_reads_as_default_witness :
  let db := Config.mkDB (Some {[ "chroma_url" := "http://mine:9" ]}) [] in
  let db' := (Config.Set_ "chroma_url" "" db).2 in
  (Config.GetAll (λ _, 0) db').1
  = (Config.GetAll (λ _, 0)
       (Config.mkDB
          (Some (delete "chroma_url"
                   ({[ "chroma_url" := "http://mine:9" ]}
                      : gmap string string)))
          (Config.dbFaults db'))).1 ∧
  (Config.Get "chroma_url" db').1 = Ok "".
Proof.
  apply (Config_empty_value_reads_as_default (λ _, 0)
           (Config.mkDB (Some {[ "chroma_url" := "http://mine:9" ]}) [])
           {[ "chroma_url" := "http://mine:9" ]} "chroma_url"); reflexivity.
Defined.
